(** * Primitiv desktop widget: coordination core

    A shallow embedding of the window geometry handlers, the drag-reorder
    score computation, the sleep countdown, the sync throttle, the API
    client's response handler and the authentication service of the
    Electron application, with the properties of its specification stated
    over that embedding. *)

From Stdlib Require Import ZArith QArith Qround Qminmax Lia Lqa Bool.
From stdpp Require Import base option list strings gmap pretty.
From Stdlib Require Import Sorted.
From Stdlib Require SpecFloat.

(** ** Window geometry (main process)

    Pixel coordinates are modelled as integers ([Z]). *)
Module Geometry.
Local Open Scope Z_scope.

(** [getPosition()] and [getSize()] of a window. *)
Record WindowRect := mkRect { x : Z; y : Z; width : Z; height : Z }.

(** [screen.getPrimaryDisplay().workAreaSize]. *)
Record WorkArea := mkArea { screenWidth : Z; screenHeight : Z }.

Definition setPosition (r : WindowRect) (newX newY : Z) : WindowRect :=
  {| x := newX; y := newY; width := width r; height := height r |}.

(** The body of [ensureWidgetInBounds], with the margin it keeps to the
    screen edges as a parameter. *)
Definition ensureInBounds (margin : Z) (scr : WorkArea) (w : WindowRect)
  : WindowRect :=
  let currentX := x w in
  let currentY := y w in
  let widgetWidth := width w in
  let widgetHeight := height w in
  let '(newX, needsUpdateX) :=
    if currentX <? margin then (margin, true)
    else if screenWidth scr - margin <? currentX + widgetWidth
         then (screenWidth scr - widgetWidth - margin, true)
         else (currentX, false) in
  let '(newY, needsUpdateY) :=
    if currentY <? margin then (margin, true)
    else if screenHeight scr - margin <? currentY + widgetHeight
         then (screenHeight scr - widgetHeight - margin, true)
         else (currentY, false) in
  if needsUpdateX || needsUpdateY then setPosition w newX newY else w.

(** [ensureWidgetInBounds()]: nothing happens without a widget window; the
    margin is the constant 8. *)
Definition ensureWidgetInBounds (scr : WorkArea)
  (widgetWindow : option WindowRect) : option WindowRect :=
  match widgetWindow with
  | None => None
  | Some w => Some (ensureInBounds 8 scr w)
  end.

(** The [Math.max(margin, Math.min(v, limit))] idiom of the move handlers. *)
Definition constrain (margin limit v : Z) : Z :=
  Z.max margin (Z.min v limit).

(** [ipcMain.on('move-widget', (event, deltaX, deltaY) => ...)]. *)
Definition moveWidget (scr : WorkArea) (deltaX deltaY : Z) (w : WindowRect)
  : WindowRect :=
  let margin := 8 in
  let newX := constrain margin (screenWidth scr - width w - margin)
                (x w + deltaX) in
  let newY := constrain margin (screenHeight scr - height w - margin)
                (y w + deltaY) in
  if negb (newX =? x w) || negb (newY =? y w)
  then setPosition w newX newY else w.

(** The [widgetRect] payload sent by the renderer
    ([getBoundingClientRect()] of the widget element). *)
Record WidgetRect := mkWidgetRect
  { left : Z; top : Z; rectWidth : Z; rectHeight : Z }.

Inductive PositionClass :=
| position_right
| position_left
| position_right_adjusted.

Record Placement := mkPlacement
  { px : Z; py : Z; positionClass : PositionClass }.

(** [v || 698]: zero is falsy. *)
Definition orDefault (v d : Z) : Z := if v =? 0 then d else v.

(** The size of the main window as the handler determines it: the DOM
    dimensions when the window exists and the query succeeds ([Some]),
    the fallbacks 698 x 500 otherwise. *)
Definition mainWindowDimensions (dimensions : option (Z * Z)) : Z * Z :=
  match dimensions with
  | Some (w, h) => (orDefault w 698, orDefault h 500)
  | None => (698, 500)
  end.

(** The placement computed from explicit panel size and gap. *)
Definition placePanel (gap : Z) (scr : WorkArea)
  (mainWindowWidth mainWindowHeight : Z)
  (widgetWindowPos : Z * Z) (widgetRect : WidgetRect) : Placement :=
  let widgetScreenX := fst widgetWindowPos + left widgetRect in
  let widgetScreenY := snd widgetWindowPos + top widgetRect in
  let widgetScreenRight := widgetScreenX + rectWidth widgetRect in
  let spaceRight := screenWidth scr - widgetScreenRight - gap in
  let spaceLeft := widgetScreenX - gap in
  let '(x0, y0, cls) :=
    if mainWindowWidth <=? spaceRight then
      (widgetScreenRight + gap, widgetScreenY, position_right)
    else if mainWindowWidth <=? spaceLeft then
      (widgetScreenX - mainWindowWidth - gap, widgetScreenY, position_left)
    else
      (widgetScreenRight + gap,
       (if screenHeight scr <? widgetScreenY + mainWindowHeight
        then screenHeight scr - mainWindowHeight - gap
        else widgetScreenY),
       position_right_adjusted) in
  {| px := constrain gap (screenWidth scr - mainWindowWidth - gap) x0;
     py := constrain gap (screenHeight scr - mainWindowHeight - gap) y0;
     positionClass := cls |}.

(** [ipcMain.on('calculate-main-window-position', ...)]: the reply sent
    back to the renderer; the gap is the constant 12. *)
Definition calculateMainWindowPosition (scr : WorkArea)
  (dimensions : option (Z * Z)) (widgetWindowPos : Z * Z)
  (widgetRect : WidgetRect) : Placement :=
  let '(mainWindowWidth, mainWindowHeight) :=
    mainWindowDimensions dimensions in
  placePanel 12 scr mainWindowWidth mainWindowHeight widgetWindowPos
    widgetRect.

End Geometry.

(** ** Drag reorder (renderer of the main window)

    JavaScript numbers are modelled as exact rationals ([Q]) together with
    [NaN]; the rounding error of IEEE doubles is not represented. *)
Module DragReorder.
Local Open Scope Q_scope.

(** The result of [parseFloat] on a [data-ricu] attribute. A number is
    the rational it denotes, and the arithmetic on scores below is exact:
    the rounding of each binary64 operation is left out. Where the exact
    result before rounding is not a whole hundredth, the product by 100
    can fall on the other side of a half on binary64, and the score saved
    is then the other neighbouring hundredth. [DragReorder64] repeats the
    arithmetic on binary64; for a drop at the top or at the bottom next to
    a whole hundredth the two give the same score. *)
Inductive JsNumber :=
| NaN
| Num (q : Q).

(** [parseFloat(...) || 1]: [NaN] and zero are falsy. *)
Definition orOne (v : JsNumber) : Q :=
  match v with
  | NaN => 1
  | Num q => if Qeq_bool q 0 then 1 else q
  end.

(** [Math.round]: the nearest integer, halves rounded up. *)
Definition Math_round (q : Q) : Z := Qfloor (q + (1 # 2)).

(** [Math.round(newRicu * 100) / 100]. *)
Definition round2 (newRicu : Q) : Q :=
  inject_Z (Math_round (newRicu * 100)) / 100.

(** [Math.min(50, Math.max(0.51, newRicu))]. *)
Definition clampRicu (newRicu : Q) : Q := Qmin 50 (Qmax 0.51 newRicu).

(** [taskRows[i]]: [undefined] ([None]) outside the array. *)
Definition rowAt (taskRows : list JsNumber) (i : Z) : option JsNumber :=
  if (i <? 0)%Z then None else taskRows !! Z.to_nat i.

(** The score derived from the neighbours, before clamping and rounding.
    [None] stands for the TypeError raised by [getAttribute] on an
    [undefined] row. *)
Definition neighbourRicu (taskRows : list JsNumber) (draggedRicu : JsNumber)
  (newIndex : Z) : option Q :=
  let len := Z.of_nat (length taskRows) in
  if (len =? 1)%Z then
    Some (orOne draggedRicu)
  else if (newIndex =? 0)%Z then
    nextTask ← rowAt taskRows 1;
    Some (Qmin 50 (orOne nextTask + 0.5))
  else if (newIndex =? len - 1)%Z then
    prevTask ← rowAt taskRows (newIndex - 1);
    Some (Qmax 0.51 (orOne prevTask - 0.5))
  else
    prevTask ← rowAt taskRows (newIndex - 1);
    nextTask ← rowAt taskRows (newIndex + 1);
    Some ((orOne prevTask + orOne nextTask) / 2).

Inductive DropOutcome :=
| NoChange                (* dropped at its original index: nothing saved *)
| TypeError               (* a neighbour row was missing *)
| NewRicu (newRicu : Q).  (* [updateTaskPriority] is called with this score *)

(** The score part of [handleMouseUp]: [taskRows] are the parsed
    [data-ricu] attributes of the rows after the move, [draggedRicu] that
    of the dragged row, [newIndex] its index after the move. *)
Definition handleMouseUp (taskRows : list JsNumber) (draggedRicu : JsNumber)
  (originalIndex newIndex : Z) : DropOutcome :=
  if (newIndex =? originalIndex)%Z then NoChange
  else match neighbourRicu taskRows draggedRicu newIndex with
       | None => TypeError
       | Some newRicu => NewRicu (round2 (clampRicu newRicu))
       end.

End DragReorder.

(** ** Sleep mode (main process)

    The module-level variables [sleepTimer] and [isSleeping], the two
    windows, the timers registered with [setInterval] and the messages sent
    to the renderers, as one state threaded through the IPC handlers. *)
Module SleepTimer.
Local Open Scope Z_scope.

Inductive Target := ToMainWindow | ToWidgetWindow.

Inductive Message :=
| update_sleep_timer (remainingHours remainingMinutes : Z)
| main_window_hidden_for_sleep
| main_window_shown
| sleep_mode_ended.

#[global] Instance Target_eq_dec : EqDecision Target.
Proof. solve_decision. Defined.

#[global] Instance Message_eq_dec : EqDecision Message.
Proof. solve_decision. Defined.

Record Process := mkProcess {
  (** opacity of the widget window; [None] when it is null or destroyed *)
  widgetWindow : option Q;
  (** visibility of the main window; [None] when it is null or destroyed *)
  mainWindow : option bool;
  isSleeping : bool;
  (** the timer handle held by the variable [sleepTimer] *)
  sleepTimer : option nat;
  (** the live interval timers with the [totalMinutes] their callback
      has captured *)
  intervals : gmap nat Z;
  nextTimer : nat;
  (** messages delivered through [webContents.send], oldest first *)
  sent : list (Target * Message)
}.

Definition alive (t : Target) (p : Process) : bool :=
  match t with
  | ToMainWindow => bool_decide (is_Some (mainWindow p))
  | ToWidgetWindow => bool_decide (is_Some (widgetWindow p))
  end.

(** [if (win && !win.isDestroyed()) win.webContents.send(m)]. *)
Definition send (t : Target) (m : Message) (p : Process) : Process :=
  if alive t p
  then mkProcess (widgetWindow p) (mainWindow p) (isSleeping p)
         (sleepTimer p) (intervals p) (nextTimer p) (sent p ++ [(t, m)])
  else p.

(** [if (widgetWindow && !widgetWindow.isDestroyed())
       widgetWindow.setOpacity(o)]. *)
Definition setOpacity (o : Q) (p : Process) : Process :=
  mkProcess (fmap (fun _ => o) (widgetWindow p)) (mainWindow p)
    (isSleeping p) (sleepTimer p) (intervals p) (nextTimer p) (sent p).

(** [mainWindow.hide()] / [mainWindow.show(); mainWindow.focus()] on a
    live main window. *)
Definition setVisible (v : bool) (p : Process) : Process :=
  mkProcess (widgetWindow p) (fmap (fun _ => v) (mainWindow p))
    (isSleeping p) (sleepTimer p) (intervals p) (nextTimer p) (sent p).

Definition setSleeping (b : bool) (p : Process) : Process :=
  mkProcess (widgetWindow p) (mainWindow p) b (sleepTimer p) (intervals p)
    (nextTimer p) (sent p).

(** [sleepTimer = setInterval(callback, 60000)] with the callback's
    [totalMinutes]. *)
Definition setInterval (totalMinutes : Z) (p : Process) : Process :=
  mkProcess (widgetWindow p) (mainWindow p) (isSleeping p)
    (Some (nextTimer p)) (<[nextTimer p := totalMinutes]> (intervals p))
    (S (nextTimer p)) (sent p).

(** [if (sleepTimer) { clearInterval(sleepTimer); sleepTimer = null; }]. *)
Definition clearSleepTimer (p : Process) : Process :=
  match sleepTimer p with
  | Some id =>
      mkProcess (widgetWindow p) (mainWindow p) (isSleeping p) None
        (delete id (intervals p)) (nextTimer p) (sent p)
  | None => p
  end.

(** [totalMinutes--] inside the callback of timer [id]. *)
Definition setTotalMinutes (id : nat) (totalMinutes : Z) (p : Process)
  : Process :=
  mkProcess (widgetWindow p) (mainWindow p) (isSleeping p) (sleepTimer p)
    (<[id := totalMinutes]> (intervals p)) (nextTimer p) (sent p).

Definition sendTimer (hours minutes : Z) (p : Process) : Process :=
  send ToWidgetWindow (update_sleep_timer hours minutes)
    (send ToMainWindow (update_sleep_timer hours minutes) p).

(** [function wakeUp()]. *)
Definition wakeUp (p : Process) : Process :=
  let p := setSleeping false p in
  let p := clearSleepTimer p in
  let p := setOpacity 1.0%Q p in
  let p := setVisible true p in
  let p := send ToMainWindow sleep_mode_ended p in
  send ToWidgetWindow sleep_mode_ended p.

(** [ipcMain.on('start-sleep-mode', (event, hours, minutes) => ...)]. *)
Definition startSleepMode (hours minutes : Z) (p : Process) : Process :=
  if isSleeping p then p
  else
    let totalMinutes := hours * 60 + minutes in
    let p := setSleeping true p in
    let p := setOpacity 0.7%Q p in
    let p := setVisible false p in
    let p := send ToWidgetWindow main_window_hidden_for_sleep p in
    let p := setInterval totalMinutes p in
    sendTimer hours minutes p.

(** One firing of the interval callback registered as timer [id]; a
    cleared timer does not fire. *)
Definition intervalFires (id : nat) (p : Process) : Process :=
  match intervals p !! id with
  | None => p
  | Some totalMinutes =>
      if 0 <? totalMinutes then
        let totalMinutes := totalMinutes - 1 in
        let p := setTotalMinutes id totalMinutes p in
        sendTimer (totalMinutes / 60) (Z.rem totalMinutes 60) p
      else wakeUp p
  end.

(** [ipcMain.on('show-main-window', ...)]. *)
Definition showMainWindow (p : Process) : Process :=
  send ToMainWindow main_window_shown (setVisible true p).

(** [ipcMain.on('hide-main-window', ...)]. *)
Definition hideMainWindow (p : Process) : Process := setVisible false p.

(** [ipcMain.on('exit-app', ...)], and likewise [window-all-closed] and
    [before-quit]: the timer is cleared and both windows are destroyed. *)
Definition exitApp (p : Process) : Process :=
  let p := clearSleepTimer p in
  mkProcess None None (isSleeping p) (sleepTimer p) (intervals p)
    (nextTimer p) (sent p).

Inductive Event :=
| start_sleep_mode (hours minutes : Z)
| wake_up
| interval_fires (id : nat)
| show_main_window
| hide_main_window
| exit_app.

Definition handle (e : Event) (p : Process) : Process :=
  match e with
  | start_sleep_mode hours minutes => startSleepMode hours minutes p
  | wake_up => wakeUp p
  | interval_fires id => intervalFires id p
  | show_main_window => showMainWindow p
  | hide_main_window => hideMainWindow p
  | exit_app => exitApp p
  end.

(** The process once [createWidget] and [createMainWindow] have run:
    an opaque widget, a hidden main window, no sleep in progress. *)
Definition started : Process :=
  mkProcess (Some 1.0%Q) (Some false) false None ∅ 0 [].

(** Any state in which no sleep has been started yet. *)
Definition initial (p : Process) : Prop :=
  isSleeping p = false /\ sleepTimer p = None /\ intervals p = ∅.

(** The timer held by [sleepTimer] is the only live one, and no timer is
    held while the process is not sleeping. *)
Definition timer_invariant (p : Process) : Prop :=
  (isSleeping p = false -> sleepTimer p = None) /\
  match sleepTimer p with
  | None => intervals p = ∅
  | Some id => exists totalMinutes, intervals p = {[ id := totalMinutes ]}
  end.

Inductive reachable : Process -> Prop :=
| reachable_initial p : initial p -> reachable p
| reachable_step e p : reachable p -> reachable (handle e p).

(** [n] firings of timer [id]. *)
Definition minuteTicks (n : nat) (id : nat) (p : Process) : Process :=
  Nat.iter n (intervalFires id) p.

(** The ['sleep-mode-ended'] notifications received by a window. *)
Definition endedCount (t : Target) (p : Process) : nat :=
  length (filter (fun tm => tm = (t, sleep_mode_ended)) (sent p)).

End SleepTimer.

(** ** Sync throttle (renderer of the main window)

    [Date.now()] is an input of each call; times are milliseconds. *)
Module SyncTrigger.
Local Open Scope Z_scope.

Definition SYNC_COOLDOWN_MS : Z := 5 * 60 * 1000.

(** The two requests a sync cycle sends through the API client. *)
Inductive Request :=
| triggerAllSourcesSync (force : bool)
| triggerRICURecalculation (force : bool).

Record Renderer := mkRenderer {
  lastSyncTime : Z;
  syncInProgress : bool;
  (** the requests handed to the API client so far, oldest first *)
  outbound : list Request
}.

(** The module-level initial values. *)
Definition loaded : Renderer := mkRenderer 0 false [].

Inductive Outcome :=
| NotAuthenticated
| AlreadyInProgress
| InCooldown
| Proceeds.

(** The [finally] block: [syncInProgress = false]. It runs on every way
    out of the [try], the early returns included. *)
Definition finally (r : Renderer) : Renderer :=
  mkRenderer (lastSyncTime r) false (outbound r).

(** [triggerSyncOnOpen()] up to its first [await]. [ready] is
    [apiClient && authService?.isAuthenticated()], [now] is [Date.now()].
    A call that returns early has run its [finally] block; a call that
    proceeds has set the flag and the time and has issued both requests, and
    is suspended. *)
Definition triggerSyncOnOpen (ready : bool) (now : Z) (r : Renderer)
  : Outcome * Renderer :=
  if negb ready then (NotAuthenticated, finally r)
  else if syncInProgress r then (AlreadyInProgress, finally r)
  else
    let timeSinceLastSync := now - lastSyncTime r in
    if timeSinceLastSync <? SYNC_COOLDOWN_MS then (InCooldown, finally r)
    else
      (Proceeds,
       mkRenderer now true
         (outbound r ++ [triggerAllSourcesSync false;
                         triggerRICURecalculation false])).

(** The rest of a call that proceeded, once its awaits have settled: none
    of it touches the throttle but the [finally] block. *)
Definition settle (r : Renderer) : Renderer := finally r.

Inductive Event :=
| call (ready : bool) (now : Z)
| settled.

Definition step (r : Renderer) (e : Event) : Renderer :=
  match e with
  | call ready now => snd (triggerSyncOnOpen ready now r)
  | settled => settle r
  end.

Definition run (es : list Event) (r : Renderer) : Renderer :=
  fold_left step es r.

(** Every call of the trace begins before [deadline]. *)
Definition callsBefore (deadline : Z) (es : list Event) : Prop :=
  Forall (fun e => match e with
                   | call _ now => now < deadline
                   | settled => True
                   end) es.

End SyncTrigger.

(** ** API client ([DesktopApiClient]) *)
Module ApiClient.
Local Open Scope string_scope.
Local Open Scope Z_scope.

(** A thrown JavaScript error object: its [name] and its [message]. *)
Record JsError := mkError { name : string; message : string }.

(** [new Error(message)]. *)
Definition Error (message : string) : JsError := mkError "Error" message.

Inductive Completion (A : Type) :=
| Returns (a : A)
| Throws (e : JsError).
Arguments Returns {A} a.
Arguments Throws {A} e.

(** Parsed JSON values. *)
#[local] Unset Elimination Schemes.
Inductive Json :=
| JNull
| JBool (b : bool)
| JNum (z : Z)
| JStr (s : string)
| JObj (fields : list (string * Json)).
#[local] Set Elimination Schemes.

(** Truthiness of an ordinary string. *)
Definition nonEmpty (s : string) : bool :=
  match s with EmptyString => false | _ => true end.

Definition truthy (j : Json) : bool :=
  match j with
  | JNull => false
  | JBool b => b
  | JNum z => negb (z =? 0)
  | JStr s => nonEmpty s
  | JObj _ => true
  end.

(** [String(j)], as used when a value becomes an error message. *)
Definition toString (j : Json) : string :=
  match j with
  | JNull => "null"
  | JBool b => if b then "true" else "false"
  | JNum z => pretty z
  | JStr s => s
  | JObj _ => "[object Object]"
  end.

Fixpoint assoc (key : string) (fields : list (string * Json)) : option Json :=
  match fields with
  | [] => None
  | (k, v) :: rest => if String.eqb k key then Some v else assoc key rest
  end.

(** [data.key]: a TypeError on [null], [undefined] ([None]) when the
    property is missing. *)
Definition getProperty (data : Json) (key : string)
  : Completion (option Json) :=
  match data with
  | JNull =>
      Throws (mkError "TypeError"
                ("Cannot read properties of null (reading '" +:+ key +:+ "')"))
  | JObj fields => Returns (assoc key fields)
  | _ => Returns None
  end.

(** The result of [response.json()]. *)
Inductive JsonBody :=
| Malformed (syntaxErrorMessage : string)
| Parsed (data : Json).

Record Response := mkResponse {
  status : Z;
  statusText : string;
  (** [response.headers.get('content-type')] *)
  contentType : option string;
  (** [await response.text()] *)
  text : string;
  (** [await response.json()] *)
  json : JsonBody
}.

Definition ok (response : Response) : bool :=
  (200 <=? status response) && (status response <=? 299).

(** [haystack.includes(needle)]. *)
Definition includes (haystack needle : string) : bool :=
  bool_decide (is_Some (String.index 0 needle haystack)).

(** The envelope returned by [handleResponse]. *)
Record ApiResult := mkResult {
  resultStatus : string;
  resultData : Json;
  resultMessage : option Json
}.

(** [async handleResponse(response)]; the [catch] logs and rethrows. *)
Definition handleResponse (response : Response) : Completion ApiResult :=
  if status response =? 429 then
    let text := text response in
    Throws (Error ("Rate limited: " +:+
                   (if nonEmpty text then text else "Too many requests")))
  else
    match contentType response with
    | Some ct =>
        if includes ct "application/json" then
          match json response with
          | Malformed msg => Throws (mkError "SyntaxError" msg)
          | Parsed data =>
              if negb (ok response) then
                match getProperty data "message" with
                | Throws e => Throws e
                | Returns (Some m) =>
                    if truthy m then Throws (Error (toString m))
                    else Throws (Error ("HTTP " +:+ pretty (status response)
                                        +:+ ": " +:+ statusText response))
                | Returns None =>
                    Throws (Error ("HTTP " +:+ pretty (status response)
                                   +:+ ": " +:+ statusText response))
                end
              else
                match getProperty data "data", getProperty data "message" with
                | Throws e, _ => Throws e
                | _, Throws e => Throws e
                | Returns d, Returns m =>
                    Returns (mkResult "success"
                               (match d with
                                | Some d' => if truthy d' then d' else data
                                | None => data
                                end) m)
                end
          end
        else
          Throws (Error ("Expected JSON response, got: " +:+
                         String.substring 0 100 (text response)))
    | None =>
        Throws (Error ("Expected JSON response, got: " +:+
                       String.substring 0 100 (text response)))
    end.

(** The [options] of a request, and the request as handed to [fetch]. *)
Record Options := mkOptions { method : option string; body : option string }.

Record Request := mkRequest {
  url : string;
  authorization : string;
  reqMethod : option string;
  reqBody : option string
}.

(** [fetch] resolves with a response or rejects (no connection). *)
Inductive FetchResult :=
| Rejects (e : JsError)
| Resolves (response : Response).

Definition baseUrl : string := "https://primitiv.tools".

(** [async makeRequest(endpoint, options)]. [accessToken] is what
    [authService.getAccessToken()] resolved to, [fetch] is the network.
    Beside the completion, the requests handed to [fetch] are returned. *)
Definition makeRequest (accessToken : option string)
  (fetch : Request -> FetchResult) (endpoint : string) (options : Options)
  : Completion ApiResult * list Request :=
  match accessToken with
  | None => (Throws (Error "No valid access token available"), [])
  | Some token =>
      if negb (nonEmpty token)
      then (Throws (Error "No valid access token available"), [])
      else
        let request :=
          mkRequest (baseUrl +:+ endpoint) ("Bearer " +:+ token)
            (method options) (body options) in
        match fetch request with
        | Rejects e => (Throws e, [request])
        | Resolves response => (handleResponse response, [request])
        end
  end.

End ApiClient.

(** ** Authentication service ([DesktopAuthService])

    The service object ([user], [authState]), the [localStorage] it reads
    and writes, the notifications it delivers and the requests it hands to
    [fetch] form one state, threaded through the methods. The network is a
    function giving the outcome of the n-th request. *)
Module Auth.
Local Open Scope string_scope.
Local Open Scope Z_scope.

Definition ACCESS_TOKEN : string := "primitivDesktopAccessToken".
Definition REFRESH_TOKEN : string := "primitivDesktopRefreshToken".
Definition USER_DATA : string := "primitivDesktopUserData".
Definition AUTH_STATE : string := "primitivDesktopAuthState".

(** [data.tokens] of a refresh response. *)
Record Tokens := mkTokens {
  access_token : option string;
  refresh_token : option string
}.

(** A parsed response body, as far as the service looks at it. *)
Record Data := mkData {
  data_status : option string;
  (** [data.user] is truthy *)
  data_user : bool;
  data_tokens : option Tokens
}.

(** [await response.json()]: [Unreadable] when the promise rejects or the
    value is [null], so that reading a property of it throws. *)
Inductive Body :=
| Unreadable
| Readable (data : Data).

Record Response := mkResponse { status : Z; body : Body }.

Definition ok (response : Response) : bool :=
  (200 <=? status response) && (status response <=? 299).

Inductive Request :=
| GET_auth_status (bearer : string)
| POST_auth_refresh (refreshToken : string).

(** [fetch] resolves with a response or rejects (transport failure). *)
Inductive FetchResult :=
| Rejects
| Resolves (response : Response).

(** Truthiness of a string. *)
Definition nonEmpty (s : string) : bool :=
  match s with EmptyString => false | _ => true end.

(** Truthiness of [localStorage.getItem(key)] and of optional strings. *)
Definition truthy (o : option string) : bool :=
  match o with Some s => nonEmpty s | None => false end.

(** The string [localStorage.setItem] stores for a possibly [undefined]
    value. *)
Definition stored (o : option string) : string :=
  match o with Some s => s | None => "undefined" end.

(** The outcome of [JSON.parse] on the stored user data. *)
Inductive Parsed (User : Type) :=
| SyntaxError
| Falsy
| Object (u : User).
Arguments SyntaxError {User}.
Arguments Falsy {User}.
Arguments Object {User} u.

Section Service.
Context {User : Type}.
Variable JSON_parse : string -> Parsed User.
Variable server : nat -> Request -> FetchResult.

Record Service := mkService {
  localStorage : gmap string string;
  user : option User;
  authState : string;
  (** the [(state, user)] pairs passed to the listeners, oldest first *)
  notified : list (string * option User);
  (** the requests handed to [fetch], oldest first *)
  fetched : list Request
}.

Definition M (A : Type) : Type := Service -> A * Service.

Definition ret {A} (a : A) : M A := fun s => (a, s).

Definition bind {A B} (m : M A) (k : A -> M B) : M B :=
  fun s => let '(a, s') := m s in k a s'.

Notation "'do' x <- m ; k" := (bind m (fun x => k))
  (at level 10, x name, m at level 100, k at level 200).
Notation "m ;; k" := (bind m (fun _ => k))
  (at level 100, k at level 200, right associativity).

Definition getItem (key : string) : M (option string) :=
  fun s => (localStorage s !! key, s).

Definition setItem (key value : string) : M unit :=
  fun s => (tt, mkService (<[key := value]> (localStorage s)) (user s)
                  (authState s) (notified s) (fetched s)).

Definition removeItem (key : string) : M unit :=
  fun s => (tt, mkService (delete key (localStorage s)) (user s)
                  (authState s) (notified s) (fetched s)).

Definition setUser (u : option User) : M unit :=
  fun s => (tt, mkService (localStorage s) u (authState s) (notified s)
                  (fetched s)).

Definition setAuthState (st : string) : M unit :=
  fun s => (tt, mkService (localStorage s) (user s) st (notified s)
                  (fetched s)).

Definition getAuthState : M string := fun s => (authState s, s).

Definition getUser : M (option User) := fun s => (user s, s).

(** [await fetch(...)]: the outcome is the server's answer to the n-th
    request. *)
Definition fetch (request : Request) : M FetchResult :=
  fun s => (server (length (fetched s)) request,
            mkService (localStorage s) (user s) (authState s) (notified s)
              (fetched s ++ [request])).

(** [notifyListeners()]: persists the state, then calls every listener
    with [(authState, user)]; listener errors are caught. *)
Definition notifyListeners : M unit :=
  do st <- getAuthState;
  setItem AUTH_STATE st;;
  fun s => (tt, mkService (localStorage s) (user s) (authState s)
                  (notified s ++ [(authState s, user s)]) (fetched s)).

(** [clearAuthData(skipNotification = false)]. *)
Definition clearAuthData (skipNotification : bool) : M unit :=
  setUser None;;
  setAuthState "unauthenticated";;
  removeItem ACCESS_TOKEN;;
  removeItem REFRESH_TOKEN;;
  removeItem USER_DATA;;
  removeItem AUTH_STATE;;
  if negb skipNotification then notifyListeners else ret tt.

(** [storeTokens(accessToken, refreshToken)]. *)
Definition storeTokens (accessToken refreshToken : option string) : M unit :=
  setItem ACCESS_TOKEN (stored accessToken);;
  if truthy refreshToken then setItem REFRESH_TOKEN (stored refreshToken)
  else ret tt.

(** [verifyToken(token)]: every failure, thrown or not, yields [false]. *)
Definition verifyToken (token : string) : M bool :=
  if negb (nonEmpty token) then ret false
  else
    do result <- fetch (GET_auth_status token);
    match result with
    | Rejects => ret false
    | Resolves response =>
        if ok response then
          match body response with
          | Unreadable => ret false
          | Readable data =>
              ret (bool_decide (data_status data = Some "success")
                   && data_user data)
          end
        else ret false
    end.

(** [refreshAccessToken(retryCount)], by recursion on the retries that are
    left, [2 - retryCount]: the [catch] block calls
    [refreshAccessToken(retryCount + 1)] while [retryCount < 2]. *)
Fixpoint refreshAttempts (retriesLeft : nat) : M bool :=
  let caught : M bool :=
    match retriesLeft with
    | S retriesLeft' => refreshAttempts retriesLeft'
    | O => clearAuthData false;; ret false
    end in
  do refreshToken <- getItem REFRESH_TOKEN;
  if negb (truthy refreshToken) then clearAuthData false;; ret false
  else
    do result <- fetch (POST_auth_refresh (stored refreshToken));
    match result with
    | Rejects => caught
    | Resolves response =>
        if ok response then
          match body response with
          | Unreadable => caught
          | Readable data =>
              storeTokens
                (match data_tokens data with
                 | Some t => access_token t | None => None end)
                (match data_tokens data with
                 | Some t => refresh_token t | None => None end);;
              ret true
          end
        else clearAuthData false;; ret false
    end.

Definition refreshAccessToken (retryCount : nat) : M bool :=
  refreshAttempts (2 - retryCount).

(** [getAccessToken()]; [None] is [null]. *)
Definition getAccessToken : M (option string) :=
  do token <- getItem ACCESS_TOKEN;
  if negb (truthy token) then ret None
  else
    do isValid <- verifyToken (stored token);
    if negb isValid then
      do refreshed <- refreshAccessToken 0;
      if refreshed then getItem ACCESS_TOKEN else ret None
    else ret token.

(** [init()]. *)
Definition init : M string :=
  do accessToken <- getItem ACCESS_TOKEN;
  do refreshToken <- getItem REFRESH_TOKEN;
  do userData <- getItem USER_DATA;
  do authState <- getItem AUTH_STATE;
  setAuthState (if truthy authState then stored authState
                else "unauthenticated");;
  match (if truthy userData then JSON_parse (stored userData) else Falsy) with
  | SyntaxError =>
      (* the catch block *)
      setAuthState "unauthenticated";;
      notifyListeners;;
      getAuthState
  | parsed =>
      setUser (match parsed with Object u => Some u | _ => None end);;
      do user <- getUser;
      (if truthy accessToken && bool_decide (is_Some user) then
         do isValid <- verifyToken (stored accessToken);
         if isValid then setAuthState "authenticated"
         else if truthy refreshToken then
           do refreshed <- refreshAccessToken 0;
           if negb refreshed then clearAuthData true else ret tt
         else clearAuthData true
       else if truthy accessToken && negb (bool_decide (is_Some user)) then
         clearAuthData true
       else
         do st <- getAuthState;
         if negb (truthy accessToken) && String.eqb st "authenticated"
         then clearAuthData true else ret tt);;
      notifyListeners;;
      getAuthState
  end.

(** [new DesktopAuthService()] over a given [localStorage]. *)
Definition constructed (storage : gmap string string) : Service :=
  mkService storage None "unauthenticated" [] [].

End Service.

Arguments Service User : clear implicits.

(** *** What one answer of the server means to the service *)

(** [verifyToken] accepts the token on this answer. *)
Definition verifies (result : FetchResult) : bool :=
  match result with
  | Resolves (mkResponse st (Readable data)) =>
      ok (mkResponse st (Readable data))
      && bool_decide (data_status data = Some "success") && data_user data
  | _ => false
  end.

(** A refresh attempt with this answer ends in the [catch] block: the
    request was rejected (transport failure), or a 2xx response had a body
    that could not be read. *)
Definition refreshThrows (result : FetchResult) : bool :=
  match result with
  | Rejects => true
  | Resolves response =>
      ok response
      && match body response with Unreadable => true | _ => false end
  end.

(** A refresh attempt with this answer got a non-2xx response. *)
Definition refreshRefused (result : FetchResult) : bool :=
  match result with
  | Rejects => false
  | Resolves response => negb (ok response)
  end.

(** The session data is gone: what [clearAuthData()] leaves behind. *)
Definition sessionCleared {User : Type} (s : Service User) : Prop :=
  authState s = "unauthenticated" /\
  user s = None /\
  localStorage s !! ACCESS_TOKEN = None /\
  localStorage s !! REFRESH_TOKEN = None /\
  localStorage s !! USER_DATA = None /\
  localStorage s !! AUTH_STATE = Some "unauthenticated".

(** The state after one more request has been handed to [fetch]. *)
Definition afterFetch {User : Type} (request : Request) (s : Service User)
  : Service User :=
  mkService (localStorage s) (user s) (authState s) (notified s)
    (fetched s ++ [request]).

(** A refresh attempt with this answer is granted: a 2xx response whose
    body can be read; the result is the parsed body. *)
Definition refreshGranted (result : FetchResult) : option Data :=
  match result with
  | Rejects => None
  | Resolves response =>
      if ok response then
        match body response with
        | Unreadable => None
        | Readable data => Some data
        end
      else None
  end.

(** [data.tokens?.access_token]. *)
Definition newAccessToken (data : Data) : option string :=
  match data_tokens data with
  | Some t => access_token t
  | None => None
  end.

(** A refresh chain that started in state [s] and ended as [run]: the
    refresh request was sent [attempts] times, at most [limit]; every
    attempt that was followed by another one threw; an attempt that was
    refused was the last one and the chain failed; a failed chain leaves the
    session cleared, a successful one leaves an access token stored.
    With a refresh token stored at least one attempt was made, without one
    none was and the chain failed; a last attempt that threw was attempt
    number [limit] and the chain failed; a last attempt that was granted
    made the chain succeed, with the access token of the response stored
    and the state and the user untouched. *)
Definition refreshChain {User : Type} (server : nat -> Request -> FetchResult)
  (limit : nat) (s : Service User) (run : bool * Service User) : Prop :=
  let refreshToken := localStorage s !! REFRESH_TOKEN in
  let request := POST_auth_refresh (stored refreshToken) in
  let first := length (fetched s) in
  exists attempts : nat,
    fetched (snd run) = (fetched s ++ replicate attempts request)%list /\
    (attempts <= limit)%nat /\
    (forall i, (S i < attempts)%nat ->
       refreshThrows (server (first + i)%nat request) = true) /\
    (forall i, (i < attempts)%nat ->
       refreshRefused (server (first + i)%nat request) = true ->
       S i = attempts /\ fst run = false) /\
    (fst run = false -> sessionCleared (snd run)) /\
    (fst run = true -> is_Some (localStorage (snd run) !! ACCESS_TOKEN)) /\
    (truthy refreshToken = true -> (1 <= attempts)%nat) /\
    (truthy refreshToken = false -> attempts = 0%nat /\ fst run = false) /\
    (forall i, S i = attempts ->
       refreshThrows (server (first + i)%nat request) = true ->
       attempts = limit /\ fst run = false) /\
    (forall i data, S i = attempts ->
       refreshGranted (server (first + i)%nat request) = Some data ->
       fst run = true /\
       localStorage (snd run) !! ACCESS_TOKEN
         = Some (stored (newAccessToken data)) /\
       authState (snd run) = authState s /\
       user (snd run) = user s).

(** A sample user record and parser for concrete runs: the one stored
    user string parses to the user, ["null"] to [null], and everything else
    is rejected. *)
Record SampleUser := mkUser { id : Z; email : string }.

Definition quote : string := String (Ascii.ascii_of_nat 34) EmptyString.

Definition sampleUserData : string :=
  "{" +:+ quote +:+ "id" +:+ quote +:+ ":7," +:+ quote +:+ "email" +:+ quote
  +:+ ":" +:+ quote +:+ "a@b.c" +:+ quote +:+ "}".

Definition sampleParse (text : string) : Parsed SampleUser :=
  if String.eqb text sampleUserData then Object (mkUser 7 "a@b.c")
  else if String.eqb text "null" then Falsy
  else SyntaxError.

(** A stored session whose persisted state is "unauthenticated" (as left by
    a login timeout or a deep-link error), with tokens and user in place. *)
Definition staleSession : gmap string string :=
  <[ACCESS_TOKEN := "old-access"]>
    (<[REFRESH_TOKEN := "refresh-1"]>
       (<[USER_DATA := sampleUserData]>
          (<[AUTH_STATE := "unauthenticated"]> ∅))).

Definition newTokens : Response :=
  mkResponse 200
    (Readable (mkData (Some "success") false
                 (Some (mkTokens (Some "new-access") (Some "refresh-2"))))).

(** The access token has expired (401), the refresh token is good. *)
Definition refreshingServer (n : nat) (request : Request) : FetchResult :=
  match request with
  | GET_auth_status _ => Resolves (mkResponse 401 Unreadable)
  | POST_auth_refresh _ => Resolves newTokens
  end.

(** The access token is still good. *)
Definition acceptingServer (n : nat) (request : Request) : FetchResult :=
  Resolves (mkResponse 200
              (Readable (mkData (Some "success") true None))).

(** The access token has expired; the first refresh response is a 200
    whose body is not JSON, the next one carries new tokens. No request is
    ever rejected. *)
Definition garblingServer (n : nat) (request : Request) : FetchResult :=
  match request with
  | GET_auth_status _ => Resolves (mkResponse 401 Unreadable)
  | POST_auth_refresh _ =>
      if (n <=? 1)%nat then Resolves (mkResponse 200 Unreadable)
      else Resolves newTokens
  end.

(** The access token has expired and the network is down for the first two
    refresh attempts. *)
Definition flakyServer (n : nat) (request : Request) : FetchResult :=
  match request with
  | GET_auth_status _ => Resolves (mkResponse 401 Unreadable)
  | POST_auth_refresh _ =>
      if (n <=? 2)%nat then Rejects else Resolves (mkResponse 403 Unreadable)
  end.

End Auth.

(** ** The main window and the widget together (main process)

    The two window handles of the main process and the handlers that move
    one of them and realign the other. *)
Module MainWindow.
Import Geometry.
Local Open Scope Z_scope.

(** The module-level [mainWindow] and [widgetWindow]; [None] stands for a
    handle that is null or destroyed. *)
Record Windows := mkWindows {
  mainWindow : option WindowRect;
  widgetWindow : option WindowRect
}.

(** [a > b] on exact numbers. *)
Definition Qgtb (a b : Q) : bool := negb (Qle_bool a b).

(** [function repositionWidgetRelativeToMain()]. *)
Definition repositionWidgetRelativeToMain (scr : WorkArea) (ws : Windows)
  : Windows :=
  match mainWindow ws, widgetWindow ws with
  | Some main, Some widget =>
      let mainX := x main in
      let mainY := y main in
      let mainWidth := width main in
      let mainHeight := height main in
      let widgetWidth := width widget in
      let widgetHeight := height widget in
      let mainCenterX := (inject_Z mainX + inject_Z mainWidth / 2)%Q in
      let mainCenterY := (inject_Z mainY + inject_Z mainHeight / 2)%Q in
      let mainInRightHalf :=
        Qgtb mainCenterX (inject_Z (screenWidth scr) / 2)%Q in
      let mainInBottomHalf :=
        Qgtb mainCenterY (inject_Z (screenHeight scr) / 2)%Q in
      let margin := 20 in
      let '(newWidgetX, newWidgetY) :=
        if mainInRightHalf && mainInBottomHalf then
          (mainX - widgetWidth - margin, mainY)
        else if negb mainInRightHalf && mainInBottomHalf then
          (mainX + mainWidth + margin, mainY)
        else if mainInRightHalf && negb mainInBottomHalf then
          (mainX - widgetWidth - margin, mainY + mainHeight - widgetHeight)
        else
          (mainX + mainWidth + margin, mainY + mainHeight - widgetHeight) in
      let newWidgetX :=
        Z.max margin (Z.min (screenWidth scr - widgetWidth - margin)
                        newWidgetX) in
      let newWidgetY :=
        Z.max margin (Z.min (screenHeight scr - widgetHeight - margin)
                        newWidgetY) in
      mkWindows (Some main) (Some (setPosition widget newWidgetX newWidgetY))
  | _, _ => ws
  end.

(** The first listener registered for ['move-main-window'] (delta-based,
    clamped to a margin of 20). Without a main window [getPosition] throws
    and nothing changes. *)
Definition moveMainWindowClamped (scr : WorkArea) (deltaX deltaY : Z)
  (ws : Windows) : Windows :=
  match mainWindow ws with
  | None => ws
  | Some main =>
      let margin := 20 in
      let newX := constrain margin (screenWidth scr - width main - margin)
                    (x main + deltaX) in
      let newY := constrain margin (screenHeight scr - height main - margin)
                    (y main + deltaY) in
      if negb (newX =? x main) || negb (newY =? y main) then
        repositionWidgetRelativeToMain scr
          (mkWindows (Some (setPosition main newX newY)) (widgetWindow ws))
      else ws
  end.

(** The second listener registered for the same channel, further down the
    file: the delta is added to the current position, unclamped. *)
Definition moveMainWindowFree (deltaX deltaY : Z) (ws : Windows) : Windows :=
  match mainWindow ws with
  | None => ws
  | Some main =>
      mkWindows (Some (setPosition main (x main + deltaX) (y main + deltaY)))
        (widgetWindow ws)
  end.

(** One ['move-main-window'] message: [ipcMain] calls the listeners of a
    channel in the order of their registration. (Without a main window the
    first listener throws and the second is not reached; neither changes
    anything then.) *)
Definition onMoveMainWindow (scr : WorkArea) (deltaX deltaY : Z)
  (ws : Windows) : Windows :=
  moveMainWindowFree deltaX deltaY (moveMainWindowClamped scr deltaX deltaY ws).

(** [ipcMain.on('move-main-window-absolute', (event, newX, newY) => ...)]. *)
Definition moveMainWindowAbsolute (scr : WorkArea) (newX newY : Z)
  (ws : Windows) : Windows :=
  match mainWindow ws with
  | None => ws
  | Some main =>
      let margin := 20 in
      let constrainedX :=
        constrain margin (screenWidth scr - width main - margin) newX in
      let constrainedY :=
        constrain margin (screenHeight scr - height main - margin) newY in
      if negb (constrainedX =? x main) || negb (constrainedY =? y main) then
        repositionWidgetRelativeToMain scr
          (mkWindows (Some (setPosition main constrainedX constrainedY))
             (widgetWindow ws))
      else ws
  end.

(** The size and position [createMainWindow] asks for: [(width, height, x,
    y)]. [screenWidth * 0.8] need not be whole, so these are rationals. *)
Definition mainWindowOptions (scr : WorkArea) : Q * Q * Q * Q :=
  let width := inject_Z (screenWidth scr) in
  let height := inject_Z (screenHeight scr) in
  let mainWidth := 698%Q in
  let mainHeight := 500%Q in
  let minWidth := 400%Q in
  let minHeight := 300%Q in
  let maxWidth := Qmin 900 (width * 0.8) in
  let maxHeight := Qmin 700 (height * 0.9) in
  let finalWidth := Qmax minWidth (Qmin mainWidth maxWidth) in
  let finalHeight := Qmax minHeight (Qmin mainHeight maxHeight) in
  (finalWidth, finalHeight,
   (width - finalWidth - 20)%Q, (height - finalHeight - 20)%Q).

End MainWindow.

(** ** The sleep dialog (renderer of the main window) *)
Module SleepModal.
Local Open Scope Z_scope.

(** [parseInt(input.value) || 0]: [None] is [NaN]. *)
Definition parseIntOr0 (value : option Z) : Z :=
  match value with Some z => z | None => 0 end.

(** [function startSleepMode()] of the renderer. [inputs] are the parsed
    values of the two input elements, [None] when an element is missing;
    [isSleeping] is the renderer's own flag. The result is the new flag and
    the payload of the ['start-sleep-mode'] message, if one is sent. *)
Definition startSleepMode (inputs : option (option Z * option Z))
  (isSleeping : bool) : bool * option (Z * Z) :=
  match inputs with
  | None => (isSleeping, None)
  | Some (hoursValue, minutesValue) =>
      let hours := parseIntOr0 hoursValue in
      let minutes := parseIntOr0 minutesValue in
      if (hours <? 0) || (23 <? hours) || (minutes <? 0) || (59 <? minutes)
      then (isSleeping, None)
      else if (hours =? 0) && (minutes =? 0) then (isSleeping, None)
      else (true, Some (hours, minutes))
  end.

(** [function validateSleepTime()]: whether the start button is enabled. *)
Definition validateSleepTime (hoursValue minutesValue : option Z) : bool :=
  let hours := parseIntOr0 hoursValue in
  let minutes := parseIntOr0 minutesValue in
  (0 <? hours) || (0 <? minutes).

End SleepModal.

(** ** Waiting for a sync cycle (renderer of the main window) *)
Module SyncWait.
Local Open Scope Z_scope.

Definition maxWaitTime : Z := 30000.
Definition pollInterval : Z := 2000.

(** The loop of [waitForSyncCompletion()]. [elapsed] is
    [Date.now() - startTime] at the head of the loop, [polls] the number of
    waits done so far, and [delay i] the time the i-th wait really takes
    (a timer never fires early, so at least [pollInterval]); the clock
    advances only during the waits. The result is the number of waits and
    the time elapsed at the end; [None] when the fuel runs out. *)
Fixpoint waitLoop (fuel : nat) (delay : nat -> Z) (elapsed : Z) (polls : nat)
  : option (nat * Z) :=
  match fuel with
  | O => None
  | S fuel' =>
      if elapsed <? maxWaitTime then
        let elapsed' := elapsed + delay polls in
        if 15000 <? elapsed' then Some (S polls, elapsed')
        else waitLoop fuel' delay elapsed' (S polls)
      else Some (polls, elapsed)
  end.

Definition waitForSyncCompletion (fuel : nat) (delay : nat -> Z)
  : option (nat * Z) :=
  waitLoop fuel delay 0 0.

End SyncWait.

(** ** The task list (renderer of the main window) *)
Module TaskList.
Import DragReorder.
Local Open Scope Q_scope.

(** The score fields of a task as the backend sends them; [NaN] also
    stands for a field that is missing or [null]. *)
Record Task := mkTask {
  taskId : string;
  ricu : JsNumber;
  priority_score : JsNumber;
  reach : JsNumber;
  confidence : JsNumber;
  urgency : JsNumber
}.

(** [v || d] for a number [v]. *)
Definition orElse (d : Q) (v : JsNumber) : Q :=
  match v with
  | NaN => d
  | Num q => if Qeq_bool q 0 then d else q
  end.

(** The sort key of [renderTasks]: [(task.ricu || 0)]. *)
Definition sortKey (task : Task) : Q := orElse 0 (ricu task).

(** Insertion into a list in descending key order, before the tasks that
    do not have a greater key. *)
Fixpoint insertTask (task : Task) (sorted : list Task) : list Task :=
  match sorted with
  | [] => [task]
  | other :: rest =>
      if Qle_bool (sortKey other) (sortKey task)
      then task :: other :: rest
      else other :: insertTask task rest
  end.

(** [tasks.sort((a, b) => (b.ricu || 0) - (a.ricu || 0))]: the stable sort
    by descending key, computed by insertion from the right. *)
Definition sortTasks (tasks : list Task) : list Task :=
  foldr insertTask [] tasks.

(** The [data-ricu] attribute written by [createTaskHTML]:
    [Math.min(50, Math.max(0.51, task.ricu || task.priority_score || 1))]. *)
Definition ricuScore (task : Task) : Q :=
  Qmin 50 (Qmax 0.51
             (match ricu task with
              | NaN => orElse 1 (priority_score task)
              | Num q =>
                  if Qeq_bool q 0 then orElse 1 (priority_score task) else q
              end)).

(** The rows [renderTasks] produces: the [data-ricu] attributes of the
    sorted tasks, as [parseFloat] reads them back. *)
Definition renderTasks (tasks : list Task) : list JsNumber :=
  map (fun task => Num (ricuScore task)) (sortTasks tasks).

(** The body of the PATCH request sent by [updateTaskPriority]. *)
Record PriorityUpdate := mkUpdate { impact : Q; newRicuSent : Q }.

(** [(newRicu * urgency) / (reach * confidence)] with each field read as
    [field || 1]. *)
Definition requiredImpact (task : Task) (newRicu : Q) : Q :=
  (newRicu * orOne (urgency task))
  / (orOne (reach task) * orOne (confidence task)).

Inductive Feedback := NoFeedback | SuccessFeedback | ErrorFeedback.

(** [async function updateTaskPriority(taskId, newRicu, taskElement)].
    [apiClient] tells whether the client exists; [getTask] is the task of
    the [getTask] response, [None] when the call or the reading of
    [response.data.task] throws; [updateTask] tells whether the PATCH
    request succeeds; [attribute] is the row's [data-ricu]. The result is
    the request sent, if any, the attribute afterwards and the feedback
    shown. *)
Definition updateTaskPriority (apiClient : bool) (getTask : option Task)
  (updateTask : PriorityUpdate -> bool) (newRicu : Q) (attribute : JsNumber)
  : option PriorityUpdate * JsNumber * Feedback :=
  if negb apiClient then (None, attribute, NoFeedback)
  else
    match getTask with
    | None => (None, attribute, ErrorFeedback)
    | Some currentTask =>
        let newImpact := requiredImpact currentTask newRicu in
        let update := mkUpdate (Qmax 1 (Qmin 10 newImpact)) newRicu in
        if updateTask update
        then (Some update, Num newRicu, SuccessFeedback)
        else (Some update, attribute, ErrorFeedback)
    end.

End TaskList.

(** ** The login flow of the authentication service

    [login()], the five-minute timeout of [startAuthMonitoring()], the
    deep-link handlers and [fetchUserData()]. The service state of [Auth]
    is extended by the timeout handle of the service object and the
    timeouts that are pending in the renderer. *)
Module AuthFlow.
Import Auth.
Local Open Scope string_scope.
Local Open Scope list_scope.
Local Open Scope Z_scope.

(** The [authData] object of the [auth-completed] message; [userData] is
    an object or [null]. *)
Record AuthData (User : Type) := mkAuthData {
  accessToken : option string;
  refreshToken : option string;
  userData : option User
}.
Arguments mkAuthData {User} accessToken refreshToken userData.
Arguments accessToken {User} a.
Arguments refreshToken {User} a.
Arguments userData {User} a.

Definition baseUrl : string := "https://primitiv.tools".

Section Flow.
Context {User : Type}.
(** [JSON.stringify] of a user object. *)
Variable JSON_stringify : User -> string.
(** [data.user] of a response body, read where [data_user] holds. *)
Variable data_userObject : Data -> User.
Variable server : nat -> Request -> FetchResult.

(** The service object in its renderer: [authTimeout] is the handle the
    service keeps ([None] for [null] and [undefined]), [timeouts] the
    handles of the timeouts that are pending, oldest first, [nextTimeout]
    the handle [setTimeout] returns next. [this.authInterval] is assigned
    nowhere but to [null], so the branches guarded by it never run. *)
Record Session := mkSession {
  service : Service User;
  authTimeout : option nat;
  timeouts : list nat;
  nextTimeout : nat;
  currentLoginUrl : option string;
  (** the URLs handed to [shell.openExternal], oldest first *)
  opened : list string
}.

Definition F (A : Type) : Type := Session -> A * Session.

Definition retF {A} (a : A) : F A := fun ss => (a, ss).

Definition bindF {A B} (m : F A) (k : A -> F B) : F B :=
  fun ss => let '(a, ss') := m ss in k a ss'.

Notation "'do' x <- m ; k" := (bindF m (fun x => k))
  (at level 10, x name, m at level 100, k at level 200).
Notation "m ;; k" := (bindF m (fun _ => k))
  (at level 100, k at level 200, right associativity).

(** A method of [Auth] run on the service of the session. *)
Definition onService {A} (m : M (User := User) A) : F A :=
  fun ss =>
    let '(a, s') := m (service ss) in
    (a, mkSession s' (authTimeout ss) (timeouts ss) (nextTimeout ss)
          (currentLoginUrl ss) (opened ss)).

(** A session of a freshly constructed service; the handles of
    [setTimeout] are positive. *)
Definition started (storage : gmap string string) : Session :=
  mkSession (constructed storage) None [] 1 None [].

(** [updateUserData(userData)]. *)
Definition updateUserData (userData : option User) : F unit :=
  onService (setUser userData);;
  onService (setItem USER_DATA
               (match userData with
                | Some u => JSON_stringify u
                | None => "null"
                end));;
  onService notifyListeners.

(** [startAuthMonitoring()]. *)
Definition startAuthMonitoring : F unit :=
  fun ss =>
    (tt, mkSession (service ss) (Some (nextTimeout ss))
           (timeouts ss ++ [nextTimeout ss]) (S (nextTimeout ss))
           (currentLoginUrl ss) (opened ss)).

(** The callback of the timeout with handle [id], run by the event loop
    five minutes after it was set unless it was cleared. *)
Definition authTimeoutFires (id : nat) : F unit :=
  fun ss =>
    if bool_decide (id ∈ timeouts ss) then
      (do st <- onService getAuthState;
       if String.eqb st "authenticating" then
         onService (setAuthState "unauthenticated");;
         onService notifyListeners
       else retF tt)
        (mkSession (service ss) (authTimeout ss)
           (filter (fun t => t <> id) (timeouts ss)) (nextTimeout ss)
           (currentLoginUrl ss) (opened ss))
    else (tt, ss).

(** [stopAuthMonitoring()]. *)
Definition stopAuthMonitoring : F unit :=
  fun ss =>
    match authTimeout ss with
    | Some id =>
        if (0 <? id)%nat then
          (tt, mkSession (service ss) None
                 (filter (fun t => t <> id) (timeouts ss)) (nextTimeout ss)
                 (currentLoginUrl ss) (opened ss))
        else (tt, ss)
    | None => (tt, ss)
    end.

(** [login()]; [electron] says whether [require] is defined. A rejection
    of [shell.openExternal] is caught and changes nothing. *)
Definition login (electron : bool) : F bool :=
  onService (setAuthState "authenticating");;
  onService notifyListeners;;
  let loginUrl := baseUrl +:+ "/login?source=desktop" in
  (fun ss =>
     (tt, mkSession (service ss) (authTimeout ss) (timeouts ss)
            (nextTimeout ss) (Some loginUrl)
            (if electron then opened ss ++ [loginUrl] else opened ss)));;
  startAuthMonitoring;;
  retF true.

(** [handleDeepLinkError(error)]. *)
Definition handleDeepLinkError : F unit :=
  onService (setAuthState "unauthenticated");;
  onService notifyListeners.

(** [fetchUserData()]. *)
Definition fetchUserData : F bool :=
  do token <- onService (getAccessToken server);
  if negb (truthy token) then retF false
  else
    do result <- onService (fetch server (GET_auth_status (stored token)));
    match result with
    | Rejects => retF false
    | Resolves response =>
        if ok response then
          match body response with
          | Unreadable => retF false
          | Readable data =>
              if bool_decide (data_status data = Some "success")
                 && data_user data
              then
                updateUserData (Some (data_userObject data));;
                onService (setAuthState "authenticated");;
                onService notifyListeners;;
                stopAuthMonitoring;;
                retF true
              else retF false
          end
        else retF false
    end.

(** [handleDeepLinkAuth(authData)]. *)
Definition handleDeepLinkAuth (authData : AuthData User) : F bool :=
  if truthy (accessToken authData) && truthy (refreshToken authData) then
    onService (storeTokens (accessToken authData) (refreshToken authData));;
    (if bool_decide (is_Some (userData authData))
     then updateUserData (userData authData)
     else do _ <- fetchUserData; retF tt);;
    onService (setAuthState "authenticated");;
    onService notifyListeners;;
    stopAuthMonitoring;;
    retF true
  else
    (* the catch block *)
    onService (setAuthState "unauthenticated");;
    onService notifyListeners;;
    retF false.

End Flow.

Arguments Session User : clear implicits.

End AuthFlow.

(** ** Deep links in the main process ([handleDeepLink]) *)
Module DeepLink.
Import Auth AuthFlow.
Local Open Scope string_scope.
Local Open Scope list_scope.

(** What the handler reads of [new URL(url)]; [searchParams] lists the
    pairs of the query in their order. *)
Record URL := mkURL {
  hostname : string;
  pathname : string;
  searchParams : list (string * string)
}.

(** [searchParams.get(name)]: the first value of that name, or [null]. *)
Fixpoint get (name : string) (params : list (string * string))
  : option string :=
  match params with
  | [] => None
  | (key, value) :: rest =>
      if String.eqb key name then Some value else get name rest
  end.

Inductive Message (User : Type) :=
| auth_completed (authData : AuthData User)
| auth_error (error : option string).
Arguments auth_completed {User} authData.
Arguments auth_error {User} error.

(** What the handler does to the main window. *)
Inductive Action (User : Type) :=
| restore
| focus
| send (message : Message User).
Arguments restore {User}.
Arguments focus {User}.
Arguments send {User} message.

Section Main.
Context {User : Type}.
(** [new URL(url)], [None] when it throws. *)
Variable newURL : string -> option URL.
(** [decodeURIComponent(text)], [None] when it throws. *)
Variable decodeURIComponent : string -> option string.
Variable JSON_parse : string -> Parsed User.

(** [handleDeepLink(commandLine)]; [mainWindow] is [None] when there is
    no main window and says otherwise whether it is minimized. *)
Definition handleDeepLink (mainWindow : option bool)
  (commandLine : list string) : list (Action User) :=
  match List.find (String.prefix "primitiv-desktop://") commandLine with
  | None => []
  | Some url =>
      match newURL url with
      | None => []
      | Some urlObj =>
          let isAuthSuccess :=
            String.eqb (hostname urlObj) "auth-success"
            || String.eqb (pathname urlObj) "/auth-success"
            || String.eqb (pathname urlObj) "/auth-success/" in
          if isAuthSuccess then
            let accessToken := get "access_token" (searchParams urlObj) in
            let refreshToken := get "refresh_token" (searchParams urlObj) in
            let userData := get "user_data" (searchParams urlObj) in
            if truthy accessToken && truthy refreshToken then
              match mainWindow with
              | Some minimized =>
                  (if minimized then [restore] else []) ++ focus ::
                  (if truthy userData then
                     match decodeURIComponent (stored userData) with
                     | None => []
                     | Some text =>
                         match JSON_parse text with
                         | SyntaxError => []
                         | Falsy =>
                             [send (auth_completed
                                      (mkAuthData accessToken refreshToken
                                         None))]
                         | Object u =>
                             [send (auth_completed
                                      (mkAuthData accessToken refreshToken
                                         (Some u)))]
                         end
                     end
                   else
                     [send (auth_completed
                              (mkAuthData accessToken refreshToken None))])
              | None => []
              end
            else []
          else if String.eqb (pathname urlObj) "/auth-error" then
            match mainWindow with
            | Some _ => [send (auth_error (get "error" (searchParams urlObj)))]
            | None => []
            end
          else []
      end
  end.

End Main.

(** A deep link as the login page opens it, and its parsed form. *)
Definition sampleDeepLink : string :=
  "primitiv-desktop://auth-success?access_token=a1&refresh_token=r1".

Definition sampleNewURL (url : string) : option URL :=
  if String.eqb url sampleDeepLink
  then Some (mkURL "auth-success" ""
               [("access_token", "a1"); ("refresh_token", "r1")])
  else None.

(** The server refuses every request. *)
Definition refusingServer (n : nat) (request : Request) : FetchResult :=
  Resolves (mkResponse 401 Unreadable).

End DeepLink.

(** ** The API client on top of the authentication service

    The renderer constructs [DesktopApiClient] with the authentication
    service; [makeRequest] awaits its [getAccessToken()] before it builds
    the request. *)
Module ApiSession.
Local Open Scope string_scope.

Section Session.
Context {User : Type}.
(** The answers to the requests of the authentication service. *)
Variable server : nat -> Auth.Request -> Auth.FetchResult.
(** The answer to the API request. *)
Variable fetch : ApiClient.Request -> ApiClient.FetchResult.

(** [apiClient.makeRequest(endpoint, options)] with
    [apiClient = new DesktopApiClient(authService)]. *)
Definition makeRequest (endpoint : string) (options : ApiClient.Options)
  : Auth.Service User ->
    ApiClient.Completion ApiClient.ApiResult * list ApiClient.Request
    * Auth.Service User :=
  fun s =>
    let '(accessToken, s') := Auth.getAccessToken server s in
    (ApiClient.makeRequest accessToken fetch endpoint options, s').

End Session.

End ApiSession.

(** ** Drag-and-drop scores on binary64

    The score arithmetic of [handleMouseUp] once more, on IEEE 754 binary64
    numbers with the rounding of every operation, to compare the exact
    arithmetic of [DragReorder] with what the engine computes. *)
Module DragReorder64.
Local Open Scope Z_scope.

Definition double : Type := SpecFloat.spec_float.
Definition prec : Z := 53.
Definition emax : Z := 1024.

(** The double of an integer. *)
Definition ofZ (n : Z) : double := SpecFloat.binary_normalize prec emax n 0 false.

Definition add : double -> double -> double := SpecFloat.SFadd prec emax.
Definition sub : double -> double -> double := SpecFloat.SFsub prec emax.
Definition mul : double -> double -> double := SpecFloat.SFmul prec emax.
Definition div : double -> double -> double := SpecFloat.SFdiv prec emax.

(** The double nearest to [k / 100]: what a literal such as [0.51] denotes
    and what [parseFloat] returns for a decimal notation of [k / 100]. *)
Definition hundredths (k : Z) : double := div (ofZ k) (ofZ 100).

(** The literal [0.5]. *)
Definition half : double := div (ofZ 1) (ofZ 2).

(** [parseFloat(...) || 1]: [NaN] and both zeros are falsy. *)
Definition orOne (v : double) : double :=
  match v with
  | SpecFloat.S754_nan | SpecFloat.S754_zero _ => ofZ 1
  | _ => v
  end.

(** [Math.min(a, b)]: [NaN] if either is, and [-0] below [+0]. *)
Definition Math_min (a b : double) : double :=
  match SpecFloat.SFcompare a b with
  | None => SpecFloat.S754_nan
  | Some Lt => a
  | Some Gt => b
  | Some Eq => match b with SpecFloat.S754_zero true => b | _ => a end
  end.

(** [Math.max(a, b)]. *)
Definition Math_max (a b : double) : double :=
  match SpecFloat.SFcompare a b with
  | None => SpecFloat.S754_nan
  | Some Gt => a
  | Some Lt => b
  | Some Eq => match b with SpecFloat.S754_zero false => b | _ => a end
  end.

(** [Math.round(x)]: the integer nearest to the exact value of [x], halves
    rounded up, with the sign of [x] when it is zero; a double with a
    non-negative exponent is an integer already. *)
Definition Math_round (x : double) : double :=
  match x with
  | SpecFloat.S754_finite s m e =>
      if 0 <=? e then x
      else
        let signed := if s then Zneg m else Zpos m in
        SpecFloat.binary_normalize prec emax
          ((2 * signed + 2 ^ (- e)) / 2 ^ (1 - e)) 0 s
  | _ => x
  end.

(** [Math.round(newRicu * 100) / 100]. *)
Definition round2 (newRicu : double) : double :=
  div (Math_round (mul newRicu (ofZ 100))) (ofZ 100).

(** [Math.min(50, Math.max(0.51, newRicu))]. *)
Definition clampRicu (newRicu : double) : double :=
  Math_min (ofZ 50) (Math_max (hundredths 51) newRicu).

(** [taskRows[i]]. *)
Definition rowAt (taskRows : list double) (i : Z) : option double :=
  if (i <? 0)%Z then None else taskRows !! Z.to_nat i.

Definition neighbourRicu (taskRows : list double) (draggedRicu : double)
  (newIndex : Z) : option double :=
  let len := Z.of_nat (length taskRows) in
  if (len =? 1)%Z then
    Some (orOne draggedRicu)
  else if (newIndex =? 0)%Z then
    nextTask ← rowAt taskRows 1;
    Some (Math_min (ofZ 50) (add (orOne nextTask) half))
  else if (newIndex =? len - 1)%Z then
    prevTask ← rowAt taskRows (newIndex - 1);
    Some (Math_max (hundredths 51) (sub (orOne prevTask) half))
  else
    prevTask ← rowAt taskRows (newIndex - 1);
    nextTask ← rowAt taskRows (newIndex + 1);
    Some (div (add (orOne prevTask) (orOne nextTask)) (ofZ 2)).

Inductive DropOutcome :=
| NoChange
| TypeError
| NewRicu (newRicu : double).

(** The score part of [handleMouseUp], as in [DragReorder]. *)
Definition handleMouseUp (taskRows : list double) (draggedRicu : double)
  (originalIndex newIndex : Z) : DropOutcome :=
  if (newIndex =? originalIndex)%Z then NoChange
  else match neighbourRicu taskRows draggedRicu newIndex with
       | None => TypeError
       | Some newRicu => NewRicu (round2 (clampRicu newRicu))
       end.

(** Two doubles are the same number, bit for bit. *)
Definition sameDouble (a b : double) : bool :=
  match a, b with
  | SpecFloat.S754_zero s, SpecFloat.S754_zero s' => Bool.eqb s s'
  | SpecFloat.S754_infinity s, SpecFloat.S754_infinity s' => Bool.eqb s s'
  | SpecFloat.S754_nan, SpecFloat.S754_nan => true
  | SpecFloat.S754_finite s m e, SpecFloat.S754_finite s' m' e' =>
      Bool.eqb s s' && Pos.eqb m m' && Z.eqb e e'
  | _, _ => false
  end.

(** The whole hundredths from 0.01 to 50.50. *)
Definition scoreGrid : list Z := map Z.of_nat (seq 1 (Z.to_nat 5050)).

End DragReorder64.

(** * Properties *)

Module GeometryProps.
Import Geometry.
Local Open Scope Z_scope.

Lemma constrain_lower margin limit v : margin <= constrain margin limit v.
Proof. unfold constrain. lia. Qed.

Lemma constrain_upper margin limit v :
  margin <= limit -> constrain margin limit v <= limit.
Proof. unfold constrain. lia. Qed.

Lemma constrain_idem margin limit v :
  constrain margin limit (constrain margin limit v) = constrain margin limit v.
Proof. unfold constrain. lia. Qed.

Lemma ensureInBounds_size margin scr w :
  width (ensureInBounds margin scr w) = width w /\
  height (ensureInBounds margin scr w) = height w.
Proof.
  unfold ensureInBounds.
  repeat match goal with |- context [if ?b then _ else _] => destruct b end;
    simpl; auto.
Qed.

(** On a work area that leaves room for the margins the adjustment is a
    projection, in each coordinate. *)
Lemma ensureInBounds_fits margin scr w :
  width w + 2 * margin <= screenWidth scr ->
  height w + 2 * margin <= screenHeight scr ->
  let w' := ensureInBounds margin scr w in
  margin <= x w' /\ x w' + width w' <= screenWidth scr - margin /\
  margin <= y w' /\ y w' + height w' <= screenHeight scr - margin.
Proof.
  intros Hw Hh. unfold ensureInBounds.
  destruct (x w <? margin) eqn:Ex;
    destruct (screenWidth scr - margin <? x w + width w) eqn:Ex';
    destruct (y w <? margin) eqn:Ey;
    destruct (screenHeight scr - margin <? y w + height w) eqn:Ey';
    simpl; lia.
Qed.

Lemma ensureInBounds_fixpoint margin scr w :
  margin <= x w -> x w + width w <= screenWidth scr - margin ->
  margin <= y w -> y w + height w <= screenHeight scr - margin ->
  ensureInBounds margin scr w = w.
Proof.
  intros. unfold ensureInBounds.
  destruct (x w <? margin) eqn:Ex; [lia|].
  destruct (screenWidth scr - margin <? x w + width w) eqn:Ex'; [lia|].
  destruct (y w <? margin) eqn:Ey; [lia|].
  destruct (screenHeight scr - margin <? y w + height w) eqn:Ey'; [lia|].
  reflexivity.
Qed.

(** C7, as stated, fails on [ensureWidgetInBounds]: on a work area 60
    pixels wide, a 54 pixel wide widget at x = 0 is first moved to x = 8
    and by the second application to x = -2, although 54 < 60 and
    110 < 200. *)
Lemma ensureWidgetInBounds_not_idempotent :
  let scr := mkArea 60 200 in
  let r := mkRect 0 20 54 110 in
  width r < screenWidth scr /\ height r < screenHeight scr /\
  ensureWidgetInBounds scr (Some r) = Some (mkRect 8 20 54 110) /\
  ensureWidgetInBounds scr (ensureWidgetInBounds scr (Some r))
    = Some (mkRect (-2) 20 54 110) /\
  ensureWidgetInBounds scr (ensureWidgetInBounds scr (Some r))
    <> ensureWidgetInBounds scr (Some r).
Proof. vm_compute. repeat split; congruence. Qed.

(** C7 (amended): for every margin, work area and rect with
    width + 2 * margin <= screenWidth and height + 2 * margin <=
    screenHeight, applying the bounds adjustment of [ensureWidgetInBounds]
    twice gives the same rect as applying it once. *)
Theorem ensureInBounds_idempotent margin scr w :
  width w + 2 * margin <= screenWidth scr ->
  height w + 2 * margin <= screenHeight scr ->
  ensureInBounds margin scr (ensureInBounds margin scr w)
    = ensureInBounds margin scr w.
Proof.
  intros Hw Hh.
  pose proof (ensureInBounds_fits margin scr w Hw Hh) as (Hx & Hx' & Hy & Hy').
  apply ensureInBounds_fixpoint; assumption.
Qed.

Lemma ensureInBounds_idempotent_witness :
  let scr := mkArea 1440 900 in
  let w := mkRect 1500 (-40) 54 110 in
  ensureInBounds 8 scr w = mkRect 1378 8 54 110 /\
  ensureInBounds 8 scr (ensureInBounds 8 scr w) = ensureInBounds 8 scr w.
Proof.
  split; [reflexivity|].
  apply (ensureInBounds_idempotent 8 (mkArea 1440 900)
           (mkRect 1500 (-40) 54 110)); simpl; lia.
Defined.

(** The [move-widget] handler with a zero delta is idempotent on every
    work area. *)
Lemma moveWidget_zero_idempotent scr w :
  moveWidget scr 0 0 (moveWidget scr 0 0 w) = moveWidget scr 0 0 w.
Proof.
  unfold moveWidget, setPosition. cbv zeta.
  rewrite !Z.add_0_r.
  destruct (negb (constrain 8 (screenWidth scr - width w - 8) (x w) =? x w)
            || negb (constrain 8 (screenHeight scr - height w - 8) (y w)
                     =? y w)) eqn:E; simpl.
  - rewrite !constrain_idem, !Z.eqb_refl. reflexivity.
  - rewrite E. reflexivity.
Qed.

(** The final clamp keeps the panel at least [gap] from the left and top
    edges, whatever the sizes. *)
Lemma placePanel_lower gap scr mw mh pos rect :
  gap <= px (placePanel gap scr mw mh pos rect) /\
  gap <= py (placePanel gap scr mw mh pos rect).
Proof.
  unfold placePanel.
  repeat match goal with |- context [if ?b then _ else _] => destruct b end;
    simpl; split; apply constrain_lower.
Qed.

(** C4, as stated, fails: on an 800 x 480 work area the default 698 x 500
    panel is placed at y = 12 and its bottom edge, 512, exceeds
    480 - 12. *)
Lemma calculateMainWindowPosition_bottom_exceeds :
  let scr := mkArea 800 480 in
  let p := calculateMainWindowPosition scr None (726, 185)
             (mkWidgetRect 0 0 54 110) in
  px p = 16 /\ py p = 12 /\
  ~ (py p + 500 <= screenHeight scr - 12).
Proof.
  cbv zeta. split; [reflexivity|]. split; [reflexivity|].
  intros H. vm_compute in H. apply H. reflexivity.
Qed.

(** C4 (amended): for every anchor position, gap, work area and panel size
    with panelWidth + 2 * gap <= screenWidth and panelHeight + 2 * gap <=
    screenHeight, the placement has its right edge at most
    screenWidth - gap and its bottom edge at most screenHeight - gap (and
    its left and top at least gap), because every branch ends in the clamp
    of (x, y). *)
Theorem placePanel_within_screen gap scr mw mh pos rect :
  mw + 2 * gap <= screenWidth scr ->
  mh + 2 * gap <= screenHeight scr ->
  let p := placePanel gap scr mw mh pos rect in
  px p + mw <= screenWidth scr - gap /\
  py p + mh <= screenHeight scr - gap /\
  gap <= px p /\ gap <= py p.
Proof.
  intros Hw Hh p.
  destruct (placePanel_lower gap scr mw mh pos rect) as [Lx Ly].
  assert (Ux : px p <= screenWidth scr - mw - gap).
  { subst p. unfold placePanel.
    repeat match goal with |- context [if ?b then _ else _] => destruct b end;
      simpl; apply constrain_upper; lia. }
  assert (Uy : py p <= screenHeight scr - mh - gap).
  { subst p. unfold placePanel.
    repeat match goal with |- context [if ?b then _ else _] => destruct b end;
      simpl; apply constrain_upper; lia. }
  subst p. lia.
Qed.

Lemma placePanel_within_screen_witness :
  let scr := mkArea 1440 900 in
  let p := placePanel 12 scr 698 500 (1378, 880) (mkWidgetRect 0 0 54 110) in
  p = mkPlacement 668 388 position_left /\
  px p + 698 <= 1428 /\ py p + 500 <= 888 /\ 12 <= px p /\ 12 <= py p.
Proof.
  split; [reflexivity|].
  apply (placePanel_within_screen 12 (mkArea 1440 900) 698 500 (1378, 880)
           (mkWidgetRect 0 0 54 110)); simpl; lia.
Defined.

End GeometryProps.

Module DragReorderProps.
Import DragReorder.
Local Open Scope Q_scope.

Lemma clampRicu_bounds v : 0.51 <= clampRicu v <= 50.
Proof.
  unfold clampRicu. split.
  - apply Q.min_glb; [lra | apply Q.le_max_l].
  - apply Q.le_min_l.
Qed.

Lemma Math_round_lower (k : Z) v : inject_Z k <= v -> (k <= Math_round v)%Z.
Proof.
  intros H. unfold Math_round.
  rewrite <- (Qfloor_Z k). apply Qfloor_resp_le. lra.
Qed.

Lemma Math_round_upper (k : Z) v : v <= inject_Z k -> (Math_round v <= k)%Z.
Proof.
  intros H. unfold Math_round.
  assert (L : inject_Z (Qfloor (v + (1 # 2))) <= v + (1 # 2))
    by apply Qfloor_le.
  assert (L' : inject_Z (Qfloor (v + (1 # 2))) < inject_Z (k + 1)).
  { rewrite inject_Z_plus. change (inject_Z 1) with 1. lra. }
  rewrite <- Zlt_Qlt in L'. lia.
Qed.

Lemma Math_round_integer (k : Z) v : v == inject_Z k -> Math_round v = k.
Proof.
  intros H. apply Z.le_antisymm.
  - apply Math_round_upper. lra.
  - apply Math_round_lower. lra.
Qed.

Lemma hundredths_le (a b : Z) :
  (a <= b)%Z -> inject_Z a / 100 <= inject_Z b / 100.
Proof.
  intros H. rewrite Zle_Qle in H.
  unfold Qdiv. apply Qmult_le_compat_r; [exact H | easy].
Qed.

(** Rounding a clamped score keeps it between 0.51 and 50, on the grid of
    hundredths. *)
Lemma round2_clampRicu_bounds v :
  0.51 <= round2 (clampRicu v) <= 50 /\
  exists k : Z, round2 (clampRicu v) == inject_Z k / 100.
Proof.
  destruct (clampRicu_bounds v) as [L U].
  assert (L' : (51 <= Math_round (clampRicu v * 100))%Z).
  { apply Math_round_lower. change (inject_Z 51) with 51. lra. }
  assert (U' : (Math_round (clampRicu v * 100) <= 5000)%Z).
  { apply Math_round_upper. change (inject_Z 5000) with 5000. lra. }
  unfold round2. split; [split|].
  - apply hundredths_le in L'. eapply Qle_trans; [|exact L']. easy.
  - apply hundredths_le in U'. eapply Qle_trans; [exact U'|]. easy.
  - eexists. reflexivity.
Qed.

(** A score that already is a whole number of hundredths is left alone. *)
Lemma round2_hundredths (k : Z) v : v == inject_Z k / 100 -> round2 v == v.
Proof.
  intros H. unfold round2.
  rewrite (Math_round_integer k).
  - symmetry. exact H.
  - rewrite H. field.
Qed.

Lemma round2_comp a b : a == b -> round2 a == round2 b.
Proof.
  intros H. unfold round2, Math_round.
  rewrite (Qfloor_comp (a * 100 + (1 # 2)) (b * 100 + (1 # 2))).
  - reflexivity.
  - rewrite H. reflexivity.
Qed.

(** Rounding to 2 decimal places moves a score by half a hundredth at
    most. *)
Lemma round2_near v : v - 0.005 < round2 v /\ round2 v <= v + 0.005.
Proof.
  unfold round2, Math_round.
  pose proof (Qfloor_le (v * 100 + (1 # 2))) as L.
  pose proof (Qlt_floor (v * 100 + (1 # 2))) as U.
  rewrite inject_Z_plus in U. change (inject_Z 1) with 1 in U.
  set (n := inject_Z (Qfloor (v * 100 + (1 # 2)))) in *.
  split.
  - apply Qlt_shift_div_l; lra.
  - apply Qle_shift_div_r; lra.
Qed.

Lemma rowAt_in_range taskRows (i : Z) :
  (0 <= i < Z.of_nat (length taskRows))%Z -> is_Some (rowAt taskRows i).
Proof.
  intros H. unfold rowAt.
  destruct (i <? 0)%Z eqn:E; [lia|].
  apply lookup_lt_is_Some. lia.
Qed.

Lemma neighbourRicu_in_range taskRows dragged (newIndex : Z) :
  (0 <= newIndex < Z.of_nat (length taskRows))%Z ->
  is_Some (neighbourRicu taskRows dragged newIndex).
Proof.
  intros H. unfold neighbourRicu.
  destruct (Z.of_nat (length taskRows) =? 1)%Z eqn:E1; [eauto|].
  destruct (newIndex =? 0)%Z eqn:E2.
  { destruct (rowAt_in_range taskRows 1) as [v ->]; [lia|]. simpl. eauto. }
  destruct (newIndex =? Z.of_nat (length taskRows) - 1)%Z eqn:E3.
  { destruct (rowAt_in_range taskRows (newIndex - 1)) as [v ->]; [lia|].
    simpl. eauto. }
  destruct (rowAt_in_range taskRows (newIndex - 1)) as [v ->]; [lia|].
  destruct (rowAt_in_range taskRows (newIndex + 1)) as [v' ->]; [lia|].
  simpl. eauto.
Qed.

(** C3: for every drag-reorder in a list of n >= 2 rows, to an index
    inside the list and different from the original one, with the
    neighbours' scores numbers in [0.51, 50], the score handed to
    [updateTaskPriority] lies in [0.51, 50] and is a whole number of
    hundredths (rounded to 2 decimal places). *)
Theorem drag_score_within_bounds taskRows draggedRicu originalIndex newIndex :
  (2 <= length taskRows)%nat ->
  (0 <= newIndex < Z.of_nat (length taskRows))%Z ->
  newIndex <> originalIndex ->
  (forall j v, (j = newIndex - 1 \/ j = newIndex + 1)%Z ->
     rowAt taskRows j = Some v -> exists q, v = Num q /\ 0.51 <= q <= 50) ->
  exists newRicu,
    handleMouseUp taskRows draggedRicu originalIndex newIndex
      = NewRicu newRicu /\
    0.51 <= newRicu <= 50 /\
    exists k : Z, newRicu == inject_Z k / 100.
Proof.
  intros Hn Hi Hne _. unfold handleMouseUp.
  destruct (newIndex =? originalIndex)%Z eqn:E; [lia|].
  destruct (neighbourRicu_in_range taskRows draggedRicu newIndex Hi)
    as [raw ->].
  exists (round2 (clampRicu raw)). split; [reflexivity|].
  apply round2_clampRicu_bounds.
Qed.

Lemma drag_score_within_bounds_witness :
  exists newRicu,
    handleMouseUp [Num 10; Num 2.5; Num 6.125; Num 3] (Num 2.5) 3 1
      = NewRicu newRicu /\
    0.51 <= newRicu <= 50 /\
    exists k : Z, newRicu == inject_Z k / 100.
Proof.
  apply (drag_score_within_bounds [Num 10; Num 2.5; Num 6.125; Num 3]
           (Num 2.5) 3 1).
  - simpl. lia.
  - simpl. lia.
  - lia.
  - intros j v [-> | ->] H; vm_compute in H; inversion H; subst;
      eexists; (split; [reflexivity|]); split; vm_compute; discriminate.
Defined.

(** C5, as stated, fails: with the row below at 6.004 the saved score is
    6.5, not min(50, 6.004 + 0.5) = 6.504. *)
Lemma drag_to_top_rounds_away_from_claim :
  handleMouseUp [Num 2; Num 6.004; Num 3] (Num 2) 2 0 = NewRicu (650 # 100)
  /\ ~ (650 # 100 == Qmin 50 (6.004 + 0.5)).
Proof. split; [reflexivity | vm_compute; discriminate]. Qed.

(** C5 (amended): for every task dragged to index 0 of a list of n >= 2
    rows, the new score is a whole number of hundredths within 0.006 of
    min(50, r + 0.5) clamped to [0.51, 50], where r is the parsed score of
    the row below (1 when it is 0 or not a number): the nearest hundredth,
    either of the two when the value lies about halfway between them; it
    equals min(50, r + 0.5) whenever r is a positive whole number of
    hundredths; and for the rows [10, 6, 2] with the last one dragged to
    the top it is 10.5. *)
Theorem drag_to_top_score taskRows draggedRicu originalIndex :
  (2 <= length taskRows)%nat ->
  originalIndex <> 0%Z ->
  exists below newRicu,
    rowAt taskRows 1 = Some below /\
    handleMouseUp taskRows draggedRicu originalIndex 0 = NewRicu newRicu /\
    (exists n : Z, newRicu == inject_Z n / 100) /\
    clampRicu (Qmin 50 (orOne below + 0.5)) - 0.006 < newRicu /\
    newRicu < clampRicu (Qmin 50 (orOne below + 0.5)) + 0.006 /\
    (forall k : Z, (1 <= k)%Z -> orOne below == inject_Z k / 100 ->
       newRicu == Qmin 50 (orOne below + 0.5)) /\
    exists q,
      handleMouseUp [Num 2; Num 10; Num 6] (Num 2) 2 0 = NewRicu q /\
      q == 10.5.
Proof.
  intros Hn Ho.
  destruct (rowAt_in_range taskRows 1) as [below Hb]; [lia|].
  exists below, (round2 (clampRicu (Qmin 50 (orOne below + 0.5)))).
  split; [exact Hb|]. split; [|split; [|split; [|split; [|split]]]].
  - unfold handleMouseUp, neighbourRicu.
    destruct (0 =? originalIndex)%Z eqn:E; [lia|].
    destruct (Z.of_nat (length taskRows) =? 1)%Z eqn:E1; [lia|].
    simpl. rewrite Hb. reflexivity.
  - apply round2_clampRicu_bounds.
  - pose proof (round2_near (clampRicu (Qmin 50 (orOne below + 0.5)))). lra.
  - pose proof (round2_near (clampRicu (Qmin 50 (orOne below + 0.5)))). lra.
  - intros k Hk Hr.
    assert (Hk' : 1 <= inject_Z k).
    { change 1 with (inject_Z 1). rewrite <- Zle_Qle. exact Hk. }
    assert (Hpos : 0.01 <= orOne below).
    { rewrite Hr. unfold Qdiv.
      apply (Qmult_le_compat_r 1 (inject_Z k) (/ 100)) in Hk'; [|easy].
      eapply Qle_trans; [|exact Hk']. easy. }
    assert (Hc : clampRicu (Qmin 50 (orOne below + 0.5))
                 == Qmin 50 (orOne below + 0.5)).
    { unfold clampRicu.
      rewrite (Q.max_r 0.51).
      - apply Q.min_r. apply Q.le_min_l.
      - apply Q.min_glb; lra. }
    rewrite (round2_comp _ _ Hc).
    destruct (Qlt_le_dec 50 (orOne below + 0.5)) as [Hbig | Hsmall].
    + apply (round2_hundredths 5000).
      eapply Qeq_trans; [apply Q.min_l; lra | reflexivity].
    + apply (round2_hundredths (k + 50)).
      eapply Qeq_trans; [apply Q.min_r; exact Hsmall |].
      rewrite Hr, inject_Z_plus. change (inject_Z 50) with 50. field.
  - eexists. split; [reflexivity | reflexivity].
Qed.

Lemma drag_to_top_score_witness :
  exists below newRicu,
    rowAt [Num 2; Num 10; Num 6] 1 = Some below /\
    handleMouseUp [Num 2; Num 10; Num 6] (Num 2) 2 0 = NewRicu newRicu /\
    (exists n : Z, newRicu == inject_Z n / 100) /\
    clampRicu (Qmin 50 (orOne below + 0.5)) - 0.006 < newRicu /\
    newRicu < clampRicu (Qmin 50 (orOne below + 0.5)) + 0.006 /\
    (forall k : Z, (1 <= k)%Z -> orOne below == inject_Z k / 100 ->
       newRicu == Qmin 50 (orOne below + 0.5)) /\
    exists q,
      handleMouseUp [Num 2; Num 10; Num 6] (Num 2) 2 0 = NewRicu q /\
      q == 10.5.
Proof.
  apply (drag_to_top_score [Num 2; Num 10; Num 6] (Num 2) 2).
  - simpl. lia.
  - lia.
Defined.

End DragReorderProps.

Module SleepTimerProps.
Import SleepTimer.
Local Open Scope Z_scope.

(** C2 at [start-sleep-mode(1, 30)]: after 90 firings of the minute timer
    the countdown shows 0 but the process is still sleeping, with the
    timer live and no ['sleep-mode-ended'] sent; the 91st firing runs
    [wakeUp], which sends one ['sleep-mode-ended'] to each window. *)
Theorem sleep_1_30_after_90_ticks :
  let p90 := minuteTicks 90 0 (startSleepMode 1 30 started) in
  let p91 := minuteTicks 91 0 (startSleepMode 1 30 started) in
  isSleeping p90 = true /\
  intervals p90 !! 0%nat = Some 0 /\
  sleepTimer p90 = Some 0%nat /\
  endedCount ToMainWindow p90 = 0%nat /\
  endedCount ToWidgetWindow p90 = 0%nat /\
  last (sent p90) = Some (ToWidgetWindow, update_sleep_timer 0 0) /\
  isSleeping p91 = false /\
  sleepTimer p91 = None /\
  endedCount ToMainWindow p91 = 1%nat /\
  endedCount ToWidgetWindow p91 = 1%nat.
Proof. vm_compute. repeat split; reflexivity. Qed.

Lemma send_timers t m p :
  isSleeping (send t m p) = isSleeping p /\
  sleepTimer (send t m p) = sleepTimer p /\
  intervals (send t m p) = intervals p.
Proof. unfold send. destruct (alive t p); auto. Qed.

Lemma timer_invariant_send t m p :
  timer_invariant p -> timer_invariant (send t m p).
Proof.
  unfold timer_invariant.
  destruct (send_timers t m p) as (-> & -> & ->). auto.
Qed.

Lemma timer_invariant_wakeUp p : timer_invariant p -> timer_invariant (wakeUp p).
Proof.
  intros [_ H]. unfold wakeUp.
  do 2 apply timer_invariant_send.
  unfold timer_invariant, clearSleepTimer, setSleeping; simpl.
  destruct (sleepTimer p) as [id|] eqn:E; simpl.
  - destruct H as [t ->]. split; [auto|]. apply delete_singleton_eq.
  - rewrite ?E. auto.
Qed.

Lemma timer_invariant_handle e p :
  timer_invariant p -> timer_invariant (handle e p).
Proof.
  intros Inv. destruct e as [hours minutes| |id| | |]; simpl.
  - unfold startSleepMode.
    destruct (isSleeping p) eqn:Es; [exact Inv|].
    unfold sendTimer. do 2 apply timer_invariant_send.
    destruct Inv as [H1 H2]. rewrite (H1 Es) in H2.
    unfold timer_invariant, setInterval; simpl.
    destruct (send_timers ToWidgetWindow main_window_hidden_for_sleep
                (setVisible false (setOpacity 0.7%Q (setSleeping true p))))
      as (-> & _ & ->).
    simpl. split; [discriminate|].
    eexists. rewrite H2. apply insert_empty.
  - apply timer_invariant_wakeUp, Inv.
  - unfold intervalFires.
    destruct (intervals p !! id) as [total|] eqn:El; [|exact Inv].
    destruct (0 <? total); [|apply timer_invariant_wakeUp, Inv].
    unfold sendTimer. do 2 apply timer_invariant_send.
    destruct Inv as [H1 H2].
    unfold timer_invariant, setTotalMinutes; simpl. split; [exact H1|].
    destruct (sleepTimer p) as [id'|].
    + destruct H2 as [t Ht]. rewrite Ht in El |- *.
      apply lookup_singleton_Some in El as [-> _].
      eexists. apply insert_singleton_eq.
    + rewrite H2 in El. rewrite lookup_empty in El. discriminate.
  - apply timer_invariant_send. exact Inv.
  - exact Inv.
  - destruct Inv as [_ H]. unfold exitApp, clearSleepTimer, timer_invariant.
    destruct (sleepTimer p) as [id|] eqn:E; simpl.
    + destruct H as [t ->]. split; [auto|]. apply delete_singleton_eq.
    + rewrite ?E. auto.
Qed.

Lemma reachable_timer_invariant p : reachable p -> timer_invariant p.
Proof.
  induction 1 as [p (Hs & Ht & Hi) | e p _ IH].
  - unfold timer_invariant. rewrite Ht. auto.
  - apply timer_invariant_handle, IH.
Qed.

(** C10: in every reachable state of the main process at most one interval
    timer is live, and while one is live a [start-sleep-mode] request leaves
    the whole state as it is: the remaining minutes, the widget opacity, the
    visibility of the windows, and no message is sent. *)
Theorem start_sleep_mode_while_sleeping p :
  reachable p ->
  (size (intervals p) <= 1)%nat /\
  ((exists id totalMinutes, intervals p !! id = Some totalMinutes) ->
   forall hours minutes, handle (start_sleep_mode hours minutes) p = p).
Proof.
  intros Hr. destruct (reachable_timer_invariant p Hr) as [H1 H2]. split.
  - destruct (sleepTimer p) as [id|].
    + destruct H2 as [t ->]. rewrite map_size_singleton. lia.
    + rewrite H2, map_size_empty. lia.
  - intros (id & t & Hl) hours minutes. simpl. unfold startSleepMode.
    destruct (isSleeping p); [reflexivity|].
    rewrite (H1 eq_refl) in H2. rewrite H2, lookup_empty in Hl.
    discriminate.
Qed.

Lemma start_sleep_mode_while_sleeping_witness :
  let p := minuteTicks 3 0 (handle (start_sleep_mode 1 30) started) in
  intervals p !! 0%nat = Some 87 /\
  (size (intervals p) <= 1)%nat /\
  handle (start_sleep_mode 0 5) p = p.
Proof.
  cbv zeta.
  assert (Hr : reachable
                 (minuteTicks 3 0 (handle (start_sleep_mode 1 30) started))).
  { unfold minuteTicks. simpl Nat.iter.
    do 3 apply (reachable_step (interval_fires 0)).
    apply (reachable_step (start_sleep_mode 1 30)), reachable_initial.
    repeat split; reflexivity. }
  destruct (start_sleep_mode_while_sleeping _ Hr) as [Hsize Hnoop].
  split; [reflexivity|]. split; [exact Hsize|].
  apply Hnoop. exists 0%nat, 87. reflexivity.
Defined.

End SleepTimerProps.

Module SyncTriggerProps.
Import SyncTrigger.
Local Open Scope Z_scope.

Lemma step_within_cooldown now1 e r :
  lastSyncTime r = now1 ->
  callsBefore (now1 + SYNC_COOLDOWN_MS) [e] ->
  lastSyncTime (step r e) = now1 /\ outbound (step r e) = outbound r.
Proof.
  intros Hl Hc. apply Forall_inv in Hc.
  destruct e as [ready now|]; simpl; [|auto].
  unfold triggerSyncOnOpen.
  destruct (negb ready); [simpl; auto|].
  destruct (syncInProgress r); [simpl; auto|].
  destruct (now - lastSyncTime r <? SYNC_COOLDOWN_MS) eqn:E; [simpl; auto|].
  apply Z.ltb_ge in E. lia.
Qed.

Lemma run_within_cooldown now1 es : forall r,
  lastSyncTime r = now1 ->
  callsBefore (now1 + SYNC_COOLDOWN_MS) es ->
  outbound (run es r) = outbound r.
Proof.
  induction es as [|e es IH]; intros r Hl Hc; [reflexivity|].
  apply Forall_cons in Hc as [He Hes].
  destruct (step_within_cooldown now1 e r Hl) as [Hl' Ho'].
  { constructor; [exact He | constructor]. }
  simpl. unfold run in IH. rewrite IH; auto.
Qed.

Lemma triggerSyncOnOpen_lastSyncTime ready now r :
  lastSyncTime r <= now ->
  lastSyncTime (snd (triggerSyncOnOpen ready now r)) <= now.
Proof.
  intros H. unfold triggerSyncOnOpen.
  repeat match goal with |- context [if ?b then _ else _] => destruct b end;
    simpl; lia.
Qed.

(** A call that does not proceed still runs the [finally] block and so
    clears the in-flight flag, also when another cycle is in flight. *)
Lemma suppressed_call_clears_in_flight_flag ready now r :
  fst (triggerSyncOnOpen ready now r) <> Proceeds ->
  syncInProgress (snd (triggerSyncOnOpen ready now r)) = false /\
  lastSyncTime (snd (triggerSyncOnOpen ready now r)) = lastSyncTime r /\
  outbound (snd (triggerSyncOnOpen ready now r)) = outbound r.
Proof.
  unfold triggerSyncOnOpen.
  repeat match goal with |- context [if ?b then _ else _] => destruct b end;
    simpl; intros H; auto; contradiction.
Qed.

(** C9, as stated, fails: after a cycle at time T, a call at T + 4 min is
    suppressed by the cooldown, and the call at T + 6 min, two minutes after
    that one began, proceeds and issues both requests. *)
Lemma call_two_minutes_after_suppressed_call_proceeds :
  let T := 1700000000000 in
  let r0 := settle (snd (triggerSyncOnOpen true T loaded)) in
  let c1 := triggerSyncOnOpen true (T + 240000) r0 in
  let c2 := triggerSyncOnOpen true (T + 360000) (snd c1) in
  fst c1 = InCooldown /\
  (T + 360000) - (T + 240000) < SYNC_COOLDOWN_MS /\
  fst c2 = Proceeds /\
  outbound (snd c2) =
    outbound (snd c1) ++ [triggerAllSourcesSync false;
                          triggerRICURecalculation false].
Proof. vm_compute. repeat split; reflexivity. Qed.

(** C9 (amended): when a sync-trigger call proceeds at time now1, no call
    that begins less than 5 minutes after now1 issues an outbound request,
    whatever calls and completions come in between; and a call made 5
    minutes or more after the previous call, while the client is
    authenticated and no cycle is in flight, proceeds and issues the two
    outbound requests. *)
Theorem sync_cooldown r ready1 now1 :
  (forall r1 es,
     triggerSyncOnOpen ready1 now1 r = (Proceeds, r1) ->
     callsBefore (now1 + SYNC_COOLDOWN_MS) es ->
     outbound (run es r1) = outbound r1) /\
  (forall now2,
     lastSyncTime r <= now1 ->
     now1 + SYNC_COOLDOWN_MS <= now2 ->
     let r1 := settle (snd (triggerSyncOnOpen ready1 now1 r)) in
     triggerSyncOnOpen true now2 r1 =
       (Proceeds,
        mkRenderer now2 true
          (outbound r1 ++ [triggerAllSourcesSync false;
                           triggerRICURecalculation false]))).
Proof.
  split.
  - intros r1 es Hp Hc. apply (run_within_cooldown now1); [|exact Hc].
    unfold triggerSyncOnOpen in Hp.
    repeat match type of Hp with
           | context [if ?b then _ else _] => destruct b
           end; inversion Hp; reflexivity.
  - intros now2 Hm Hn r1.
    pose proof (triggerSyncOnOpen_lastSyncTime ready1 now1 r Hm) as Hl.
    unfold triggerSyncOnOpen at 1. subst r1. simpl.
    destruct (now2 - lastSyncTime (snd (triggerSyncOnOpen ready1 now1 r))
              <? SYNC_COOLDOWN_MS) eqn:E; [|reflexivity].
    apply Z.ltb_lt in E. lia.
Qed.

Lemma sync_cooldown_witness :
  let T := 1700000000000 in
  let r1 := snd (triggerSyncOnOpen true T loaded) in
  outbound (run [call true (T + 1000); settled; call true (T + 299999)] r1)
    = outbound r1 /\
  fst (triggerSyncOnOpen true (T + 300000) (settle r1)) = Proceeds.
Proof.
  cbv zeta.
  destruct (sync_cooldown loaded true 1700000000000) as [Hskip Hgo]. split.
  - apply Hskip.
    + reflexivity.
    + repeat constructor.
  - rewrite Hgo; [reflexivity | simpl; lia | unfold SYNC_COOLDOWN_MS; lia].
Defined.

End SyncTriggerProps.

Module ApiClientProps.
Import ApiClient.
Local Open Scope string_scope.
Local Open Scope Z_scope.

(** A 429 response is answered by a plain [Error] carrying the body text,
    whatever the rest of the response. *)
Lemma handleResponse_429 response :
  status response = 429 ->
  handleResponse response =
    Throws (Error ("Rate limited: " +:+
                   (if nonEmpty (text response) then text response
                    else "Too many requests"))).
Proof. intros H. unfold handleResponse. rewrite H. reflexivity. Qed.

(** C8, as stated, fails: the error raised for a 429 response with body
    "slow down" is a plain [Error]; its name is "Error", not
    "RateLimitError", and it carries no other mark of its kind. *)
Lemma handleResponse_429_is_plain_Error :
  let response :=
    mkResponse 429 "Too Many Requests" (Some "text/plain") "slow down"
      (Malformed "Unexpected token s in JSON at position 0") in
  exists e, handleResponse response = Throws e /\
            name e = "Error" /\ name e <> "RateLimitError".
Proof. eexists. repeat split. discriminate. Qed.

(** C8 (amended): for every response with status 429 and body "slow down"
    the response handler raises a plain [Error] (name "Error") with the
    message "Rate limited: slow down", which contains "slow down"; and
    [makeRequest], given a token and a network that answers so, raises that
    error after handing exactly one request to [fetch]. *)
Theorem handleResponse_rate_limited response :
  status response = 429 ->
  text response = "slow down" ->
  handleResponse response = Throws (Error "Rate limited: slow down") /\
  name (Error "Rate limited: slow down") = "Error" /\
  includes (message (Error "Rate limited: slow down")) "slow down" = true /\
  forall token fetch endpoint options,
    nonEmpty token = true ->
    (forall request, fetch request = Resolves response) ->
    exists request,
      makeRequest (Some token) fetch endpoint options
        = (Throws (Error "Rate limited: slow down"), [request]).
Proof.
  intros Hs Ht.
  assert (Hh : handleResponse response
               = Throws (Error "Rate limited: slow down")).
  { rewrite (handleResponse_429 response Hs), Ht. reflexivity. }
  split; [exact Hh|]. split; [reflexivity|]. split; [reflexivity|].
  intros token fetch endpoint options Htok Hf.
  unfold makeRequest. rewrite Htok. simpl.
  rewrite Hf, Hh. eexists. reflexivity.
Qed.

Lemma handleResponse_rate_limited_witness :
  let response :=
    mkResponse 429 "Too Many Requests" (Some "text/plain") "slow down"
      (Malformed "Unexpected token s in JSON at position 0") in
  handleResponse response = Throws (Error "Rate limited: slow down") /\
  exists request,
    makeRequest (Some "token-1") (fun _ => Resolves response)
      "/api/tasks" (mkOptions None None)
    = (Throws (Error "Rate limited: slow down"), [request]).
Proof.
  cbv zeta.
  destruct (handleResponse_rate_limited
              (mkResponse 429 "Too Many Requests" (Some "text/plain")
                 "slow down"
                 (Malformed "Unexpected token s in JSON at position 0"))
              eq_refl eq_refl) as (Hh & _ & _ & Hm).
  split; [exact Hh|].
  apply Hm; [reflexivity | intros; reflexivity].
Defined.

End ApiClientProps.

Module AuthProps.
Import Auth.
Local Open Scope string_scope.
Local Open Scope list_scope.
Local Open Scope Z_scope.

Ltac distinct_keys :=
  unfold ACCESS_TOKEN, REFRESH_TOKEN, USER_DATA, AUTH_STATE; discriminate.

Section Chain.
Context {User : Type}.
Variable JSON_parse : string -> Parsed User.
Variable server : nat -> Request -> FetchResult.

Implicit Types s : Service User.

Lemma clearAuthData_cleared skip s :
  skip = false ->
  sessionCleared (snd (clearAuthData skip s)) /\
  fetched (snd (clearAuthData skip s)) = fetched s.
Proof.
  intros ->. unfold sessionCleared. cbn.
  repeat split; try reflexivity.
  4: apply lookup_insert_eq.
  all: rewrite lookup_insert_ne by distinct_keys.
  all: rewrite ?lookup_delete_ne by distinct_keys; apply lookup_delete_eq.
Qed.

Lemma refreshAttempts_unfold n s :
  refreshAttempts server n s =
  let caught : M bool :=
    match n with
    | S n' => refreshAttempts server n'
    | O => fun s' => (false, snd (clearAuthData false s'))
    end in
  let refreshToken := localStorage s !! REFRESH_TOKEN in
  let request := POST_auth_refresh (stored refreshToken) in
  if negb (truthy refreshToken) then (false, snd (clearAuthData false s))
  else
    match server (length (fetched s)) request with
    | Rejects => caught (afterFetch request s)
    | Resolves response =>
        if ok response then
          match body response with
          | Unreadable => caught (afterFetch request s)
          | Readable data =>
              (true,
               snd (storeTokens
                      (match data_tokens data with
                       | Some t => access_token t | None => None end)
                      (match data_tokens data with
                       | Some t => refresh_token t | None => None end)
                      (afterFetch request s)))
          end
        else (false, snd (clearAuthData false (afterFetch request s)))
    end.
Proof.
  destruct n; cbn [refreshAttempts].
  all: cbv beta iota zeta delta [bind fetch getItem ret afterFetch].
  all: destruct (negb (truthy (localStorage s !! REFRESH_TOKEN)));
    [destruct (clearAuthData false s) as [[] ?]; reflexivity|].
  all: destruct (server (length (fetched s))
                (POST_auth_refresh (stored (localStorage s !! REFRESH_TOKEN))))
      as [|response];
    [try reflexivity; destruct (clearAuthData false _) as [[] ?]; reflexivity|].
  all: destruct (ok response);
    [|destruct (clearAuthData false _) as [[] ?]; reflexivity].
  all: destruct (body response);
    [try reflexivity; destruct (clearAuthData false _) as [[] ?]; reflexivity|].
  all: destruct (storeTokens _ _ _) as [[] ?]; reflexivity.
Qed.

Lemma storeTokens_stored accessToken refreshToken s :
  fetched (snd (storeTokens accessToken refreshToken s)) = fetched s /\
  localStorage (snd (storeTokens accessToken refreshToken s)) !! ACCESS_TOKEN
    = Some (stored accessToken).
Proof.
  unfold storeTokens. cbv beta iota zeta delta [bind setItem ret].
  destruct (truthy refreshToken); simpl; (split; [reflexivity|]).
  - rewrite lookup_insert_ne by distinct_keys. apply lookup_insert_eq.
  - apply lookup_insert_eq.
Qed.

Lemma refreshThrows_not_refused result :
  refreshThrows result = true -> refreshRefused result = false.
Proof.
  destruct result as [|response]; simpl; [reflexivity|].
  destruct (ok response); [reflexivity | discriminate].
Qed.

(** A chain that failed at once, without sending anything. *)
Lemma refreshChain_nothing_sent limit s s' :
  truthy (localStorage s !! REFRESH_TOKEN) = false ->
  sessionCleared s' -> fetched s' = fetched s ->
  refreshChain server limit s (false, s').
Proof.
  intros Et Hc Hf. exists 0%nat. simpl. rewrite Hf, app_nil_r.
  split; [reflexivity|]. split; [lia|]. split; [intros; lia|].
  split; [intros; lia|]. split; [auto|]. split; [discriminate|].
  split; [rewrite Et; discriminate|]. split; [auto|].
  split; intros; lia.
Qed.

Lemma refreshThrows_not_granted result :
  refreshThrows result = true -> refreshGranted result = None.
Proof.
  destruct result as [|[st [|data]]]; simpl; try reflexivity.
  - destruct (ok _); reflexivity.
  - destruct (ok _); [discriminate | reflexivity].
Qed.

(** A chain that ended with its first attempt. *)
Lemma refreshChain_single limit s b s' :
  let request :=
    POST_auth_refresh (stored (localStorage s !! REFRESH_TOKEN)) in
  let answer := server (length (fetched s)) request in
  truthy (localStorage s !! REFRESH_TOKEN) = true ->
  fetched s' = fetched s ++ [request] ->
  (refreshThrows answer = true -> limit = 0%nat /\ b = false) ->
  (refreshRefused answer = true -> b = false) ->
  (forall data, refreshGranted answer = Some data ->
     b = true /\
     localStorage s' !! ACCESS_TOKEN = Some (stored (newAccessToken data)) /\
     authState s' = authState s /\ user s' = user s) ->
  (b = false -> sessionCleared s') ->
  (b = true -> is_Some (localStorage s' !! ACCESS_TOKEN)) ->
  refreshChain server (S limit) s (b, s').
Proof.
  intros request answer Et Hf Ht Hr Hg Hc Hs. subst request answer.
  exists 1%nat. simpl.
  split; [exact Hf|]. split; [lia|]. split; [intros; lia|].
  split; [|split; [assumption|split; [assumption|]]].
  { intros i Hi Href. assert (i = 0)%nat as -> by lia.
    rewrite Nat.add_0_r in Href. auto. }
  split; [intros _; lia|]. split; [rewrite Et; discriminate|].
  split.
  - intros i Hi. assert (i = 0)%nat as -> by lia.
    rewrite Nat.add_0_r. intros H. destruct (Ht H) as [-> ->]. auto.
  - intros i data Hi. assert (i = 0)%nat as -> by lia.
    rewrite Nat.add_0_r. apply Hg.
Qed.

(** A chain whose first attempt threw and was followed by a chain of its
    own. *)
Lemma refreshChain_retry limit s run :
  let request :=
    POST_auth_refresh (stored (localStorage s !! REFRESH_TOKEN)) in
  truthy (localStorage s !! REFRESH_TOKEN) = true ->
  refreshThrows (server (length (fetched s)) request) = true ->
  refreshChain server limit (afterFetch request s) run ->
  refreshChain server (S limit) s run.
Proof.
  intros request Et Ht
    (attempts & Hf & Hle & Hthrow & Hrefuse & Hc & Hs & Hone & _ & Hlast
     & Hgrant).
  subst request.
  simpl in Hf, Hthrow, Hrefuse, Hone, Hlast, Hgrant.
  rewrite length_app in Hthrow, Hrefuse, Hlast, Hgrant.
  simpl in Hthrow, Hrefuse, Hlast, Hgrant.
  specialize (Hone Et).
  assert (Hshift : forall i,
            (length (fetched s) + S i)%nat
            = (length (fetched s) + 1 + i)%nat) by (intros; lia).
  exists (S attempts).
  split; [rewrite Hf, <- app_assoc; reflexivity|].
  split; [lia|]. split; [|split; [|split; [exact Hc|split; [exact Hs|]]]].
  - intros [|i] Hi.
    + rewrite Nat.add_0_r. exact Ht.
    + rewrite Hshift. apply Hthrow. lia.
  - intros [|i] Hi Href.
    + rewrite Nat.add_0_r in Href.
      rewrite (refreshThrows_not_refused _ Ht) in Href. discriminate.
    + rewrite Hshift in Href.
      destruct (Hrefuse i) as [-> Hb]; [lia | exact Href |]. auto.
  - split; [intros _; lia|]. split; [rewrite Et; discriminate|]. split.
    + intros [|i] Hi; [lia|]. rewrite Hshift. intros H.
      destruct (Hlast i) as [-> Hb]; [lia | exact H |]. auto.
    + intros [|i] data Hi; [lia|]. rewrite Hshift. intros H.
      apply (Hgrant i data); [lia | exact H].
Qed.

(** One attempt, whatever the [catch] block goes on to do. *)
Lemma refreshAttempt_chain limit s (caught : @M User bool) :
  let refreshToken := localStorage s !! REFRESH_TOKEN in
  let request := POST_auth_refresh (stored refreshToken) in
  (truthy refreshToken = true ->
   refreshThrows (server (length (fetched s)) request) = true ->
   refreshChain server (S limit) s (caught (afterFetch request s))) ->
  refreshChain server (S limit) s
    (if negb (truthy refreshToken) then (false, snd (clearAuthData false s))
     else
       match server (length (fetched s)) request with
       | Rejects => caught (afterFetch request s)
       | Resolves response =>
           if ok response then
             match body response with
             | Unreadable => caught (afterFetch request s)
             | Readable data =>
                 (true,
                  snd (storeTokens
                         (match data_tokens data with
                          | Some t => access_token t | None => None end)
                         (match data_tokens data with
                          | Some t => refresh_token t | None => None end)
                         (afterFetch request s)))
             end
           else (false, snd (clearAuthData false (afterFetch request s)))
       end).
Proof.
  intros refreshToken request Hcaught. subst refreshToken request.
  destruct (bool_dec (truthy (localStorage s !! REFRESH_TOKEN)) true)
    as [Et|Et].
  2: { apply not_true_is_false in Et. rewrite Et. cbn [negb].
       apply refreshChain_nothing_sent;
         [exact Et | apply (clearAuthData_cleared false s eq_refl) ..]. }
  specialize (Hcaught Et). rewrite Et. cbn [negb].
  destruct (server (length (fetched s))
              (POST_auth_refresh (stored (localStorage s !! REFRESH_TOKEN))))
    as [|response] eqn:Ea.
  { apply Hcaught. reflexivity. }
  destruct (ok response) eqn:Eok.
  - destruct (body response) as [|data] eqn:Eb.
    { apply Hcaught. simpl. rewrite Eok, Eb. reflexivity. }
    destruct (storeTokens_stored
                (match data_tokens data with
                 | Some t => access_token t | None => None end)
                (match data_tokens data with
                 | Some t => refresh_token t | None => None end)
                (afterFetch
                   (POST_auth_refresh
                      (stored (localStorage s !! REFRESH_TOKEN))) s))
      as [Hf Hl].
    apply refreshChain_single.
    + exact Et.
    + rewrite Hf. reflexivity.
    + rewrite Ea. simpl. rewrite Eok, Eb. discriminate.
    + rewrite Ea. simpl. rewrite Eok. discriminate.
    + rewrite Ea. simpl. rewrite Eok, Eb. intros data' E.
      injection E as <-. split; [reflexivity|]. split; [exact Hl|].
      unfold storeTokens. cbv beta iota zeta delta [bind setItem ret].
      destruct (truthy (match data_tokens data with
                        | Some t => refresh_token t | None => None end));
        split; reflexivity.
    + discriminate.
    + intros _. rewrite Hl. eauto.
  - destruct (clearAuthData_cleared false
                (afterFetch
                   (POST_auth_refresh
                      (stored (localStorage s !! REFRESH_TOKEN))) s) eq_refl)
      as [Hc Hf].
    apply refreshChain_single.
    + exact Et.
    + rewrite Hf. reflexivity.
    + rewrite Ea. simpl. rewrite Eok. discriminate.
    + reflexivity.
    + rewrite Ea. simpl. rewrite Eok. discriminate.
    + intros _. exact Hc.
    + discriminate.
Qed.

Lemma refreshAttempts_chain n : forall s,
  refreshChain server (S n) s (refreshAttempts server n s).
Proof.
  induction n as [|n IH]; intros s; rewrite refreshAttempts_unfold;
    apply refreshAttempt_chain; intros Et Ht.
  - destruct (clearAuthData_cleared false
                (afterFetch
                   (POST_auth_refresh
                      (stored (localStorage s !! REFRESH_TOKEN))) s) eq_refl)
      as [Hc Hf].
    apply refreshChain_single.
    + exact Et.
    + rewrite Hf. reflexivity.
    + intros _. split; reflexivity.
    + reflexivity.
    + rewrite (refreshThrows_not_granted _ Ht). discriminate.
    + intros _. exact Hc.
    + discriminate.
  - apply refreshChain_retry; [exact Et | exact Ht | apply IH].
Qed.

Lemma verifyToken_verifies token s :
  nonEmpty token = true ->
  verifyToken server token s
  = (verifies (server (length (fetched s)) (GET_auth_status token)),
     afterFetch (GET_auth_status token) s).
Proof.
  intros Ht. unfold verifyToken. rewrite Ht.
  cbv beta iota zeta delta [bind fetch ret afterFetch negb].
  destruct (server (length (fetched s)) (GET_auth_status token))
    as [|[st [|data]]]; simpl; try reflexivity.
  - destruct (ok _); reflexivity.
  - destruct (ok _); reflexivity.
Qed.

(** C6 (amended): for every call of [getAccessToken()] with a stored token
    whose verification fails, one refresh chain follows the verification
    request. Without a stored refresh token no refresh request is sent and
    the call returns null; with one, the refresh request is sent at least
    once and at most 3 times (2 retries). An attempt is followed by another
    one only if it threw, that is on a rejected request or on a 2xx
    response whose body cannot be read; when the last attempt threw, it was
    the third and the call returns null; a non-2xx response is the last
    attempt and the call returns null; a 2xx response with a readable body
    is the last attempt and the call returns the access token of that
    response, now stored, with the auth state untouched. Whenever the call
    returns null the session is cleared and the state is
    "unauthenticated". *)
Theorem getAccessToken_refresh_chain s token :
  localStorage s !! ACCESS_TOKEN = Some token ->
  nonEmpty token = true ->
  verifies (server (length (fetched s)) (GET_auth_status token)) = false ->
  let run := getAccessToken server s in
  let refreshToken := localStorage s !! REFRESH_TOKEN in
  let request := POST_auth_refresh (stored refreshToken) in
  let first := S (length (fetched s)) in
  exists attempts : nat,
    fetched (snd run)
      = fetched s ++ GET_auth_status token :: replicate attempts request /\
    (attempts <= 3)%nat /\
    (truthy refreshToken = true -> (1 <= attempts)%nat) /\
    (truthy refreshToken = false -> attempts = 0%nat /\ fst run = None) /\
    (forall i, (S i < attempts)%nat ->
       refreshThrows (server (first + i)%nat request) = true) /\
    (forall i, S i = attempts ->
       refreshThrows (server (first + i)%nat request) = true ->
       attempts = 3%nat /\ fst run = None) /\
    (forall i, (i < attempts)%nat ->
       refreshRefused (server (first + i)%nat request) = true ->
       S i = attempts /\ fst run = None) /\
    (forall i data, S i = attempts ->
       refreshGranted (server (first + i)%nat request) = Some data ->
       fst run = Some (stored (newAccessToken data)) /\
       localStorage (snd run) !! ACCESS_TOKEN = fst run /\
       authState (snd run) = authState s) /\
    (fst run = None -> sessionCleared (snd run)).
Proof.
  intros Hl Ht Hv run refreshToken request first.
  assert (Hrun : run =
    let chain := refreshAttempts server 2
                   (afterFetch (GET_auth_status token) s) in
    if fst chain then (localStorage (snd chain) !! ACCESS_TOKEN, snd chain)
    else (None, snd chain)).
  { subst run. unfold getAccessToken, refreshAccessToken.
    cbv beta iota zeta delta [bind getItem ret].
    rewrite Hl. change (truthy (Some token)) with (nonEmpty token).
    rewrite Ht. change (negb true) with false. cbv beta iota.
    change (stored (Some token)) with token.
    rewrite (verifyToken_verifies token s Ht), Hv.
    change (negb false) with true. cbv beta iota.
    change (2 - 0)%nat with 2%nat.
    destruct (refreshAttempts server 2 (afterFetch (GET_auth_status token) s))
      as [[|] s']; reflexivity. }
  pose proof (refreshAttempts_chain 2 (afterFetch (GET_auth_status token) s))
    as Hchain.
  rewrite Hrun. clear Hrun run.
  destruct (refreshAttempts server 2 (afterFetch (GET_auth_status token) s))
    as [b s'].
  destruct Hchain
    as (attempts & Hf & Hle & Hthrow & Hrefuse & Hc & Hs & Hone & Hnone
        & Hlast & Hgrant).
  simpl in Hf, Hthrow, Hrefuse, Hc, Hs, Hone, Hnone, Hlast, Hgrant.
  rewrite length_app in Hthrow, Hrefuse, Hlast, Hgrant.
  simpl in Hthrow, Hrefuse, Hlast, Hgrant.
  replace (length (fetched s) + 1)%nat with first
    in Hthrow, Hrefuse, Hlast, Hgrant by (subst first; lia).
  fold refreshToken in Hf, Hthrow, Hrefuse, Hone, Hnone, Hlast, Hgrant.
  fold request in Hf, Hthrow, Hrefuse, Hlast, Hgrant.
  exists attempts. cbv zeta. simpl fst. simpl snd.
  destruct b; simpl.
  - split; [rewrite Hf, <- app_assoc; reflexivity|].
    split; [exact Hle|]. split; [exact Hone|].
    split; [intros H; destruct (Hnone H); discriminate|].
    split; [exact Hthrow|].
    split; [intros i Hi H; destruct (Hlast i Hi H); discriminate|].
    split; [intros i Hi H; destruct (Hrefuse i Hi H); discriminate|].
    split.
    + intros i data Hi H. destruct (Hgrant i data Hi H) as (_ & Ha & Hst & _).
      rewrite Ha. auto.
    + intros Hn. destruct (Hs eq_refl) as [v Hv']. congruence.
  - split; [rewrite Hf, <- app_assoc; reflexivity|].
    split; [exact Hle|]. split; [exact Hone|].
    split; [intros H; destruct (Hnone H); auto|].
    split; [exact Hthrow|].
    split; [intros i Hi H; destruct (Hlast i Hi H); auto|].
    split; [intros i Hi H; destruct (Hrefuse i Hi H); auto|].
    split.
    + intros i data Hi H. destruct (Hgrant i data Hi H). discriminate.
    + intros _. auto.
Qed.

(** Whenever [init] finds a token and a user, the verification fails and
    the first refresh attempt is granted, it ends in the state it loaded
    from storage, with the new access token stored: the state is
    "authenticated" only if that was the one persisted. *)
Lemma init_refreshed_keeps_loaded_state s a r ud u st data :
  localStorage s !! ACCESS_TOKEN = Some a -> nonEmpty a = true ->
  localStorage s !! REFRESH_TOKEN = Some r -> nonEmpty r = true ->
  localStorage s !! USER_DATA = Some ud -> nonEmpty ud = true ->
  JSON_parse ud = Object u ->
  verifies (server (length (fetched s)) (GET_auth_status a)) = false ->
  server (S (length (fetched s))) (POST_auth_refresh r)
    = Resolves (mkResponse st (Readable data)) ->
  ok (mkResponse st (Readable data)) = true ->
  let loaded :=
    if truthy (localStorage s !! AUTH_STATE)
    then stored (localStorage s !! AUTH_STATE) else "unauthenticated" in
  let run := init JSON_parse server s in
  fst run = loaded /\
  authState (snd run) = loaded /\
  user (snd run) = Some u /\
  localStorage (snd run) !! ACCESS_TOKEN
    = Some (stored (match data_tokens data with
                    | Some t => access_token t | None => None end)) /\
  localStorage (snd run) !! AUTH_STATE = Some loaded.
Proof.
  intros Ha Hta Hr Htr Hu Htu Hp Hv Hs Hok loaded run.
  subst run. unfold init.
  cbv beta iota zeta delta [bind getItem ret setAuthState setUser getUser
                            getAuthState].
  rewrite Ha, Hr, Hu.
  change (truthy (Some ud)) with (nonEmpty ud).
  change (truthy (Some a)) with (nonEmpty a).
  change (truthy (Some r)) with (nonEmpty r).
  rewrite Hta, Htr, Htu. change (stored (Some ud)) with ud. rewrite Hp.
  cbv beta iota. fold loaded.
  cbn [user localStorage authState notified fetched andb].
  rewrite bool_decide_eq_true_2 by eauto.
  change (stored (Some a)) with a.
  rewrite (verifyToken_verifies a _ Hta). cbn [fetched]. rewrite Hv.
  cbv beta iota. unfold refreshAccessToken. change (2 - 0)%nat with 2%nat.
  rewrite refreshAttempts_unfold. cbv zeta.
  cbn [afterFetch user localStorage authState notified fetched].
  rewrite Hr. change (truthy (Some r)) with (nonEmpty r). rewrite Htr.
  change (stored (Some r)) with r. cbn [negb].
  rewrite length_app. cbn [length]. rewrite Nat.add_1_r, Hs, Hok.
  cbn [body negb].
  unfold notifyListeners, storeTokens, afterFetch.
  cbv beta iota zeta delta [bind setItem ret getAuthState].
  destruct (truthy (match data_tokens data with
                    | Some t => refresh_token t | None => None end));
    cbn [fst snd user localStorage authState notified fetched].
  all: repeat split; try reflexivity.
  all: rewrite ?lookup_insert_ne by distinct_keys.
  all: apply lookup_insert_eq.
Qed.

End Chain.

Lemma getAccessToken_refresh_chain_witness :
  let s := constructed (User := SampleUser) staleSession in
  let run := getAccessToken flakyServer s in
  let refreshToken := localStorage s !! REFRESH_TOKEN in
  let request := POST_auth_refresh (stored refreshToken) in
  fst run = None /\
  fetched (snd run)
    = [GET_auth_status "old-access"; POST_auth_refresh "refresh-1";
       POST_auth_refresh "refresh-1"; POST_auth_refresh "refresh-1"] /\
  exists attempts : nat,
    fetched (snd run)
      = fetched s ++ GET_auth_status "old-access"
                     :: replicate attempts request /\
    (attempts <= 3)%nat /\
    (truthy refreshToken = true -> (1 <= attempts)%nat) /\
    (truthy refreshToken = false -> attempts = 0%nat /\ fst run = None) /\
    (forall i, (S i < attempts)%nat ->
       refreshThrows (flakyServer (1 + i)%nat request) = true) /\
    (forall i, S i = attempts ->
       refreshThrows (flakyServer (1 + i)%nat request) = true ->
       attempts = 3%nat /\ fst run = None) /\
    (forall i, (i < attempts)%nat ->
       refreshRefused (flakyServer (1 + i)%nat request) = true ->
       S i = attempts /\ fst run = None) /\
    (forall i data, S i = attempts ->
       refreshGranted (flakyServer (1 + i)%nat request) = Some data ->
       fst run = Some (stored (newAccessToken data)) /\
       localStorage (snd run) !! ACCESS_TOKEN = fst run /\
       authState (snd run) = authState s) /\
    (fst run = None -> sessionCleared (snd run)).
Proof.
  split; [reflexivity|]. split; [reflexivity|].
  apply (getAccessToken_refresh_chain flakyServer
           (constructed (User := SampleUser) staleSession) "old-access");
    reflexivity.
Defined.

(** C1 at a stored session with state "unauthenticated": the expired token
    is refreshed and the new tokens are persisted, but [init] ends in
    "unauthenticated", the state it loaded; with a token that still
    verifies, the same stored session ends in "authenticated". *)
Theorem init_refreshed_session_not_authenticated :
  let run := init sampleParse refreshingServer (constructed staleSession) in
  fst run = "unauthenticated" /\
  authState (snd run) = "unauthenticated" /\
  user (snd run) = Some (mkUser 7 "a@b.c") /\
  fetched (snd run)
    = [GET_auth_status "old-access"; POST_auth_refresh "refresh-1"] /\
  localStorage (snd run) !! ACCESS_TOKEN = Some "new-access" /\
  localStorage (snd run) !! REFRESH_TOKEN = Some "refresh-2" /\
  localStorage (snd run) !! AUTH_STATE = Some "unauthenticated" /\
  fst (init sampleParse acceptingServer (constructed staleSession))
    = "authenticated".
Proof. vm_compute. repeat split; reflexivity. Qed.

(** C6, as stated, fails: no request is rejected by this server, yet the
    refresh request is sent twice, the retry following a 200 response whose
    body could not be read. *)
Lemma refresh_retried_without_transport_failure :
  let run :=
    getAccessToken garblingServer
      (constructed (User := SampleUser) staleSession) in
  (forall n request, garblingServer n request <> Rejects) /\
  fetched (snd run)
    = [GET_auth_status "old-access"; POST_auth_refresh "refresh-1";
       POST_auth_refresh "refresh-1"] /\
  fst run = Some "new-access".
Proof.
  split; [|split; reflexivity].
  intros n [bearer | rt]; simpl; [discriminate|].
  destruct (n <=? 1)%nat; discriminate.
Qed.

End AuthProps.

Module WindowProps.
Import Geometry MainWindow.
Local Open Scope Z_scope.

(** X1: on a work area that leaves room for the widget and both margins,
    [ensureWidgetInBounds] keeps the widget's size, puts it at least 8 pixels
    from every edge of the work area, and moves it only if it was not
    already there. *)
Theorem ensureWidgetInBounds_inside_margins scr w :
  width w + 16 <= screenWidth scr ->
  height w + 16 <= screenHeight scr ->
  exists w',
    ensureWidgetInBounds scr (Some w) = Some w' /\
    width w' = width w /\ height w' = height w /\
    8 <= x w' /\ x w' + width w' <= screenWidth scr - 8 /\
    8 <= y w' /\ y w' + height w' <= screenHeight scr - 8 /\
    (w' = w <->
     8 <= x w /\ x w + width w <= screenWidth scr - 8 /\
     8 <= y w /\ y w + height w <= screenHeight scr - 8).
Proof.
  intros Hw Hh. exists (ensureInBounds 8 scr w).
  destruct (GeometryProps.ensureInBounds_size 8 scr w) as [Sw Sh].
  destruct (GeometryProps.ensureInBounds_fits 8 scr w) as (Hx & Hx' & Hy & Hy');
    [lia | lia |].
  repeat (split; [first [reflexivity | assumption]|]).
  split.
  - intros E. rewrite E in Hx, Hx', Hy, Hy'. auto.
  - intros (? & ? & ? & ?).
    apply GeometryProps.ensureInBounds_fixpoint; assumption.
Qed.

Lemma ensureWidgetInBounds_inside_margins_witness :
  exists w',
    ensureWidgetInBounds (mkArea 1440 900) (Some (mkRect 1400 (-3) 54 135))
      = Some w' /\
    w' = mkRect 1378 8 54 135.
Proof.
  destruct (ensureWidgetInBounds_inside_margins (mkArea 1440 900)
              (mkRect 1400 (-3) 54 135)) as (w' & E & _);
    [simpl; lia | simpl; lia |].
  exists w'. split; [exact E|].
  simpl in E. injection E as <-. reflexivity.
Defined.

(** X2: on such a work area the [move-widget] handler leaves the widget at
    least 8 pixels from every edge whatever the delta, keeps its size, and
    moves it by exactly the delta whenever the target position is inside
    the margins. *)
Theorem moveWidget_inside_margins scr deltaX deltaY w :
  width w + 16 <= screenWidth scr ->
  height w + 16 <= screenHeight scr ->
  let w' := moveWidget scr deltaX deltaY w in
  width w' = width w /\ height w' = height w /\
  8 <= x w' /\ x w' + width w' <= screenWidth scr - 8 /\
  8 <= y w' /\ y w' + height w' <= screenHeight scr - 8 /\
  (8 <= x w + deltaX -> x w + deltaX + width w <= screenWidth scr - 8 ->
   x w' = x w + deltaX) /\
  (8 <= y w + deltaY -> y w + deltaY + height w <= screenHeight scr - 8 ->
   y w' = y w + deltaY).
Proof.
  intros Hw Hh. unfold moveWidget, setPosition, constrain. cbv zeta.
  destruct (negb _ || negb _) eqn:E; simpl.
  - repeat split; lia.
  - apply orb_false_elim in E as [Ex Ey].
    apply negb_false_iff, Z.eqb_eq in Ex.
    apply negb_false_iff, Z.eqb_eq in Ey.
    repeat split; lia.
Qed.

Lemma moveWidget_inside_margins_witness :
  let w' := moveWidget (mkArea 1440 900) 30 (-500) (mkRect 1370 300 54 110) in
  w' = mkRect 1378 8 54 110 /\
  8 <= x w' /\ x w' + width w' <= 1432.
Proof.
  split; [reflexivity|].
  destruct (moveWidget_inside_margins (mkArea 1440 900) 30 (-500)
              (mkRect 1370 300 54 110)) as (_ & _ & Hx & Hx' & _);
    [simpl; lia | simpl; lia |].
  split; [exact Hx | exact Hx'].
Defined.

Lemma reposition_keeps_main scr ws :
  mainWindow (repositionWidgetRelativeToMain scr ws) = mainWindow ws.
Proof.
  unfold repositionWidgetRelativeToMain.
  destruct (mainWindow ws) as [main|] eqn:Em; [|exact Em].
  destruct (widgetWindow ws) as [widget|]; [|exact Em].
  cbv zeta.
  repeat match goal with |- context [if ?b then _ else _] => destruct b end;
    reflexivity.
Qed.

Lemma moveMainWindowClamped_main scr deltaX deltaY ws main :
  mainWindow ws = Some main ->
  mainWindow (moveMainWindowClamped scr deltaX deltaY ws)
  = Some (setPosition main
            (constrain 20 (screenWidth scr - width main - 20)
               (x main + deltaX))
            (constrain 20 (screenHeight scr - height main - 20)
               (y main + deltaY))).
Proof.
  intros Em. unfold moveMainWindowClamped. rewrite Em. cbv zeta.
  destruct (negb _ || negb _) eqn:E.
  - rewrite reposition_keeps_main. reflexivity.
  - apply orb_false_elim in E as [Ex Ey].
    apply negb_false_iff, Z.eqb_eq in Ex.
    apply negb_false_iff, Z.eqb_eq in Ey.
    rewrite Em, Ex, Ey. destruct main; reflexivity.
Qed.

(** X3: a ['move-main-window'] message runs both listeners registered for
    the channel, so the delta is applied twice, the second time without the
    clamp: the main window ends at clamp(x + dx) + dx. A move to the right
    that reaches the right-hand limit therefore leaves the window's right
    edge beyond the 20 pixel margin. *)
Theorem onMoveMainWindow_applies_delta_twice scr deltaX deltaY ws main :
  mainWindow ws = Some main ->
  exists main',
    mainWindow (onMoveMainWindow scr deltaX deltaY ws) = Some main' /\
    width main' = width main /\ height main' = height main /\
    x main' = constrain 20 (screenWidth scr - width main - 20)
                (x main + deltaX) + deltaX /\
    y main' = constrain 20 (screenHeight scr - height main - 20)
                (y main + deltaY) + deltaY /\
    (0 < deltaX -> 20 <= screenWidth scr - width main - 20 ->
     screenWidth scr - width main - 20 <= x main + deltaX ->
     screenWidth scr - 20 < x main' + width main').
Proof.
  intros Em. unfold onMoveMainWindow, moveMainWindowFree.
  rewrite (moveMainWindowClamped_main scr deltaX deltaY ws main Em).
  eexists. split; [reflexivity|]. simpl.
  repeat split; try reflexivity.
  unfold constrain. lia.
Qed.

Lemma onMoveMainWindow_applies_delta_twice_witness :
  let ws := mkWindows (Some (mkRect 700 380 698 500))
              (Some (mkRect 626 380 54 110)) in
  exists main',
    mainWindow (onMoveMainWindow (mkArea 1440 900) 30 0 ws) = Some main' /\
    main' = mkRect 752 380 698 500 /\
    1440 - 20 < x main' + width main'.
Proof.
  destruct (onMoveMainWindow_applies_delta_twice (mkArea 1440 900) 30 0
              (mkWindows (Some (mkRect 700 380 698 500))
                 (Some (mkRect 626 380 54 110)))
              (mkRect 700 380 698 500) eq_refl)
    as (main' & E & _ & _ & _ & _ & Hout).
  exists main'. split; [exact E|]. split.
  - vm_compute in E. injection E as <-. reflexivity.
  - apply Hout; simpl; lia.
Defined.

(** X4: on a work area that leaves room for the main window and both
    margins, ['move-main-window-absolute'] leaves the main window at least
    20 pixels from every edge of the work area, whatever position is asked
    for, and keeps its size. *)
Theorem moveMainWindowAbsolute_inside_margins scr newX newY ws main :
  mainWindow ws = Some main ->
  width main + 40 <= screenWidth scr ->
  height main + 40 <= screenHeight scr ->
  exists main',
    mainWindow (moveMainWindowAbsolute scr newX newY ws) = Some main' /\
    width main' = width main /\ height main' = height main /\
    20 <= x main' /\ x main' + width main' <= screenWidth scr - 20 /\
    20 <= y main' /\ y main' + height main' <= screenHeight scr - 20.
Proof.
  intros Em Hw Hh. unfold moveMainWindowAbsolute. rewrite Em. cbv zeta.
  destruct (negb _ || negb _) eqn:E.
  - rewrite reposition_keeps_main. eexists. split; [reflexivity|].
    unfold constrain. simpl. repeat split; lia.
  - apply orb_false_elim in E as [Ex Ey].
    apply negb_false_iff, Z.eqb_eq in Ex.
    apply negb_false_iff, Z.eqb_eq in Ey.
    exists main. split; [exact Em|]. unfold constrain in Ex, Ey.
    repeat split; lia.
Qed.

Lemma moveMainWindowAbsolute_inside_margins_witness :
  exists main',
    mainWindow (moveMainWindowAbsolute (mkArea 1440 900) 5000 (-70)
                  (mkWindows (Some (mkRect 700 380 698 500)) None))
      = Some main' /\
    20 <= x main' /\ x main' + width main' <= 1440 - 20.
Proof.
  destruct (moveMainWindowAbsolute_inside_margins (mkArea 1440 900) 5000 (-70)
              (mkWindows (Some (mkRect 700 380 698 500)) None)
              (mkRect 700 380 698 500) eq_refl)
    as (main' & E & _ & _ & Hx & Hx' & _); [simpl; lia | simpl; lia |].
  exists main'. split; [exact E|]. split; [exact Hx | exact Hx'].
Defined.

(** The comparison of a centre with the middle of the screen, in whole
    numbers. *)
Lemma centre_in_far_half (a b c : Z) :
  Qgtb (inject_Z a + inject_Z b / 2) (inject_Z c / 2) = true
  <-> c < 2 * a + b.
Proof.
  unfold Qgtb. rewrite negb_true_iff, <- not_true_iff_false, Qle_bool_iff.
  assert (E : (inject_Z a + inject_Z b / 2 <= inject_Z c / 2)%Q
              <-> 2 * a + b <= c).
  { rewrite (Zle_Qle (2 * a + b) c), inject_Z_plus, inject_Z_mult.
    change (inject_Z 2) with 2%Q.
    generalize (inject_Z a) (inject_Z b) (inject_Z c). intros A B C.
    split; intros H.
    - assert (H2 : (2 * (A + B / 2) <= 2 * (C / 2))%Q) by lra.
      assert (E1 : (2 * (A + B / 2) == 2 * A + B)%Q) by field.
      assert (E2 : (2 * (C / 2) == C)%Q) by field.
      rewrite E1, E2 in H2. exact H2.
    - assert (E1 : (A + B / 2 == (2 * A + B) / 2)%Q) by field.
      rewrite E1. unfold Qdiv. apply Qmult_le_compat_r; [exact H | easy]. }
  rewrite E. lia.
Qed.

(** X5: [repositionWidgetRelativeToMain] never moves the main window; on a
    work area with room for the widget and both 20 pixel margins it leaves
    the widget inside those margins; and it puts the widget on the side of
    the main window that faces the middle of the screen, 20 pixels away
    from it, whenever that side has room for the widget and its margins
    (the main window's near edge being on the screen). *)
Theorem repositionWidget_beside_main scr main widget :
  width widget + 40 <= screenWidth scr ->
  height widget + 40 <= screenHeight scr ->
  exists widget',
    repositionWidgetRelativeToMain scr (mkWindows (Some main) (Some widget))
      = mkWindows (Some main) (Some widget') /\
    width widget' = width widget /\ height widget' = height widget /\
    20 <= x widget' /\ x widget' + width widget' <= screenWidth scr - 20 /\
    20 <= y widget' /\ y widget' + height widget' <= screenHeight scr - 20 /\
    (screenWidth scr < 2 * x main + width main ->
     width widget + 40 <= x main <= screenWidth scr ->
     x widget' + width widget' + 20 = x main) /\
    (2 * x main + width main <= screenWidth scr ->
     0 <= x main + width main ->
     x main + width main + width widget + 40 <= screenWidth scr ->
     x widget' = x main + width main + 20).
Proof.
  intros Hw Hh. unfold repositionWidgetRelativeToMain. simpl mainWindow.
  simpl widgetWindow. cbv beta iota zeta.
  destruct (Qgtb (inject_Z (x main) + inject_Z (width main) / 2)
              (inject_Z (screenWidth scr) / 2)) eqn:Ex.
  - apply centre_in_far_half in Ex.
    destruct (Qgtb (inject_Z (y main) + inject_Z (height main) / 2)
                (inject_Z (screenHeight scr) / 2));
      simpl; eexists; (split; [reflexivity|]); simpl; repeat split; lia.
  - apply not_true_iff_false in Ex. rewrite centre_in_far_half in Ex.
    destruct (Qgtb (inject_Z (y main) + inject_Z (height main) / 2)
                (inject_Z (screenHeight scr) / 2));
      simpl; eexists; (split; [reflexivity|]); simpl; repeat split; lia.
Qed.

Lemma repositionWidget_beside_main_witness :
  exists widget',
    repositionWidgetRelativeToMain (mkArea 1440 900)
      (mkWindows (Some (mkRect 722 380 698 500))
         (Some (mkRect 1378 395 54 110)))
      = mkWindows (Some (mkRect 722 380 698 500)) (Some widget') /\
    x widget' + width widget' + 20 = 722.
Proof.
  destruct (repositionWidget_beside_main (mkArea 1440 900)
              (mkRect 722 380 698 500) (mkRect 1378 395 54 110))
    as (widget' & E & Sw & _ & _ & _ & _ & _ & Hleft & _);
    [simpl; lia | simpl; lia |].
  exists widget'. split; [exact E|].
  apply Hleft; simpl; lia.
Defined.

(** X6: whatever the work area, the main window is created between 400 x
    300 and 698 x 500 pixels, with its right and bottom edges 20 pixels
    inside the work area; from 873 x 556 pixels on it has the full 698 x
    500. *)
Theorem mainWindowOptions_bounds scr :
  let '(finalWidth, finalHeight, x0, y0) := mainWindowOptions scr in
  (400 <= finalWidth <= 698 /\ 300 <= finalHeight <= 500 /\
   x0 + finalWidth == inject_Z (screenWidth scr) - 20 /\
   y0 + finalHeight == inject_Z (screenHeight scr) - 20 /\
   ((873 <= screenWidth scr)%Z -> finalWidth == 698) /\
   ((556 <= screenHeight scr)%Z -> finalHeight == 500))%Q.
Proof.
  unfold mainWindowOptions. cbv zeta.
  set (w := inject_Z (screenWidth scr)). set (h := inject_Z (screenHeight scr)).
  assert (Hw : 873 <= screenWidth scr -> (873 <= w)%Q).
  { intros H. subst w. rewrite Zle_Qle in H. exact H. }
  assert (Hh : 556 <= screenHeight scr -> (556 <= h)%Q).
  { intros H. subst h. rewrite Zle_Qle in H. exact H. }
  split; [|split; [|split; [|split; [|split]]]].
  - split; [apply Q.le_max_l|].
    apply Q.max_lub; [lra | apply Q.le_min_l].
  - split; [apply Q.le_max_l|].
    apply Q.max_lub; [lra | apply Q.le_min_l].
  - ring.
  - ring.
  - intros H. specialize (Hw H).
    rewrite Q.max_r.
    + apply Q.min_l. apply Q.min_glb; lra.
    + apply Q.min_glb; [lra | apply Q.min_glb; lra].
  - intros H. specialize (Hh H).
    rewrite Q.max_r.
    + apply Q.min_l. apply Q.min_glb; lra.
    + apply Q.min_glb; [lra | apply Q.min_glb; lra].
Qed.

Lemma mainWindowOptions_bounds_witness :
  (fst (fst (fst (mainWindowOptions (mkArea 1440 900)))) == 698 /\
   fst (fst (fst (mainWindowOptions (mkArea 800 480)))) == 640 /\
   snd (fst (fst (mainWindowOptions (mkArea 800 480)))) == 432)%Q.
Proof.
  pose proof (mainWindowOptions_bounds (mkArea 1440 900)) as H.
  destruct (mainWindowOptions (mkArea 1440 900)) as [[[fw fh] x0] y0] eqn:E.
  destruct H as (_ & _ & _ & _ & Hw & _).
  split; [cbn [fst]; apply Hw; simpl; lia|]. split; reflexivity.
Defined.

(** X7: the panel placement never overlaps the widget sideways when it
    reports a side: with ['position-right'] the panel starts at or after
    the widget's right edge, with ['position-left'] it ends at or before
    the widget's left edge (the final clamp may use up the 12 pixel gap,
    not more); ['position-right-adjusted'] is reported only when neither
    side has room for the panel. *)
Theorem calculateMainWindowPosition_beside_widget scr dimensions pos rect :
  let p := calculateMainWindowPosition scr dimensions pos rect in
  let mainWindowWidth := fst (mainWindowDimensions dimensions) in
  let widgetScreenX := fst pos + left rect in
  let widgetScreenRight := widgetScreenX + rectWidth rect in
  match positionClass p with
  | position_right => widgetScreenRight <= px p
  | position_left => px p + mainWindowWidth <= widgetScreenX
  | position_right_adjusted =>
      screenWidth scr - widgetScreenRight - 12 < mainWindowWidth /\
      widgetScreenX - 12 < mainWindowWidth
  end.
Proof.
  unfold calculateMainWindowPosition.
  destruct (mainWindowDimensions dimensions) as [mw mh]. simpl fst.
  unfold placePanel, constrain. cbv zeta.
  destruct (mw <=? screenWidth scr
                   - (fst pos + left rect + rectWidth rect) - 12) eqn:Er.
  - simpl. apply Z.leb_le in Er. lia.
  - destruct (mw <=? fst pos + left rect - 12) eqn:El; simpl.
    + apply Z.leb_le in El. lia.
    + apply Z.leb_gt in Er. apply Z.leb_gt in El. lia.
Qed.

End WindowProps.

Module SleepCountdownProps.
Import SleepTimer.
Local Open Scope Z_scope.

Lemma endedCount_send_update t' t hours minutes p :
  endedCount t' (send t (update_sleep_timer hours minutes) p)
  = endedCount t' p.
Proof.
  unfold endedCount, send. destruct (alive t p); [|reflexivity].
  simpl. rewrite filter_app, length_app. simpl.
  rewrite filter_cons_False, filter_nil; [simpl; lia|].
  intros E. inversion E.
Qed.

(** A firing that finds minutes left only counts down and reports. *)
Lemma intervalFires_counting id t p :
  intervals p = {[ id := t ]} -> 0 < t ->
  let q := intervalFires id p in
  intervals q = {[ id := t - 1 ]} /\
  isSleeping q = isSleeping p /\ sleepTimer q = sleepTimer p /\
  widgetWindow q = widgetWindow p /\ mainWindow q = mainWindow p /\
  nextTimer q = nextTimer p /\
  forall t', endedCount t' q = endedCount t' p.
Proof.
  intros Hi Ht. unfold intervalFires.
  rewrite Hi, lookup_singleton_eq.
  destruct (0 <? t) eqn:E; [|apply Z.ltb_ge in E; lia].
  cbv zeta. unfold sendTimer.
  set (p1 := setTotalMinutes id (t - 1) p).
  set (h := (t - 1) / 60). set (m := Z.rem (t - 1) 60).
  assert (F : forall tg msg r,
             intervals (send tg msg r) = intervals r /\
             isSleeping (send tg msg r) = isSleeping r /\
             sleepTimer (send tg msg r) = sleepTimer r /\
             widgetWindow (send tg msg r) = widgetWindow r /\
             mainWindow (send tg msg r) = mainWindow r /\
             nextTimer (send tg msg r) = nextTimer r).
  { intros tg msg r. unfold send. destruct (alive tg r); auto 10. }
  destruct (F ToWidgetWindow (update_sleep_timer h m)
              (send ToMainWindow (update_sleep_timer h m) p1))
    as (-> & -> & -> & -> & -> & ->).
  destruct (F ToMainWindow (update_sleep_timer h m) p1)
    as (-> & -> & -> & -> & -> & ->).
  subst p1. simpl. rewrite Hi, insert_singleton_eq.
  repeat split; try reflexivity.
  intros t'. rewrite !endedCount_send_update. reflexivity.
Qed.

(** A firing that finds no minutes left wakes up. *)
Lemma intervalFires_waking id t p :
  intervals p = {[ id := t ]} -> t <= 0 ->
  intervalFires id p = wakeUp p.
Proof.
  intros Hi Ht. unfold intervalFires.
  rewrite Hi, lookup_singleton_eq.
  destruct (0 <? t) eqn:E; [apply Z.ltb_lt in E; lia | reflexivity].
Qed.

Lemma startSleepMode_started hours minutes p :
  isSleeping p = false -> intervals p = ∅ ->
  let q := startSleepMode hours minutes p in
  intervals q = {[ nextTimer p := hours * 60 + minutes ]} /\
  isSleeping q = true /\ sleepTimer q = Some (nextTimer p) /\
  forall t', endedCount t' q = endedCount t' p.
Proof.
  intros Hs Hi. unfold startSleepMode. rewrite Hs. cbv zeta.
  unfold sendTimer.
  assert (F : forall tg msg r,
             intervals (send tg msg r) = intervals r /\
             isSleeping (send tg msg r) = isSleeping r /\
             sleepTimer (send tg msg r) = sleepTimer r /\
             nextTimer (send tg msg r) = nextTimer r).
  { intros tg msg r. unfold send. destruct (alive tg r); auto. }
  assert (G : forall t' r,
             endedCount t' (send ToWidgetWindow main_window_hidden_for_sleep r)
             = endedCount t' r).
  { intros t' r. unfold endedCount, send.
    destruct (alive ToWidgetWindow r); [|reflexivity].
    simpl. rewrite filter_app, length_app. simpl.
    rewrite filter_cons_False, filter_nil; [simpl; lia|].
    intros E. inversion E. }
  set (p1 := send ToWidgetWindow main_window_hidden_for_sleep
               (setVisible false (setOpacity 0.7%Q (setSleeping true p)))).
  set (p2 := setInterval (hours * 60 + minutes) p1).
  destruct (F ToWidgetWindow (update_sleep_timer hours minutes)
              (send ToMainWindow (update_sleep_timer hours minutes) p2))
    as (-> & -> & -> & _).
  destruct (F ToMainWindow (update_sleep_timer hours minutes) p2)
    as (-> & -> & -> & _).
  destruct (F ToWidgetWindow main_window_hidden_for_sleep
              (setVisible false (setOpacity 0.7%Q (setSleeping true p))))
    as (Fi & Fs & _ & Fn).
  fold p1 in Fi, Fs, Fn. simpl in Fi, Fs, Fn.
  subst p2. unfold setInterval. cbn [intervals isSleeping sleepTimer].
  rewrite Fn, Fi, Fs, Hi, insert_empty.
  repeat split; try reflexivity.
  intros t'. rewrite !endedCount_send_update.
  unfold endedCount at 1. cbn [sent]. fold (endedCount t' p1).
  subst p1. rewrite G. reflexivity.
Qed.

Lemma counting_down id total p0 (k : nat) :
  intervals p0 = {[ id := total ]} -> isSleeping p0 = true ->
  Z.of_nat k <= total ->
  intervals (minuteTicks k id p0) = {[ id := total - Z.of_nat k ]} /\
  isSleeping (minuteTicks k id p0) = true /\
  sleepTimer (minuteTicks k id p0) = sleepTimer p0 /\
  forall t', endedCount t' (minuteTicks k id p0) = endedCount t' p0.
Proof.
  intros Hi Hs. induction k as [|k IH]; intros Hk.
  - simpl. rewrite Z.sub_0_r. auto.
  - destruct IH as (Ii & Is & It & Ie); [lia|].
    unfold minuteTicks in *.
    change (Nat.iter (S k) (intervalFires id) p0)
      with (intervalFires id (Nat.iter k (intervalFires id) p0)).
    destruct (intervalFires_counting id (total - Z.of_nat k)
                (Nat.iter k (intervalFires id) p0) Ii)
      as (Ji & Js & Jt & _ & _ & _ & Je); [lia|].
    rewrite Ji, Js, Jt. split; [f_equal; lia|].
    split; [exact Is|]. split; [exact It|].
    intros t'. rewrite Je. apply Ie.
Qed.

(** X8: a sleep started for hours:minutes from an idle state stays asleep
    through the first hours * 60 + minutes firings of its minute timer,
    counting down by one each time and sending no ['sleep-mode-ended'];
    the firing after that wakes up, leaving no timer behind. *)
Theorem sleep_ends_on_the_tick_after_zero p hours minutes (k : nat) :
  reachable p -> isSleeping p = false -> 0 <= hours * 60 + minutes ->
  let total := hours * 60 + minutes in
  let id := nextTimer p in
  let p0 := handle (start_sleep_mode hours minutes) p in
  (Z.of_nat k <= total ->
   isSleeping (minuteTicks k id p0) = true /\
   intervals (minuteTicks k id p0) = {[ id := total - Z.of_nat k ]} /\
   forall t', endedCount t' (minuteTicks k id p0) = endedCount t' p) /\
  isSleeping (minuteTicks (S (Z.to_nat total)) id p0) = false /\
  sleepTimer (minuteTicks (S (Z.to_nat total)) id p0) = None /\
  intervals (minuteTicks (S (Z.to_nat total)) id p0) = ∅.
Proof.
  intros Hr Hs Ht total id p0.
  destruct (SleepTimerProps.reachable_timer_invariant p Hr) as [H1 H2].
  rewrite (H1 Hs) in H2.
  destruct (startSleepMode_started hours minutes p Hs H2)
    as (Si & Ss & St & Se).
  fold total id in Si, St. change (startSleepMode hours minutes p) with p0 in *.
  split.
  - intros Hk.
    destruct (counting_down id total p0 k Si Ss Hk) as (Ci & Cs & _ & Ce).
    split; [exact Cs|]. split; [exact Ci|].
    intros t'. rewrite Ce. apply Se.
  - destruct (counting_down id total p0 (Z.to_nat total) Si Ss)
      as (Ci & Cs & Ct & _); [lia|].
    rewrite Z2Nat.id, Z.sub_diag in Ci by exact Ht.
    unfold minuteTicks in *.
    change (Nat.iter (S (Z.to_nat total)) (intervalFires id) p0)
      with (intervalFires id (Nat.iter (Z.to_nat total) (intervalFires id) p0)).
    rewrite (intervalFires_waking id 0 _ Ci) by lia.
    set (q := Nat.iter (Z.to_nat total) (intervalFires id) p0) in *.
    assert (F : forall tg msg r,
               intervals (send tg msg r) = intervals r /\
               isSleeping (send tg msg r) = isSleeping r /\
               sleepTimer (send tg msg r) = sleepTimer r).
    { intros tg msg r. unfold send. destruct (alive tg r); auto. }
    unfold wakeUp.
    destruct (F ToWidgetWindow sleep_mode_ended
                (send ToMainWindow sleep_mode_ended
                   (setVisible true (setOpacity 1.0%Q
                      (clearSleepTimer (setSleeping false q))))))
      as (-> & -> & ->).
    destruct (F ToMainWindow sleep_mode_ended
                (setVisible true (setOpacity 1.0%Q
                   (clearSleepTimer (setSleeping false q)))))
      as (-> & -> & ->).
    unfold clearSleepTimer. cbn [setSleeping sleepTimer].
    rewrite Ct, St. simpl. rewrite Ci, delete_singleton_eq. auto.
Qed.

Lemma sleep_ends_on_the_tick_after_zero_witness :
  let p0 := handle (start_sleep_mode 0 2) started in
  isSleeping (minuteTicks 2 0 p0) = true /\
  intervals (minuteTicks 2 0 p0) = {[ 0%nat := 0 ]} /\
  isSleeping (minuteTicks 3 0 p0) = false.
Proof.
  assert (Hr : reachable started).
  { apply reachable_initial. repeat split; reflexivity. }
  destruct (sleep_ends_on_the_tick_after_zero started 0 2 2 Hr eq_refl)
    as (Hk & Hw & _); [simpl; lia|].
  destruct Hk as (Hs & Hi & _); [simpl; lia|].
  split; [exact Hs|]. split; [exact Hi | exact Hw].
Defined.

(** X9: every time report sent by a firing of the minute timer carries
    whole hours and minutes that add up to the minutes left, with the
    minutes between 0 and 59, and goes to the main window and then to the
    widget. *)
Theorem intervalFires_reports_remaining_time id total p visible opacity :
  intervals p !! id = Some total -> 0 < total ->
  mainWindow p = Some visible -> widgetWindow p = Some opacity ->
  exists hours minutes,
    sent (intervalFires id p)
      = sent p ++ [(ToMainWindow, update_sleep_timer hours minutes);
                   (ToWidgetWindow, update_sleep_timer hours minutes)] /\
    hours * 60 + minutes = total - 1 /\
    0 <= hours /\ 0 <= minutes <= 59.
Proof.
  intros Hi Ht Hm Hw. unfold intervalFires. rewrite Hi.
  destruct (0 <? total) eqn:E; [|apply Z.ltb_ge in E; lia].
  exists ((total - 1) / 60), (Z.rem (total - 1) 60). split.
  - cbv zeta. unfold sendTimer, send, alive, setTotalMinutes. simpl.
    rewrite Hm, Hw. simpl. rewrite <- app_assoc. reflexivity.
  - rewrite Z.rem_mod_nonneg by lia.
    pose proof (Z.div_mod (total - 1) 60 ltac:(lia)).
    pose proof (Z.mod_pos_bound (total - 1) 60 ltac:(lia)).
    assert (0 <= (total - 1) / 60) by (apply Z.div_pos; lia).
    lia.
Qed.

Lemma intervalFires_reports_remaining_time_witness :
  exists hours minutes,
    sent (intervalFires 0 (handle (start_sleep_mode 2 5) started))
      = sent (handle (start_sleep_mode 2 5) started)
        ++ [(ToMainWindow, update_sleep_timer hours minutes);
            (ToWidgetWindow, update_sleep_timer hours minutes)] /\
    hours * 60 + minutes = 124.
Proof.
  destruct (intervalFires_reports_remaining_time 0 125
              (handle (start_sleep_mode 2 5) started) false 0.7%Q)
    as (h & m & Hs & Ht & _); try reflexivity.
  exists h, m. split; [exact Hs | exact Ht].
Defined.

Lemma send_keeps tg msg r :
  intervals (send tg msg r) = intervals r /\
  isSleeping (send tg msg r) = isSleeping r /\
  sleepTimer (send tg msg r) = sleepTimer r /\
  widgetWindow (send tg msg r) = widgetWindow r /\
  mainWindow (send tg msg r) = mainWindow r.
Proof. unfold send. destruct (alive tg r); auto. Qed.

Lemma endedCount_send_ended t' t r :
  endedCount t' (send t sleep_mode_ended r)
  = (endedCount t' r
     + if alive t r && bool_decide (t = t') then 1 else 0)%nat.
Proof.
  unfold endedCount, send. destruct (alive t r); [|simpl; lia].
  simpl. rewrite filter_app, length_app. f_equal.
  destruct (bool_decide (t = t')) eqn:E.
  - apply bool_decide_eq_true in E as ->.
    rewrite filter_cons_True by reflexivity. reflexivity.
  - apply bool_decide_eq_false in E.
    rewrite filter_cons_False; [reflexivity|].
    intros H. inversion H. contradiction.
Qed.

Lemma wakeUp_fields p :
  isSleeping (wakeUp p) = false /\
  sleepTimer (wakeUp p) = None /\
  intervals (wakeUp p)
    = match sleepTimer p with
      | Some id => delete id (intervals p)
      | None => intervals p
      end /\
  widgetWindow (wakeUp p) = fmap (fun _ => 1.0%Q) (widgetWindow p) /\
  mainWindow (wakeUp p) = fmap (fun _ => true) (mainWindow p).
Proof.
  unfold wakeUp.
  destruct (send_keeps ToWidgetWindow sleep_mode_ended
              (send ToMainWindow sleep_mode_ended
                 (setVisible true (setOpacity 1.0%Q
                    (clearSleepTimer (setSleeping false p))))))
    as (-> & -> & -> & -> & ->).
  destruct (send_keeps ToMainWindow sleep_mode_ended
              (setVisible true (setOpacity 1.0%Q
                 (clearSleepTimer (setSleeping false p)))))
    as (-> & -> & -> & -> & ->).
  unfold clearSleepTimer. cbn [setSleeping sleepTimer].
  destruct (sleepTimer p) as [id|] eqn:E; cbn; rewrite ?E; auto.
Qed.

(** X10: in every reachable state a ['wake-up'] message ends the sleep and
    cancels the countdown, so that no later timer firing changes anything;
    it restores the widget's opacity, shows the main window and sends
    ['sleep-mode-ended'] to each live window, also when no sleep was in
    progress. *)
Theorem wake_up_cancels_countdown p :
  reachable p ->
  let q := handle wake_up p in
  isSleeping q = false /\ sleepTimer q = None /\ intervals q = ∅ /\
  (forall id, handle (interval_fires id) q = q) /\
  widgetWindow q = fmap (fun _ => 1.0%Q) (widgetWindow p) /\
  mainWindow q = fmap (fun _ => true) (mainWindow p) /\
  (forall t', endedCount t' q
              = (endedCount t' p + if alive t' p then 1 else 0)%nat).
Proof.
  intros Hr.
  destruct (SleepTimerProps.reachable_timer_invariant p Hr) as [_ H2].
  destruct (wakeUp_fields p) as (Ws & Wt & Wi & Ww & Wm).
  assert (Hi : intervals (wakeUp p) = ∅).
  { rewrite Wi. destruct (sleepTimer p) as [id|]; [|exact H2].
    destruct H2 as [t ->]. apply delete_singleton_eq. }
  cbv zeta. simpl handle.
  split; [exact Ws|]. split; [exact Wt|]. split; [exact Hi|].
  split; [|split; [exact Ww|split; [exact Wm|]]].
  - intros id. unfold intervalFires. rewrite Hi, lookup_empty. reflexivity.
  - intros t'. unfold wakeUp.
    set (p1 := setVisible true (setOpacity 1.0%Q
                 (clearSleepTimer (setSleeping false p)))).
    assert (Hsent : sent p1 = sent p).
    { subst p1. unfold clearSleepTimer, setVisible, setOpacity, setSleeping.
      cbn. destruct (sleepTimer p); reflexivity. }
    assert (Ha : forall t, alive t p1 = alive t p).
    { intros t. subst p1.
      unfold alive, clearSleepTimer, setVisible, setOpacity, setSleeping.
      cbn. destruct (sleepTimer p); cbn;
        destruct t, (mainWindow p), (widgetWindow p); reflexivity. }
    rewrite !endedCount_send_ended.
    destruct (send_keeps ToMainWindow sleep_mode_ended p1)
      as (_ & _ & _ & Kw & Km).
    assert (Ha' : alive ToWidgetWindow (send ToMainWindow sleep_mode_ended p1)
                  = alive ToWidgetWindow p).
    { unfold alive at 1. rewrite Kw. apply (Ha ToWidgetWindow). }
    rewrite Ha', (Ha ToMainWindow).
    unfold endedCount at 1. rewrite Hsent. fold (endedCount t' p).
    destruct t', (alive ToMainWindow p), (alive ToWidgetWindow p);
      simpl; lia.
Qed.

Lemma wake_up_cancels_countdown_witness :
  let q := handle wake_up (minuteTicks 3 0 (handle (start_sleep_mode 1 30)
                                             started)) in
  isSleeping q = false /\ intervals q = ∅ /\
  handle (interval_fires 0) q = q.
Proof.
  assert (Hr : reachable
                 (minuteTicks 3 0 (handle (start_sleep_mode 1 30) started))).
  { unfold minuteTicks. cbn [Nat.iter].
    do 3 apply (reachable_step (interval_fires 0)).
    apply (reachable_step (start_sleep_mode 1 30)), reachable_initial.
    repeat split; reflexivity. }
  destruct (wake_up_cancels_countdown _ Hr) as (Hs & _ & Hi & Hn & _).
  split; [exact Hs|]. split; [exact Hi | apply Hn].
Defined.

End SleepCountdownProps.

Module SleepModalProps.
Import SleepModal.
Local Open Scope Z_scope.

(** X11: the renderer sends ['start-sleep-mode'] only with 0 <= hours <= 23
    and 0 <= minutes <= 59, not both zero, so for 1 to 1439 minutes in all,
    and with values for which the start button is enabled; it sets its own
    sleeping flag exactly when it sends, and otherwise leaves it alone. *)
Theorem startSleepMode_sends_valid_time inputs isSleeping :
  match startSleepMode inputs isSleeping with
  | (flag, Some (hours, minutes)) =>
      flag = true /\
      0 <= hours <= 23 /\ 0 <= minutes <= 59 /\
      1 <= hours * 60 + minutes <= 1439 /\
      exists hoursValue minutesValue,
        inputs = Some (hoursValue, minutesValue) /\
        hours = parseIntOr0 hoursValue /\ minutes = parseIntOr0 minutesValue /\
        validateSleepTime hoursValue minutesValue = true
  | (flag, None) => flag = isSleeping
  end.
Proof.
  unfold startSleepMode, validateSleepTime.
  destruct inputs as [[hoursValue minutesValue]|]; [|reflexivity].
  cbv zeta.
  destruct (parseIntOr0 hoursValue <? 0) eqn:E1; [reflexivity|].
  destruct (23 <? parseIntOr0 hoursValue) eqn:E2; [reflexivity|].
  destruct (parseIntOr0 minutesValue <? 0) eqn:E3; [reflexivity|].
  destruct (59 <? parseIntOr0 minutesValue) eqn:E4; [reflexivity|].
  simpl.
  destruct ((parseIntOr0 hoursValue =? 0) && (parseIntOr0 minutesValue =? 0))
    eqn:E5; [reflexivity|].
  apply Z.ltb_ge in E1, E2, E3, E4.
  assert (H0 : parseIntOr0 hoursValue <> 0 \/ parseIntOr0 minutesValue <> 0).
  { apply andb_false_iff in E5 as [E|E]; apply Z.eqb_neq in E; auto. }
  split; [reflexivity|]. split; [lia|]. split; [lia|]. split; [lia|].
  exists hoursValue, minutesValue.
  split; [reflexivity|]. split; [reflexivity|]. split; [reflexivity|].
  apply orb_true_iff. rewrite !Z.ltb_lt. lia.
Qed.

End SleepModalProps.

Module SyncMoreProps.
Import SyncTrigger SyncWait.
Local Open Scope Z_scope.

(** X12: the in-flight flag stops only the first overlapping call. While a
    cycle is in flight, a call issues no request but clears the flag on its
    way out, so that the next call made by an authenticated client once the
    cooldown has passed starts a second cycle although the first has not
    finished. *)
Theorem second_cycle_starts_while_first_in_flight r ready1 now1 now2 :
  syncInProgress r = true ->
  lastSyncTime r + SYNC_COOLDOWN_MS <= now2 ->
  let c1 := triggerSyncOnOpen ready1 now1 r in
  let c2 := triggerSyncOnOpen true now2 (snd c1) in
  fst c1 <> Proceeds /\
  outbound (snd c1) = outbound r /\
  fst c2 = Proceeds /\
  outbound (snd c2) = outbound r ++ [triggerAllSourcesSync false;
                                     triggerRICURecalculation false].
Proof.
  intros Hp Hc.
  assert (H1 : triggerSyncOnOpen ready1 now1 r
               = (if negb ready1 then NotAuthenticated else AlreadyInProgress,
                  finally r)).
  { unfold triggerSyncOnOpen. rewrite Hp. destruct (negb ready1); reflexivity. }
  cbv zeta. rewrite H1. cbn [fst snd].
  split; [destruct (negb ready1); discriminate|]. split; [reflexivity|].
  unfold triggerSyncOnOpen. cbn [negb finally syncInProgress lastSyncTime].
  destruct (now2 - lastSyncTime r <? SYNC_COOLDOWN_MS) eqn:E;
    [apply Z.ltb_lt in E; lia|].
  split; reflexivity.
Qed.

Lemma second_cycle_starts_while_first_in_flight_witness :
  let r := snd (triggerSyncOnOpen true 1700000000000 loaded) in
  let c1 := triggerSyncOnOpen true 1700000200000 r in
  let c2 := triggerSyncOnOpen true 1700000300000 (snd c1) in
  syncInProgress r = true /\ fst c1 = AlreadyInProgress /\ fst c2 = Proceeds.
Proof.
  cbv zeta. split; [reflexivity|]. split; [reflexivity|].
  destruct (second_cycle_starts_while_first_in_flight
              (snd (triggerSyncOnOpen true 1700000000000 loaded))
              true 1700000200000 1700000300000)
    as (_ & _ & H & _); [reflexivity | vm_compute; discriminate | exact H].
Defined.

Lemma waitLoop_ends delay :
  (forall i, pollInterval <= delay i) ->
  forall fuel polls elapsed,
    pollInterval * Z.of_nat polls <= elapsed <= 15000 ->
    (8 <= polls + fuel)%nat ->
    exists polls' elapsed',
      waitLoop fuel delay elapsed polls = Some (polls', elapsed') /\
      (polls < polls' <= 8)%nat /\
      15000 < elapsed' /\
      elapsed' - delay (pred polls') <= 15000.
Proof.
  intros Hd. unfold pollInterval in *.
  induction fuel as [|fuel IH]; intros polls elapsed He Hf.
  - assert (8 <= polls)%nat by lia. lia.
  - cbn [waitLoop]. unfold maxWaitTime.
    destruct (elapsed <? 30000) eqn:E; [|apply Z.ltb_ge in E; lia].
    cbv zeta. pose proof (Hd polls) as Hp.
    destruct (15000 <? elapsed + delay polls) eqn:E'.
    + apply Z.ltb_lt in E'. exists (S polls), (elapsed + delay polls).
      split; [reflexivity|]. simpl. split; [|lia].
      assert (polls < 8)%nat by lia. lia.
    + apply Z.ltb_ge in E'.
      destruct (IH (S polls) (elapsed + delay polls)) as (p' & e' & R & B);
        [lia | lia |].
      exists p', e'. split; [exact R|]. lia.
Qed.

(** X13: [waitForSyncCompletion] always ends, after at least one and at most
    eight waits, as soon as more than 15 seconds have passed; since the
    time before the last wait is at most 15 seconds, the 30 second limit in
    the loop condition never ends it. With timers that fire exactly on
    time it makes eight waits and takes 16 seconds. *)
Theorem waitForSyncCompletion_ends delay (fuel : nat) :
  (forall i, pollInterval <= delay i) ->
  (8 <= fuel)%nat ->
  exists polls elapsed,
    waitForSyncCompletion fuel delay = Some (polls, elapsed) /\
    (1 <= polls <= 8)%nat /\
    15000 < elapsed /\
    elapsed - delay (pred polls) <= 15000 /\
    ((forall i, delay i = pollInterval) -> polls = 8%nat /\ elapsed = 16000).
Proof.
  intros Hd Hf.
  destruct (waitLoop_ends delay Hd fuel 0 0) as (polls & elapsed & R & Hp & He & Hl);
    [unfold pollInterval; lia | lia |].
  exists polls, elapsed. split; [exact R|]. split; [lia|].
  split; [exact He|]. split; [exact Hl|].
  intros Hex. unfold waitForSyncCompletion in *.
  destruct fuel as [|[|[|[|[|[|[|[|fuel]]]]]]]]; try lia.
  cbn in R. rewrite !Hex in R. cbn in R. injection R as <- <-. auto.
Qed.

Lemma waitForSyncCompletion_ends_witness :
  exists polls elapsed,
    waitForSyncCompletion 10 (fun i => 2000 + Z.of_nat i * 700)
      = Some (polls, elapsed) /\
    (1 <= polls <= 8)%nat /\ 15000 < elapsed.
Proof.
  destruct (waitForSyncCompletion_ends (fun i => 2000 + Z.of_nat i * 700) 10)
    as (polls & elapsed & R & Hp & He & _).
  - intros i. unfold pollInterval. lia.
  - lia.
  - exists polls, elapsed. auto.
Defined.

End SyncMoreProps.

Module TaskListProps.
Import DragReorder TaskList.
Local Open Scope Q_scope.

Lemma insertTask_permutation task sorted :
  Permutation (insertTask task sorted) (task :: sorted).
Proof.
  induction sorted as [|other rest IH]; simpl; [reflexivity|].
  destruct (Qle_bool (sortKey other) (sortKey task)); [reflexivity|].
  rewrite IH. apply perm_swap.
Qed.

Lemma insertTask_descending task sorted :
  StronglySorted (fun a b => sortKey b <= sortKey a) sorted ->
  StronglySorted (fun a b => sortKey b <= sortKey a) (insertTask task sorted).
Proof.
  induction 1 as [|other rest Hs IH Hall]; simpl.
  - repeat constructor.
  - destruct (Qle_bool (sortKey other) (sortKey task)) eqn:E.
    + apply Qle_bool_iff in E.
      constructor; [constructor; assumption|].
      constructor; [exact E|].
      eapply Forall_impl; [exact Hall|].
      intros b Hb. simpl in Hb. eapply Qle_trans; eassumption.
    + assert (Hlt : sortKey task <= sortKey other).
      { destruct (Qlt_le_dec (sortKey task) (sortKey other)) as [L|L].
        - apply Qlt_le_weak, L.
        - apply Qle_bool_iff in L. congruence. }
      constructor; [exact IH|].
      rewrite (Forall_forall (fun b => sortKey b <= sortKey other)).
      intros b Hb.
      rewrite (insertTask_permutation task rest) in Hb.
      apply elem_of_cons in Hb as [->|Hb]; [exact Hlt|].
      rewrite (Forall_forall (fun b => sortKey b <= sortKey other)) in Hall.
      apply Hall, Hb.
Qed.

(** X14: the order in which [renderTasks] shows the tasks is a
    rearrangement of the tasks it was given, none lost or repeated, with
    the keys [ricu || 0] never increasing from one row to the next. *)
Theorem sortTasks_descending_permutation tasks :
  Permutation (sortTasks tasks) tasks /\
  StronglySorted (fun a b => sortKey b <= sortKey a) (sortTasks tasks).
Proof.
  unfold sortTasks. induction tasks as [|task tasks [IHp IHs]]; simpl.
  - split; constructor.
  - split.
    + rewrite insertTask_permutation. constructor. exact IHp.
    + apply insertTask_descending, IHs.
Qed.

Lemma nonzero_not_eq_bool q : 0.51 <= q -> Qeq_bool q 0 = false.
Proof.
  intros H. apply not_true_iff_false. intros E.
  apply Qeq_bool_iff in E. lra.
Qed.

Lemma ricuScore_bounds task : 0.51 <= ricuScore task <= 50.
Proof.
  unfold ricuScore. split.
  - apply Q.min_glb; [lra | apply Q.le_max_l].
  - apply Q.le_min_l.
Qed.

Lemma ricuScore_of_valid task q :
  ricu task = Num q -> 0.51 <= q <= 50 ->
  orOne (Num (ricuScore task)) == q /\ sortKey task = q.
Proof.
  intros Hr [Hl Hu]. split.
  - simpl. rewrite (nonzero_not_eq_bool _ (proj1 (ricuScore_bounds task))).
    unfold ricuScore. rewrite Hr, (nonzero_not_eq_bool q Hl).
    rewrite (Q.max_r 0.51 q Hl). apply Q.min_r, Hu.
  - unfold sortKey, orElse. rewrite Hr, (nonzero_not_eq_bool q Hl).
    reflexivity.
Qed.

(** X15: every row [renderTasks] produces carries a [data-ricu] between
    0.51 and 50, one row per task; and when every task has a score of its
    own within that range, the scores shown never increase from one row to
    the next. *)
Theorem renderTasks_rows tasks :
  length (renderTasks tasks) = length tasks /\
  Forall (fun v => exists q, v = Num q /\ 0.51 <= q <= 50)
    (renderTasks tasks) /\
  (Forall (fun task => exists q, ricu task = Num q /\ 0.51 <= q <= 50) tasks ->
   StronglySorted (fun a b => orOne b <= orOne a) (renderTasks tasks)).
Proof.
  destruct (sortTasks_descending_permutation tasks) as [Hp Hs].
  unfold renderTasks. split; [|split].
  - rewrite length_map. apply Permutation_length, Hp.
  - apply Forall_map, Forall_forall. intros task _. simpl.
    eexists. split; [reflexivity | apply ricuScore_bounds].
  - intros Hv. rewrite <- Hp in Hv. clear Hp.
    induction Hs as [|task rest Hs IH Hall]; simpl; [constructor|].
    apply Forall_cons in Hv as [(q & Hq & Hb) Hv].
    constructor; [apply IH, Hv|].
    apply Forall_map.
    rewrite (Forall_forall (fun b => sortKey b <= sortKey task)) in Hall.
    rewrite (Forall_forall _ rest) in Hv.
    apply Forall_forall. intros other Ho.
    destruct (Hv other Ho) as (q' & Hq' & Hb').
    destruct (ricuScore_of_valid task q Hq Hb) as [E1 E2].
    destruct (ricuScore_of_valid other q' Hq' Hb') as [E1' E2'].
    specialize (Hall other Ho). rewrite E2, E2' in Hall.
    cbv beta. rewrite E1, E1'. exact Hall.
Qed.

Lemma renderTasks_rows_witness :
  let tasks := [mkTask "a" (Num 4) NaN NaN NaN NaN;
                mkTask "b" (Num 12.5) NaN NaN NaN NaN;
                mkTask "c" (Num 0.75) NaN NaN NaN NaN] in
  map orOne (renderTasks tasks) = [12.5; 4; 0.75] /\
  StronglySorted (fun a b => orOne b <= orOne a) (renderTasks tasks).
Proof.
  split; [reflexivity|].
  apply (renderTasks_rows [mkTask "a" (Num 4) NaN NaN NaN NaN;
                           mkTask "b" (Num 12.5) NaN NaN NaN NaN;
                           mkTask "c" (Num 0.75) NaN NaN NaN NaN]).
  repeat constructor; eexists; (split; [reflexivity|]);
    split; vm_compute; discriminate.
Defined.

End TaskListProps.

Module DragMoreProps.
Import DragReorder TaskList.
Local Open Scope Q_scope.

Lemma round2_monotone a b : a <= b -> round2 a <= round2 b.
Proof.
  intros H. unfold round2, Math_round.
  apply DragReorderProps.hundredths_le, Qfloor_resp_le. lra.
Qed.

Lemma clampRicu_inside v : 0.51 <= v <= 50 -> clampRicu v == v.
Proof.
  intros [Hl Hu]. unfold clampRicu.
  rewrite (Q.max_r 0.51 v Hl). apply Q.min_r, Hu.
Qed.

Lemma orOne_of_positive q : 0 < q -> orOne (Num q) = q.
Proof.
  intros H. simpl. destruct (Qeq_bool q 0) eqn:E; [|reflexivity].
  apply Qeq_bool_iff in E. lra.
Qed.

(** X16: a task dropped between two rows whose scores are whole hundredths
    in [0.51, 50], the row above not lower than the row below, gets a score
    between the two, both ends included. *)
Theorem drag_between_neighbours taskRows draggedRicu originalIndex newIndex
    above below (ka kb : Z) :
  (1 <= newIndex < Z.of_nat (length taskRows) - 1)%Z ->
  newIndex <> originalIndex ->
  rowAt taskRows (newIndex - 1) = Some (Num above) ->
  rowAt taskRows (newIndex + 1) = Some (Num below) ->
  above == inject_Z ka / 100 -> below == inject_Z kb / 100 ->
  0.51 <= below -> below <= above -> above <= 50 ->
  exists newRicu,
    handleMouseUp taskRows draggedRicu originalIndex newIndex
      = NewRicu newRicu /\
    below <= newRicu <= above.
Proof.
  intros Hi Hne Ha Hb Hka Hkb Hl Hm Hu.
  unfold handleMouseUp, neighbourRicu.
  destruct (newIndex =? originalIndex)%Z eqn:E0; [lia|].
  destruct (Z.of_nat (length taskRows) =? 1)%Z eqn:E1; [lia|].
  destruct (newIndex =? 0)%Z eqn:E2; [lia|].
  destruct (newIndex =? Z.of_nat (length taskRows) - 1)%Z eqn:E3; [lia|].
  rewrite Ha, Hb. cbn [mbind option_bind].
  rewrite (orOne_of_positive above) by lra.
  rewrite (orOne_of_positive below) by lra.
  eexists. split; [reflexivity|].
  assert (Hc : clampRicu ((above + below) / 2) == (above + below) / 2).
  { apply clampRicu_inside. split.
    - apply Qle_shift_div_l; lra.
    - apply Qle_shift_div_r; lra. }
  rewrite (DragReorderProps.round2_comp _ _ Hc).
  pose proof (DragReorderProps.round2_hundredths kb below Hkb) as Rb.
  pose proof (DragReorderProps.round2_hundredths ka above Hka) as Ra.
  split.
  - apply Qle_trans with (round2 below); [rewrite Rb; apply Qle_refl|].
    apply round2_monotone, Qle_shift_div_l; lra.
  - apply Qle_trans with (round2 above); [|rewrite Ra; apply Qle_refl].
    apply round2_monotone, Qle_shift_div_r; lra.
Qed.

Lemma drag_between_neighbours_witness :
  exists newRicu,
    handleMouseUp [Num 10; Num 2; Num 9.99; Num 3] (Num 2) 3 1
      = NewRicu newRicu /\
    9.99 <= newRicu <= 10.
Proof.
  apply (drag_between_neighbours [Num 10; Num 2; Num 9.99; Num 3] (Num 2) 3 1
           10 9.99 1000 999); try reflexivity; try (simpl; lia);
    vm_compute; discriminate.
Defined.

(** X17: a task dropped at the bottom of a list of n >= 2 rows gets a
    score that is a whole number of hundredths within 0.006 of
    max(0.51, r - 0.5) clamped to [0.51, 50], where r is the parsed score
    of the row above (1 when it is 0 or not a number): the nearest
    hundredth, either of the two when the value lies about halfway between
    them; exactly r - 0.5 when r is a whole number of hundredths between
    1.01 and 50.5, and the floor 0.51 when r is at most 1.01. *)
Theorem drag_to_bottom_score taskRows draggedRicu originalIndex :
  (2 <= length taskRows)%nat ->
  originalIndex <> (Z.of_nat (length taskRows) - 1)%Z ->
  exists above newRicu,
    rowAt taskRows (Z.of_nat (length taskRows) - 2) = Some above /\
    handleMouseUp taskRows draggedRicu originalIndex
        (Z.of_nat (length taskRows) - 1)
      = NewRicu newRicu /\
    (exists n : Z, newRicu == inject_Z n / 100) /\
    clampRicu (Qmax 0.51 (orOne above - 0.5)) - 0.006 < newRicu /\
    newRicu < clampRicu (Qmax 0.51 (orOne above - 0.5)) + 0.006 /\
    (forall k : Z, (101 <= k <= 5050)%Z -> orOne above == inject_Z k / 100 ->
       newRicu == orOne above - 0.5) /\
    (orOne above <= 1.01 -> newRicu == 0.51).
Proof.
  intros Hn Ho.
  destruct (DragReorderProps.rowAt_in_range taskRows
              (Z.of_nat (length taskRows) - 2)) as [above Ha]; [lia|].
  exists above, (round2 (clampRicu (Qmax 0.51 (orOne above - 0.5)))).
  split; [exact Ha|]. split; [|split; [|split; [|split; [|split]]]].
  - unfold handleMouseUp, neighbourRicu.
    destruct (Z.of_nat (length taskRows) - 1 =? originalIndex)%Z eqn:E0;
      [lia|].
    destruct (Z.of_nat (length taskRows) =? 1)%Z eqn:E1; [lia|].
    destruct (Z.of_nat (length taskRows) - 1 =? 0)%Z eqn:E2; [lia|].
    rewrite Z.eqb_refl.
    replace (Z.of_nat (length taskRows) - 1 - 1)%Z
      with (Z.of_nat (length taskRows) - 2)%Z by lia.
    rewrite Ha. reflexivity.
  - apply DragReorderProps.round2_clampRicu_bounds.
  - pose proof (DragReorderProps.round2_near
                  (clampRicu (Qmax 0.51 (orOne above - 0.5)))). lra.
  - pose proof (DragReorderProps.round2_near
                  (clampRicu (Qmax 0.51 (orOne above - 0.5)))). lra.
  - intros k Hk Hr.
    assert (Hk1 : inject_Z 101 <= inject_Z k) by (rewrite <- Zle_Qle; lia).
    assert (Hk2 : inject_Z k <= inject_Z 5050) by (rewrite <- Zle_Qle; lia).
    change (inject_Z 101) with 101 in Hk1.
    change (inject_Z 5050) with 5050 in Hk2.
    assert (Hb : 1.01 <= orOne above <= 50.5).
    { rewrite Hr. split.
      - apply Qle_shift_div_l; lra.
      - apply Qle_shift_div_r; lra. }
    assert (Hm : Qmax 0.51 (orOne above - 0.5) == orOne above - 0.5)
      by (apply Q.max_r; lra).
    assert (Hc : clampRicu (Qmax 0.51 (orOne above - 0.5))
                 == orOne above - 0.5).
    { rewrite (clampRicu_inside (Qmax 0.51 (orOne above - 0.5))).
      - exact Hm.
      - rewrite Hm. lra. }
    rewrite (DragReorderProps.round2_comp _ _ Hc).
    apply (DragReorderProps.round2_hundredths (k - 50)).
    rewrite Hr. unfold Zminus. rewrite inject_Z_plus.
    change (inject_Z (- (50))) with (-50). field.
  - intros Hs.
    assert (Hm : Qmax 0.51 (orOne above - 0.5) == 0.51)
      by (apply Q.max_l; lra).
    assert (Hc : clampRicu (Qmax 0.51 (orOne above - 0.5)) == 0.51).
    { rewrite (clampRicu_inside (Qmax 0.51 (orOne above - 0.5))).
      - exact Hm.
      - rewrite Hm. lra. }
    rewrite (DragReorderProps.round2_comp _ _ Hc).
    apply (DragReorderProps.round2_hundredths 51). reflexivity.
Qed.

Lemma drag_to_bottom_score_witness :
  exists q,
    handleMouseUp [Num 6; Num 2; Num 10] (Num 10) 0 2 = NewRicu q /\
    q == 1.5.
Proof.
  destruct (drag_to_bottom_score [Num 6; Num 2; Num 10] (Num 10) 0)
    as (above & newRicu & Ha & Hh & _ & _ & _ & Hk & _);
    [simpl; lia | simpl; lia |].
  simpl in Ha. injection Ha as <-. simpl Z.of_nat in Hh. simpl Z.sub in Hh.
  exists newRicu. split; [exact Hh|].
  apply (Hk 200%Z); [lia | reflexivity].
Defined.

(** The fields read with [|| 1] are never zero. *)
Lemma orOne_nonzero v : ~ orOne v == 0.
Proof.
  destruct v as [|q]; simpl; [discriminate|].
  destruct (Qeq_bool q 0) eqn:E; [discriminate|].
  apply Qeq_bool_neq, E.
Qed.

(** X18: [updateTaskPriority] changes the row's [data-ricu] only after the
    PATCH request has succeeded, and then to the new score; the impact it
    sends always lies in [1, 10]; and when the impact needed for the new
    score lies in that range, the impact sent gives back the new score:
    impact * (reach * confidence) / urgency = newRicu, each field read as
    [field || 1]. *)
Theorem updateTaskPriority_consistent apiClient getTask updateTask newRicu
    attribute :
  let '(request, attribute', feedback) :=
    updateTaskPriority apiClient getTask updateTask newRicu attribute in
  (attribute' = attribute \/
   (attribute' = Num newRicu /\ feedback = SuccessFeedback /\
    exists update, request = Some update /\ updateTask update = true)) /\
  (feedback = SuccessFeedback -> attribute' = Num newRicu) /\
  forall update, request = Some update ->
    newRicuSent update = newRicu /\
    1 <= impact update <= 10 /\
    exists task, getTask = Some task /\
      (1 <= requiredImpact task newRicu <= 10 ->
       impact update * (orOne (reach task) * orOne (confidence task))
         / orOne (urgency task) == newRicu).
Proof.
  unfold updateTaskPriority.
  destruct apiClient; simpl.
  2: { split; [auto|]. split; [discriminate|]. discriminate. }
  destruct getTask as [task|].
  2: { split; [auto|]. split; [discriminate|]. discriminate. }
  cbv zeta.
  assert (Hb : 1 <= Qmax 1 (Qmin 10 (requiredImpact task newRicu)) <= 10).
  { split; [apply Q.le_max_l|].
    apply Q.max_lub; [lra | apply Q.le_min_l]. }
  assert (Hr : 1 <= requiredImpact task newRicu <= 10 ->
               Qmax 1 (Qmin 10 (requiredImpact task newRicu))
                 * (orOne (reach task) * orOne (confidence task))
                 / orOne (urgency task) == newRicu).
  { intros [Hl Hu].
    assert (E : Qmax 1 (Qmin 10 (requiredImpact task newRicu))
                == requiredImpact task newRicu).
    { rewrite (Q.min_r 10 _ Hu). apply Q.max_r, Hl. }
    rewrite E. unfold requiredImpact.
    pose proof (orOne_nonzero (reach task)).
    pose proof (orOne_nonzero (confidence task)).
    pose proof (orOne_nonzero (urgency task)).
    field. auto. }
  destruct (updateTask _) eqn:Eu.
  - split; [right; split; [reflexivity|split; [reflexivity|eauto]]|].
    split; [reflexivity|].
    intros update [= <-]. simpl. split; [reflexivity|]. split; [exact Hb|].
    exists task. split; [reflexivity | exact Hr].
  - split; [auto|]. split; [discriminate|].
    intros update [= <-]. simpl. split; [reflexivity|]. split; [exact Hb|].
    exists task. split; [reflexivity | exact Hr].
Qed.

End DragMoreProps.

Module ApiClientMoreProps.
Import ApiClient.
Local Open Scope string_scope.
Local Open Scope list_scope.
Local Open Scope Z_scope.

Lemma substring_0_length (m : nat) : forall s,
  (String.length (String.substring 0 m s) <= m)%nat.
Proof.
  induction m as [|m IH]; intros [|c s]; simpl; try lia.
  specialize (IH s). lia.
Qed.

Lemma substring_0_prefix (m : nat) : forall s,
  String.prefix (String.substring 0 m s) s = true.
Proof.
  induction m as [|m IH]; intros [|c s]; simpl; try reflexivity.
  destruct (Ascii.ascii_dec c c) as [_|N]; [apply IH | contradiction].
Qed.

Lemma substring_0_short (m : nat) : forall s,
  (String.length s <= m)%nat -> String.substring 0 m s = s.
Proof.
  induction m as [|m IH]; intros [|c s]; simpl; intros H;
    try reflexivity; try lia.
  f_equal. apply IH. lia.
Qed.

Lemma append_length (a b : string) :
  String.length (a +:+ b) = (String.length a + String.length b)%nat.
Proof. induction a as [|c a IH]; simpl; [reflexivity | rewrite IH; lia]. Qed.

(** X19: [handleResponse] returns a result only for a response that is not
    a 429, has a 2xx status and a content type naming application/json, and
    whose body parses to something other than [null]; the result is then
    marked "success" and carries [data.data] when that is truthy and the
    whole body otherwise. *)
Theorem handleResponse_returns_only_json_2xx response result :
  handleResponse response = Returns result ->
  status response <> 429 /\
  ok response = true /\
  (exists ct, contentType response = Some ct /\
              includes ct "application/json" = true) /\
  exists data,
    json response = Parsed data /\ data <> JNull /\
    resultStatus result = "success" /\
    exists d m,
      getProperty data "data" = Returns d /\
      getProperty data "message" = Returns m /\
      resultMessage result = m /\
      resultData result
        = match d with
          | Some d' => if truthy d' then d' else data
          | None => data
          end.
Proof.
  unfold handleResponse.
  destruct (status response =? 429) eqn:E429; [discriminate|].
  apply Z.eqb_neq in E429.
  destruct (contentType response) as [ct|]; [|discriminate].
  destruct (includes ct "application/json") eqn:Ei; [|discriminate].
  destruct (json response) as [msg|data]; [discriminate|].
  destruct (ok response) eqn:Eok; simpl.
  - destruct (getProperty data "data") as [d|e] eqn:Ed; [|discriminate].
    destruct (getProperty data "message") as [m|e] eqn:Em; [|discriminate].
    intros [= <-].
    split; [exact E429|]. split; [reflexivity|]. split; [eauto|].
    exists data. split; [reflexivity|]. split.
    { intros ->. discriminate. }
    split; [reflexivity|]. exists d, m. auto.
  - destruct (getProperty data "message") as [[m|]|e];
      [destruct (truthy m)| |]; discriminate.
Qed.

Lemma handleResponse_returns_only_json_2xx_witness :
  let response :=
    mkResponse 200 "OK" (Some "application/json; charset=utf-8") "{...}"
      (Parsed (JObj [("status", JStr "success");
                     ("data", JObj [("tasks", JNull)])])) in
  exists result,
    handleResponse response = Returns result /\
    ok response = true /\
    resultData result = JObj [("tasks", JNull)].
Proof.
  eexists. split; [reflexivity|].
  destruct (handleResponse_returns_only_json_2xx
              (mkResponse 200 "OK" (Some "application/json; charset=utf-8")
                 "{...}"
                 (Parsed (JObj [("status", JStr "success");
                                ("data", JObj [("tasks", JNull)])])))
              _ eq_refl) as (_ & Hok & _).
  split; [exact Hok | reflexivity].
Defined.

(** X20: a response other than a 429 whose content type does not name
    application/json is answered by an [Error] whose message is
    "Expected JSON response, got: " followed by the first 100 characters of
    the body: at most 129 characters in all, and the whole body when it has
    no more than 100. *)
Theorem handleResponse_not_json_excerpt response :
  status response <> 429 ->
  (forall ct, contentType response = Some ct ->
              includes ct "application/json" = false) ->
  exists excerpt,
    handleResponse response
      = Throws (Error ("Expected JSON response, got: " +:+ excerpt)) /\
    (String.length excerpt <= 100)%nat /\
    String.prefix excerpt (text response) = true /\
    ((String.length (text response) <= 100)%nat -> excerpt = text response) /\
    (String.length ("Expected JSON response, got: " +:+ excerpt) <= 129)%nat.
Proof.
  intros Hs Hc. exists (String.substring 0 100 (text response)).
  pose proof (substring_0_length 100 (text response)) as Hl.
  split; [|split; [exact Hl|split; [apply substring_0_prefix|split]]].
  - unfold handleResponse.
    destruct (status response =? 429) eqn:E; [apply Z.eqb_eq in E; lia|].
    destruct (contentType response) as [ct|] eqn:Ect; [|reflexivity].
    rewrite (Hc ct eq_refl). reflexivity.
  - apply substring_0_short.
  - rewrite append_length.
    change (String.length "Expected JSON response, got: ") with 29%nat.
    lia.
Qed.

Lemma handleResponse_not_json_excerpt_witness :
  exists excerpt,
    handleResponse (mkResponse 502 "Bad Gateway" (Some "text/html")
                      "<html>Bad Gateway</html>" (Malformed "Unexpected <"))
      = Throws (Error ("Expected JSON response, got: " +:+ excerpt)) /\
    excerpt = "<html>Bad Gateway</html>".
Proof.
  destruct (handleResponse_not_json_excerpt
              (mkResponse 502 "Bad Gateway" (Some "text/html")
                 "<html>Bad Gateway</html>" (Malformed "Unexpected <")))
    as (excerpt & Hh & _ & _ & Hs & _).
  - simpl. lia.
  - intros ct [= <-]. reflexivity.
  - exists excerpt. split; [exact Hh|]. apply Hs. simpl. lia.
Defined.

End ApiClientMoreProps.

Module AuthInitProps.
Import Auth.
Local Open Scope string_scope.
Local Open Scope list_scope.
Local Open Scope Z_scope.

Lemma truthy_stored o : truthy o = true -> nonEmpty (stored o) = true.
Proof. destruct o; simpl; [intros H; exact H|discriminate]. Qed.

Lemma truthy_is_Some o : truthy o = true -> is_Some o.
Proof. destruct o; [eauto|discriminate]. Qed.

Section Init.
Context {User : Type}.
Variable JSON_parse : string -> Parsed User.
Variable server : nat -> Request -> FetchResult.

Implicit Types s : Service User.

Lemma notifyListeners_effect s :
  notifyListeners s
  = (tt, mkService (<[AUTH_STATE := authState s]> (localStorage s)) (user s)
           (authState s) (notified s ++ [(authState s, user s)]) (fetched s)).
Proof. reflexivity. Qed.

Lemma clearAuthData_quiet s :
  clearAuthData true s
  = (tt, mkService
           (delete AUTH_STATE
              (delete USER_DATA
                 (delete REFRESH_TOKEN
                    (delete ACCESS_TOKEN (localStorage s)))))
           None "unauthenticated" (notified s) (fetched s)).
Proof. reflexivity. Qed.

(** A refresh chain that succeeds leaves the user, the state and the
    notifications as they were. *)
Lemma refreshAttempts_granted n : forall s,
  fst (refreshAttempts server n s) = true ->
  user (snd (refreshAttempts server n s)) = user s /\
  authState (snd (refreshAttempts server n s)) = authState s /\
  notified (snd (refreshAttempts server n s)) = notified s /\
  is_Some (localStorage (snd (refreshAttempts server n s)) !! ACCESS_TOKEN).
Proof.
  induction n as [|n IH]; intros s; rewrite AuthProps.refreshAttempts_unfold;
    cbv zeta.
  all: destruct (negb (truthy (localStorage s !! REFRESH_TOKEN)));
    [discriminate|].
  all: destruct (server (length (fetched s))
                   (POST_auth_refresh
                      (stored (localStorage s !! REFRESH_TOKEN))))
         as [|response].
  all: try destruct (ok response); try discriminate.
  all: try destruct (body response) as [|data]; try discriminate.
  all: try (intros H; apply (IH (afterFetch _ s)) in H; exact H).
  all: intros _; unfold storeTokens;
    cbv beta iota zeta delta [bind setItem ret afterFetch];
    destruct (truthy _); simpl; repeat split; try reflexivity.
  all: rewrite ?lookup_insert_ne by AuthProps.distinct_keys.
  all: rewrite lookup_insert_eq; eauto.
Qed.

Lemma init_shape s :
  exists s1,
    init JSON_parse server s
    = (let '(_, s') := notifyListeners s1 in (authState s', s')) /\
    (authState s1 = "authenticated" ->
     is_Some (user s1) /\ is_Some (localStorage s1 !! ACCESS_TOKEN)) /\
    (truthy (localStorage s !! ACCESS_TOKEN) = false ->
     fetched s1 = fetched s /\ authState s1 <> "authenticated").
Proof.
  unfold init.
  cbv beta iota zeta delta [bind getItem ret setAuthState setUser getUser
                            getAuthState].
  set (loaded := if truthy (localStorage s !! AUTH_STATE)
                 then stored (localStorage s !! AUTH_STATE)
                 else "unauthenticated").
  cbn [user localStorage authState notified fetched].
  destruct (if truthy (localStorage s !! USER_DATA)
            then JSON_parse (stored (localStorage s !! USER_DATA))
            else Falsy) as [| |u] eqn:Ep.
  - eexists. split; [reflexivity|].
    cbn [authState fetched]. split; [discriminate|].
    intros _. split; [reflexivity|discriminate].
  - destruct (truthy (localStorage s !! ACCESS_TOKEN)) eqn:Ht.
    + rewrite bool_decide_eq_false_2 by (intros [? ?]; discriminate).
      cbn [andb negb]. rewrite clearAuthData_quiet.
      eexists. split; [reflexivity|].
      cbn [authState fetched]. split; discriminate.
    + cbn [andb negb user localStorage authState notified fetched].
      destruct (String.eqb loaded "authenticated") eqn:El.
            * rewrite clearAuthData_quiet.
        eexists. split; [reflexivity|].
        cbn [authState fetched]. split; [discriminate|].
        intros _. split; [reflexivity|discriminate].
      * eexists. split; [reflexivity|].
        cbn [authState fetched]. apply String.eqb_neq in El.
        split; [intros E; destruct (El E)|].
        intros _. split; [reflexivity|exact El].
  - destruct (truthy (localStorage s !! ACCESS_TOKEN)) eqn:Ht.
    + rewrite bool_decide_eq_true_2 by eauto.
      cbn [andb negb].
      rewrite (AuthProps.verifyToken_verifies server _ _ (truthy_stored _ Ht)).
      destruct (verifies _).
      * eexists. split; [reflexivity|].
        cbn [authState fetched user localStorage afterFetch].
        split; [|discriminate].
        intros _. split; [eauto|]. apply truthy_is_Some, Ht.
      * destruct (truthy (localStorage s !! REFRESH_TOKEN)).
        -- unfold refreshAccessToken. change (2 - 0)%nat with 2%nat.
           match goal with
           | |- context [refreshAttempts server 2 ?X] =>
               pose proof (refreshAttempts_granted 2 X) as Hg;
               destruct (refreshAttempts server 2 X) as [[|] s2]
           end.
           ++ cbn [negb]. eexists. split; [reflexivity|].
              destruct (Hg eq_refl) as (Hu & _ & _ & Ha).
              cbn [fst snd] in Hu, Ha.
              split; [|discriminate].
              intros _. split; [|exact Ha].
              rewrite Hu. cbn [user afterFetch]. eauto.
           ++ cbn [negb]. rewrite clearAuthData_quiet.
              eexists. split; [reflexivity|].
              cbn [authState fetched]. split; discriminate.
        -- rewrite clearAuthData_quiet.
           eexists. split; [reflexivity|].
           cbn [authState fetched]. split; discriminate.
    + cbn [andb negb user localStorage authState notified fetched].
      destruct (String.eqb loaded "authenticated") eqn:El.
      * rewrite clearAuthData_quiet.
        eexists. split; [reflexivity|].
        cbn [authState fetched]. split; [discriminate|].
        intros _. split; [reflexivity|discriminate].
      * eexists. split; [reflexivity|].
        cbn [authState fetched]. apply String.eqb_neq in El.
        split; [intros E; destruct (El E)|].
        intros _. split; [reflexivity|exact El].
Qed.

(** X22: whatever is stored and whatever the server answers, [init()]
    ends by persisting and announcing the state it returns: the returned
    state is the service's state, it is what [localStorage] holds under the
    auth-state key, and the last call of the listeners carried it together
    with the final user. *)
Theorem init_persists_and_announces s :
  let run := init JSON_parse server s in
  authState (snd run) = fst run /\
  localStorage (snd run) !! AUTH_STATE = Some (fst run) /\
  exists earlier,
    notified (snd run) = earlier ++ [(fst run, user (snd run))].
Proof.
  destruct (init_shape s) as (s1 & E & _).
  cbv zeta. rewrite E, notifyListeners_effect. cbn [fst snd authState
    localStorage notified user].
  split; [reflexivity|]. split; [apply lookup_insert_eq|].
  exists (notified s1). reflexivity.
Qed.

(** X23: [init()] returns "authenticated" only when it leaves a user in
    memory and an access token in [localStorage]. *)
Theorem init_authenticated_has_session s :
  let run := init JSON_parse server s in
  fst run = "authenticated" ->
  is_Some (user (snd run)) /\
  is_Some (localStorage (snd run) !! ACCESS_TOKEN).
Proof.
  destruct (init_shape s) as (s1 & E & Ha & _).
  cbv zeta. rewrite E, notifyListeners_effect.
  cbn [fst snd authState localStorage notified user].
  intros H. destruct (Ha H) as [Hu Ht]. split; [exact Hu|].
  rewrite lookup_insert_ne by AuthProps.distinct_keys. exact Ht.
Qed.

(** X24: without a stored access token [init()] sends no request at all
    and never reports "authenticated", whatever state was persisted. *)
Theorem init_without_token s :
  truthy (localStorage s !! ACCESS_TOKEN) = false ->
  let run := init JSON_parse server s in
  fetched (snd run) = fetched s /\ fst run <> "authenticated".
Proof.
  intros Ht. destruct (init_shape s) as (s1 & E & _ & Hn).
  cbv zeta. rewrite E, notifyListeners_effect.
  cbn [fst snd authState fetched]. exact (Hn Ht).
Qed.

(** X25: stored user data that is not valid JSON makes [init()] end in
    its [catch] block: it reports "unauthenticated" without a request,
    but nothing is cleared; the tokens and the corrupt user data stay in
    [localStorage], only the persisted state is rewritten, and the user in
    memory is left as it was. *)
Theorem init_corrupt_user_data s :
  truthy (localStorage s !! USER_DATA) = true ->
  JSON_parse (stored (localStorage s !! USER_DATA)) = SyntaxError ->
  let run := init JSON_parse server s in
  fst run = "unauthenticated" /\
  localStorage (snd run)
    = <[AUTH_STATE := "unauthenticated"]> (localStorage s) /\
  user (snd run) = user s /\
  fetched (snd run) = fetched s /\
  notified (snd run) = notified s ++ [("unauthenticated", user s)].
Proof.
  intros Ht Hp. cbv zeta. unfold init.
  cbv beta iota zeta delta [bind getItem ret setAuthState setUser getUser
                            getAuthState].
  rewrite Ht, Hp. rewrite notifyListeners_effect.
  cbn [fst snd user localStorage authState notified fetched].
  repeat split; reflexivity.
Qed.

(** X26: a token returned by [getAccessToken()] is the access token that
    [localStorage] holds when the call ends, and a call that returns a
    token is silent: user, state and notifications are as before. *)
Theorem getAccessToken_returns_stored_token s token :
  let run := getAccessToken server s in
  fst run = Some token ->
  localStorage (snd run) !! ACCESS_TOKEN = Some token /\
  user (snd run) = user s /\
  authState (snd run) = authState s /\
  notified (snd run) = notified s.
Proof.
  cbv zeta. unfold getAccessToken.
  cbv beta iota zeta delta [bind getItem ret].
  destruct (truthy (localStorage s !! ACCESS_TOKEN)) eqn:Ht;
    cbn [negb]; [|discriminate].
  rewrite (AuthProps.verifyToken_verifies server _ _ (truthy_stored _ Ht)).
  destruct (verifies _); cbn [negb].
  - cbn [fst snd afterFetch localStorage user authState notified].
    intros E. repeat split; try reflexivity. exact E.
  - unfold refreshAccessToken. change (2 - 0)%nat with 2%nat.
    match goal with
    | |- context [refreshAttempts server 2 ?X] =>
        pose proof (refreshAttempts_granted 2 X) as Hg;
        destruct (refreshAttempts server 2 X) as [[|] s2]
    end; [|discriminate].
    destruct (Hg eq_refl) as (Hu & Hs & Hn & _).
    cbn [fst snd] in Hu, Hs, Hn |- *. intros E. repeat split; assumption.
Qed.

(** X27: when a token is stored and [getAccessToken()] still returns
    [null], the user has been logged out: the state is "unauthenticated",
    the user is gone and the tokens and the user data have been removed
    from [localStorage]. *)
Theorem getAccessToken_null_logs_out s :
  truthy (localStorage s !! ACCESS_TOKEN) = true ->
  let run := getAccessToken server s in
  fst run = None -> sessionCleared (snd run).
Proof.
  intros Ht. cbv zeta. unfold getAccessToken.
  cbv beta iota zeta delta [bind getItem ret].
  rewrite Ht. cbn [negb].
  rewrite (AuthProps.verifyToken_verifies server _ _ (truthy_stored _ Ht)).
  destruct (verifies _); cbn [negb].
  - cbn [fst]. intros E. rewrite E in Ht. discriminate.
  - unfold refreshAccessToken. change (2 - 0)%nat with 2%nat.
    match goal with
    | |- context [refreshAttempts server 2 ?X] =>
        pose proof (refreshAttempts_granted 2 X) as Hg;
        destruct (AuthProps.refreshAttempts_chain server 2 X)
          as (n & _ & _ & _ & _ & Hc & _);
        destruct (refreshAttempts server 2 X) as [[|] s2]
    end.
    + destruct (Hg eq_refl) as (_ & _ & _ & [t Hs]).
      cbn [fst snd] in Hs |- *. rewrite Hs. discriminate.
    + intros _. exact (Hc eq_refl).
Qed.

(** What a call of [getAccessToken()] leaves behind: at most four requests
    (one verification, three refresh attempts); with a token returned, that
    token in [localStorage] and user, state and notifications as before;
    with [null] returned, no usable token in [localStorage], and a cleared
    session if there was one before. *)
Lemma getAccessToken_outcome s :
  let run := getAccessToken server s in
  (exists sent,
     fetched (snd run) = fetched s ++ sent /\ (length sent <= 4)%nat) /\
  match fst run with
  | Some token =>
      localStorage (snd run) !! ACCESS_TOKEN = Some token /\
      user (snd run) = user s /\
      authState (snd run) = authState s /\
      notified (snd run) = notified s
  | None =>
      truthy (localStorage (snd run) !! ACCESS_TOKEN) = false /\
      (truthy (localStorage s !! ACCESS_TOKEN) = true ->
       sessionCleared (snd run))
  end.
Proof.
  cbv zeta. unfold getAccessToken.
  cbv beta iota zeta delta [bind getItem ret].
  destruct (truthy (localStorage s !! ACCESS_TOKEN)) eqn:Ht; cbn [negb].
  2: { cbn [fst snd]. split; [exists []; rewrite app_nil_r; split;
                               [reflexivity | simpl; lia]|].
       split; [exact Ht | discriminate]. }
  rewrite (AuthProps.verifyToken_verifies server _ _
             (truthy_stored _ Ht)).
  destruct (verifies _); cbn [negb].
  - cbn [fst snd afterFetch localStorage user authState notified fetched].
    split; [eexists; split; [reflexivity | simpl; lia]|].
    destruct (localStorage s !! ACCESS_TOKEN) as [token|] eqn:El;
      [|discriminate].
    repeat split; reflexivity.
  - unfold refreshAccessToken. change (2 - 0)%nat with 2%nat.
    match goal with
    | |- context [refreshAttempts server 2 ?X] =>
        pose proof (refreshAttempts_granted 2 X) as Hg;
        destruct (AuthProps.refreshAttempts_chain server 2 X)
          as (n & Hf & Hle & _ & _ & Hc & _);
        destruct (refreshAttempts server 2 X) as [[|] s2]
    end.
    + destruct (Hg eq_refl) as (Hu & Hs & Hn & [t Ha]).
      cbn [fst snd afterFetch localStorage user authState notified fetched]
        in Hu, Hs, Hn, Ha, Hf |- *.
      split.
      { eexists. split; [rewrite Hf, <- app_assoc; reflexivity|].
        rewrite length_app, length_replicate. simpl. lia. }
      rewrite Ha. repeat split; assumption.
    + cbn [fst snd afterFetch fetched] in Hf, Hc |- *.
      split.
      { eexists. split; [rewrite Hf, <- app_assoc; reflexivity|].
        rewrite length_app, length_replicate. simpl. lia. }
      destruct (Hc eq_refl) as (_ & _ & Ha & _).
      split; [rewrite Ha; reflexivity | intros _; exact (Hc eq_refl)].
Qed.

End Init.
Lemma init_authenticated_has_session_witness :
  let run := init sampleParse acceptingServer (constructed staleSession) in
  fst run = "authenticated" /\
  is_Some (user (snd run)) /\
  is_Some (localStorage (snd run) !! ACCESS_TOKEN).
Proof.
  split; [reflexivity|].
  apply (init_authenticated_has_session sampleParse acceptingServer
           (constructed staleSession)).
  reflexivity.
Defined.

Lemma init_without_token_witness :
  let s := constructed (User := SampleUser)
             (<[AUTH_STATE := "authenticated"]> ∅) in
  let run := init sampleParse acceptingServer s in
  truthy (localStorage s !! ACCESS_TOKEN) = false /\
  fetched (snd run) = fetched s /\ fst run <> "authenticated".
Proof.
  split; [reflexivity|].
  apply (init_without_token sampleParse acceptingServer
           (constructed (<[AUTH_STATE := "authenticated"]> ∅))).
  reflexivity.
Defined.

Lemma init_corrupt_user_data_witness :
  let s := constructed (User := SampleUser)
             (<[USER_DATA := "{oops"]> staleSession) in
  let run := init sampleParse acceptingServer s in
  sampleParse (stored (localStorage s !! USER_DATA)) = SyntaxError /\
  fst run = "unauthenticated" /\
  localStorage (snd run)
    = <[AUTH_STATE := "unauthenticated"]> (localStorage s) /\
  user (snd run) = user s /\
  fetched (snd run) = fetched s /\
  notified (snd run) = notified s ++ [("unauthenticated", user s)].
Proof.
  split; [reflexivity|].
  apply (init_corrupt_user_data sampleParse acceptingServer
           (constructed (<[USER_DATA := "{oops"]> staleSession)));
    reflexivity.
Defined.

Lemma getAccessToken_returns_stored_token_witness :
  let s := constructed (User := SampleUser) staleSession in
  let run := getAccessToken refreshingServer s in
  fst run = Some "new-access" /\
  localStorage (snd run) !! ACCESS_TOKEN = Some "new-access" /\
  user (snd run) = user s /\
  authState (snd run) = authState s /\
  notified (snd run) = notified s.
Proof.
  split; [reflexivity|].
  apply (getAccessToken_returns_stored_token refreshingServer
           (constructed (User := SampleUser) staleSession) "new-access").
  reflexivity.
Defined.

Lemma getAccessToken_null_logs_out_witness :
  let s := constructed (User := SampleUser) staleSession in
  let run := getAccessToken flakyServer s in
  truthy (localStorage s !! ACCESS_TOKEN) = true /\
  fst run = None /\ sessionCleared (snd run).
Proof.
  split; [reflexivity|]. split; [reflexivity|].
  apply (getAccessToken_null_logs_out flakyServer
           (constructed (User := SampleUser) staleSession)); reflexivity.
Defined.


End AuthInitProps.

(** ** The API client on top of the authentication service *)
Module ApiSessionProps.
Import ApiClient.
Local Open Scope string_scope.
Local Open Scope list_scope.

Section Session.
Context {User : Type}.
Variable server : nat -> Auth.Request -> Auth.FetchResult.
Variable fetch : Request -> FetchResult.
Implicit Types s : Auth.Service User.

(** X21: [makeRequest] of a client built on the authentication service
    makes at most five requests, at most four of them to the
    authentication endpoints and then at most one to the API. The API
    request is sent exactly when the call leaves a usable access token in
    [localStorage]; it carries that token as bearer, goes to the base URL
    followed by the endpoint, its outcome is what the caller gets, and
    user, state and notifications of the service are as before. When it is
    not sent the caller gets "No valid access token available", and if a
    token was stored before the call, the session has been cleared or the
    refresh has stored an empty token. *)
Theorem makeRequest_sends_held_token endpoint options s :
  let '(completion, requests, s') :=
    ApiSession.makeRequest server fetch endpoint options s in
  (exists sent,
     Auth.fetched s' = Auth.fetched s ++ sent /\ (length sent <= 4)%nat) /\
  (length requests <= 1)%nat /\
  (requests = [] <->
   Auth.truthy (Auth.localStorage s' !! Auth.ACCESS_TOKEN) = false) /\
  (forall request, In request requests ->
     exists token,
       Auth.localStorage s' !! Auth.ACCESS_TOKEN = Some token /\
       request = mkRequest (baseUrl +:+ endpoint) ("Bearer " +:+ token)
                   (method options) (body options) /\
       completion = match fetch request with
                    | Rejects e => Throws e
                    | Resolves response => handleResponse response
                    end /\
       Auth.user s' = Auth.user s /\
       Auth.authState s' = Auth.authState s /\
       Auth.notified s' = Auth.notified s) /\
  (requests = [] ->
   completion = Throws (Error "No valid access token available") /\
   (Auth.truthy (Auth.localStorage s !! Auth.ACCESS_TOKEN) = true ->
    Auth.sessionCleared s' \/
    Auth.localStorage s' !! Auth.ACCESS_TOKEN = Some "")).
Proof.
  unfold ApiSession.makeRequest.
  pose proof (AuthInitProps.getAccessToken_outcome server s) as [Hn Ho].
  cbv zeta in Hn, Ho.
  destruct (Auth.getAccessToken server s) as [[token|] s'];
    cbn [fst snd] in Hn, Ho.
  - destruct Ho as (Ha & Hu & Hs & Hnot).
    unfold makeRequest. destruct (nonEmpty token) eqn:Et; cbn [negb].
    + destruct (fetch (mkRequest (baseUrl +:+ endpoint) ("Bearer " +:+ token)
                         (method options) (body options)))
        as [e|response] eqn:Ef.
      all: split; [exact Hn|]; split; [simpl; lia|].
      all: split;
        [split; [discriminate|]; rewrite Ha; simpl;
         change (Auth.nonEmpty token) with (nonEmpty token);
         rewrite Et; discriminate|].
      all: split; [|discriminate].
      all: intros request [<-|[]]; exists token; rewrite Ef; auto 10.
    + split; [exact Hn|]. split; [simpl; lia|].
      assert (token = "") as ->
        by (destruct token; [reflexivity | discriminate]).
      split; [split; [intros _; rewrite Ha; reflexivity | reflexivity]|].
      split; [intros request []|]. intros _. split; [reflexivity|].
      intros _. right. exact Ha.
  - destruct Ho as [Hf Hc]. cbn [makeRequest].
    split; [exact Hn|]. split; [simpl; lia|].
    split; [split; [intros _; exact Hf | reflexivity]|].
    split; [intros request []|]. intros _. split; [reflexivity|].
    intros Ht. left. exact (Hc Ht).
Qed.

End Session.
End ApiSessionProps.

(** ** The login flow and deep links *)
Module AuthFlowProps.
Import Auth AuthFlow DeepLink.
Local Open Scope string_scope.
Local Open Scope list_scope.
Local Open Scope Z_scope.

Section Flow.
Context {User : Type}.
Variable JSON_parse : string -> Parsed User.
Variable JSON_stringify : User -> string.
Variable data_userObject : Data -> User.
Variable server : nat -> Request -> FetchResult.
Variable newURL : string -> option URL.
Variable decodeURIComponent : string -> option string.
Implicit Types ss : Session User.
Implicit Types s : Service User.

Lemma handleDeepLink_sends_both_tokens mainWindow commandLine authData :
  In (send (auth_completed authData))
     (handleDeepLink newURL decodeURIComponent JSON_parse mainWindow
        commandLine) ->
  truthy (accessToken authData) && truthy (refreshToken authData) = true.
Proof.
  unfold handleDeepLink.
  destruct (List.find _ commandLine) as [url|]; [|intros []].
  destruct (newURL url) as [urlObj|]; [|intros []].
  cbv zeta.
  destruct (_ || _).
  - destruct (truthy (get "access_token" _) && truthy (get "refresh_token" _))
      eqn:Et; [|intros []].
    destruct mainWindow as [minimized|]; [|intros []].
    intros H. apply in_app_or in H. destruct H as [H|H].
    { destruct minimized; [destruct H as [H|[]]; discriminate|destruct H]. }
    destruct H as [H|H]; [discriminate|].
    destruct (truthy (get "user_data" _)).
    + destruct (decodeURIComponent _) as [text|]; [|destruct H].
      destruct (JSON_parse text); [destruct H| |];
        destruct H as [H|[]]; inversion H; subst authData; exact Et.
    + destruct H as [H|[]]. inversion H; subst authData; exact Et.
  - destruct (String.eqb _ _); [|intros []].
    destruct mainWindow; [|intros []]. intros [H|[]]. discriminate.
Qed.

Lemma handleDeepLinkAuth_accepts authData ss :
  truthy (accessToken authData) && truthy (refreshToken authData) = true ->
  let run :=
    handleDeepLinkAuth JSON_stringify data_userObject server authData ss in
  fst run = true /\
  authState (service (snd run)) = "authenticated" /\
  localStorage (service (snd run)) !! AUTH_STATE = Some "authenticated" /\
  exists earlier,
    notified (service (snd run))
    = earlier ++ [("authenticated", user (service (snd run)))].
Proof.
  intros Ht. cbv zeta. unfold handleDeepLinkAuth. rewrite Ht.
  cbv beta iota zeta delta [bindF retF].
  destruct (onService _ ss) as [[] ss1].
  match goal with
  | |- context [(if bool_decide (is_Some (userData authData))
                 then ?f else ?g) ss1] =>
      destruct ((if bool_decide (is_Some (userData authData))
                 then f else g) ss1) as [[] ss2]
  end.
  destruct ss2 as [[ls2 u2 st2 n2 f2] [id|] ts2 nx2 url2 o2].
  all: cbv beta iota zeta delta
         [onService setAuthState notifyListeners bind getAuthState setItem
          stopAuthMonitoring service authTimeout timeouts nextTimeout
          currentLoginUrl opened localStorage user authState notified
          fetched fst snd].
  1: destruct (0 <? id)%nat.
  all: split; [reflexivity|]; split; [reflexivity|].
  all: split; [apply lookup_insert_eq|].
  all: eexists; reflexivity.
Qed.

(** X28: every [auth-completed] message that [handleDeepLink] sends to
    the renderer is accepted there: [handleDeepLinkAuth] returns [true] and
    ends in the state "authenticated", persisted and announced to the
    listeners, whatever the server answers to the requests it makes on
    the way. *)
Theorem deep_link_auth_always_authenticates mainWindow commandLine authData
  ss :
  In (send (auth_completed authData))
     (handleDeepLink newURL decodeURIComponent JSON_parse mainWindow
        commandLine) ->
  let run :=
    handleDeepLinkAuth JSON_stringify data_userObject server authData ss in
  fst run = true /\
  authState (service (snd run)) = "authenticated" /\
  localStorage (service (snd run)) !! AUTH_STATE = Some "authenticated" /\
  exists earlier,
    notified (service (snd run))
    = earlier ++ [("authenticated", user (service (snd run)))].
Proof.
  intros H. apply handleDeepLinkAuth_accepts.
  exact (handleDeepLink_sends_both_tokens _ _ _ H).
Qed.

Lemma init_valid_session s a ud u :
  localStorage s !! ACCESS_TOKEN = Some a -> nonEmpty a = true ->
  localStorage s !! USER_DATA = Some ud -> nonEmpty ud = true ->
  JSON_parse ud = Object u ->
  verifies (server (length (fetched s)) (GET_auth_status a)) = true ->
  let run := init JSON_parse server s in
  fst run = "authenticated" /\
  user (snd run) = Some u /\
  localStorage (snd run) = <[AUTH_STATE := "authenticated"]> (localStorage s)
  /\ fetched (snd run) = fetched s ++ [GET_auth_status a].
Proof.
  intros Ha Hta Hu Htu Hp Hv. cbv zeta. unfold init.
  cbv beta iota zeta delta [bind getItem ret setAuthState setUser getUser
                            getAuthState].
  rewrite Ha, Hu.
  change (truthy (Some ud)) with (nonEmpty ud).
  change (truthy (Some a)) with (nonEmpty a).
  rewrite Hta, Htu. change (stored (Some ud)) with ud. rewrite Hp.
  cbv beta iota.
  cbn [user localStorage authState notified fetched andb].
  rewrite bool_decide_eq_true_2 by eauto.
  change (stored (Some a)) with a.
  rewrite (AuthProps.verifyToken_verifies server a _ Hta). cbn [fetched]. rewrite Hv.
  rewrite AuthInitProps.notifyListeners_effect.
  cbn [fst snd afterFetch user localStorage authState notified fetched].
  repeat split; reflexivity.
Qed.

End Flow.

Section Restart.
Context {User : Type}.
Variable JSON_parse : string -> Parsed User.
Variable JSON_stringify : User -> string.
Variable data_userObject : Data -> User.
Variables server server' : nat -> Request -> FetchResult.

(** X29: a session stored by [handleDeepLinkAuth] from a message that
    carries the user survives a restart: when [JSON.parse] gives back what
    [JSON.stringify] wrote and the server accepts the access token, [init()]
    on a new service over the same [localStorage] ends "authenticated" with
    that user, after the one request that verifies the token, and leaves
    [localStorage] as it found it. *)
Theorem deep_link_session_survives_restart authData u
  (ss : Session User) :
  truthy (accessToken authData) = true ->
  truthy (refreshToken authData) = true ->
  userData authData = Some u ->
  nonEmpty (JSON_stringify u) = true ->
  JSON_parse (JSON_stringify u) = Object u ->
  verifies (server' 0%nat
              (GET_auth_status (stored (accessToken authData)))) = true ->
  let storage :=
    localStorage
      (service
         (snd (handleDeepLinkAuth JSON_stringify data_userObject server
                 authData ss))) in
  let run := init JSON_parse server' (constructed storage) in
  fst run = "authenticated" /\
  user (snd run) = Some u /\
  localStorage (snd run) = storage /\
  fetched (snd run) = [GET_auth_status (stored (accessToken authData))].
Proof.
  intros Ha Hr Hu Hn Hp Hv. cbv zeta.
  set (storage := localStorage _).
  assert (Hs : storage !! ACCESS_TOKEN = Some (stored (accessToken authData))
               /\ storage !! USER_DATA = Some (JSON_stringify u)
               /\ storage !! AUTH_STATE = Some "authenticated").
  { subst storage. unfold handleDeepLinkAuth. rewrite Ha, Hr, Hu.
    cbn [andb]. rewrite bool_decide_eq_true_2 by eauto.
    destruct ss as [[ls0 u0 st0 n0 f0] at0 ts0 nx0 url0 o0].
    unfold storeTokens, updateUserData. rewrite Hr.
    cbv beta iota zeta delta
         [bindF retF onService setAuthState notifyListeners bind getAuthState
          setItem setUser ret service authTimeout timeouts nextTimeout
          currentLoginUrl opened localStorage user authState notified
          fetched fst snd].
    unfold stopAuthMonitoring. cbn [authTimeout].
    destruct at0 as [id|]; [destruct (0 <? id)%nat|].
    all: cbn [snd service localStorage].
    all: repeat split.
    all: rewrite ?lookup_insert_eq; try reflexivity.
    all: rewrite !lookup_insert_ne by AuthProps.distinct_keys.
    all: rewrite ?lookup_insert_eq; try reflexivity.
    all: rewrite !lookup_insert_ne by AuthProps.distinct_keys.
    all: rewrite ?lookup_insert_eq; try reflexivity. }
  destruct Hs as (Hsa & Hsu & Hst).
  destruct (init_valid_session JSON_parse server' (constructed storage)
              (stored (accessToken authData)) (JSON_stringify u) u)
    as (H1 & H2 & H3 & H4); try assumption.
  - apply AuthInitProps.truthy_stored, Ha.
  - repeat split; try assumption.
    rewrite H3. cbn [constructed localStorage].
    apply insert_id, Hst.
Qed.

End Restart.

Lemma deep_link_auth_always_authenticates_witness :
  let authData : AuthData SampleUser :=
    mkAuthData (Some "a1") (Some "r1") None in
  let actions :=
    handleDeepLink sampleNewURL Some sampleParse (Some false)
      ["primitiv-desktop.exe"; sampleDeepLink] in
  let run :=
    handleDeepLinkAuth (fun _ => sampleUserData)
      (fun _ => mkUser 7 "a@b.c") refusingServer authData (started ∅) in
  actions = [focus; send (auth_completed authData)] /\
  user (service (snd run)) = None /\
  localStorage (service (snd run)) !! ACCESS_TOKEN = None /\
  fst run = true /\
  authState (service (snd run)) = "authenticated" /\
  localStorage (service (snd run)) !! AUTH_STATE = Some "authenticated" /\
  exists earlier,
    notified (service (snd run))
    = earlier ++ [("authenticated", user (service (snd run)))].
Proof.
  split; [vm_compute; reflexivity|].
  split; [vm_compute; reflexivity|].
  split; [vm_compute; reflexivity|].
  apply (deep_link_auth_always_authenticates sampleParse
           (fun _ => sampleUserData) (fun _ => mkUser 7 "a@b.c")
           refusingServer sampleNewURL Some (Some false)
           ["primitiv-desktop.exe"; sampleDeepLink]).
  vm_compute. right. left. reflexivity.
Defined.

Lemma deep_link_session_survives_restart_witness :
  let u := mkUser 7 "a@b.c" in
  let authData := mkAuthData (Some "a1") (Some "r1") (Some u) in
  let storage :=
    localStorage
      (service
         (snd (handleDeepLinkAuth (fun _ => sampleUserData) (fun _ => u)
                 refusingServer authData (started ∅)))) in
  let run := init sampleParse acceptingServer (constructed storage) in
  fst run = "authenticated" /\
  user (snd run) = Some u /\
  localStorage (snd run) = storage /\
  fetched (snd run) = [GET_auth_status "a1"].
Proof.
  apply (deep_link_session_survives_restart sampleParse
           (fun _ => sampleUserData) (fun _ => mkUser 7 "a@b.c")
           refusingServer acceptingServer
           (mkAuthData (Some "a1") (Some "r1") (Some (mkUser 7 "a@b.c")))
           (mkUser 7 "a@b.c") (started ∅)); reflexivity.
Defined.

Section Timeouts.
Context {User : Type}.
Implicit Types ss : Session User.

(** X30: [login()] never cancels the timeout of an earlier [login()], and
    [stopAuthMonitoring()] cancels only the one started last. After two
    calls of [login()] both timeouts are pending; stopping leaves the
    earlier one pending; and when the earlier one fires, it ends the later
    attempt: the state goes from "authenticating" to "unauthenticated" and
    the listeners are told so, while the later attempt's own timeout is
    still pending. *)
Theorem earlier_login_timeout_ends_later_login electron1 electron2 ss :
  let first := nextTimeout ss in
  let second := S (nextTimeout ss) in
  let ss2 := snd (login electron2 (snd (login electron1 ss))) in
  let ss3 := snd (authTimeoutFires first ss2) in
  authState (service ss2) = "authenticating" /\
  authTimeout ss2 = Some second /\
  first ∈ timeouts ss2 /\ second ∈ timeouts ss2 /\
  first ∈ timeouts (snd (stopAuthMonitoring ss2)) /\
  authState (service ss3) = "unauthenticated" /\
  localStorage (service ss3) !! AUTH_STATE = Some "unauthenticated" /\
  notified (service ss3)
  = notified (service ss2) ++ [("unauthenticated", user (service ss2))] /\
  authTimeout ss3 = Some second /\
  second ∈ timeouts ss3.
Proof.
  destruct ss as [[ls0 u0 st0 n0 f0] at0 ts0 nx0 url0 o0].
  cbv zeta. unfold login, startAuthMonitoring.
  cbv beta iota zeta delta
       [bindF retF onService setAuthState notifyListeners bind getAuthState
        setItem setUser ret service authTimeout timeouts nextTimeout
        currentLoginUrl opened localStorage user authState notified
        fetched fst snd].
  assert (H1 : nx0 ∈ (ts0 ++ [nx0]) ++ [S nx0]).
  { rewrite !elem_of_app, !list_elem_of_singleton. auto. }
  assert (H2 : S nx0 ∈ (ts0 ++ [nx0]) ++ [S nx0]).
  { rewrite !elem_of_app, !list_elem_of_singleton. auto. }
  split; [reflexivity|]. split; [reflexivity|].
  split; [exact H1|]. split; [exact H2|].
  split.
  { unfold stopAuthMonitoring. cbn [authTimeout Nat.ltb Nat.leb].
    cbn [snd timeouts]. apply list_elem_of_filter. split; [lia|exact H1]. }
  unfold authTimeoutFires. cbn [timeouts].
  rewrite bool_decide_eq_true_2 by exact H1.
  cbv beta iota zeta delta
       [bindF retF onService setAuthState notifyListeners bind getAuthState
        setItem setUser ret service authTimeout timeouts nextTimeout
        currentLoginUrl opened localStorage user authState notified
        fetched fst snd String.eqb Ascii.eqb Bool.eqb].
  split; [reflexivity|]. split; [apply lookup_insert_eq|].
  split; [reflexivity|]. split; [reflexivity|].
  apply list_elem_of_filter. split; [lia|exact H2].
Qed.

End Timeouts.

End AuthFlowProps.

(** ** The exact score arithmetic against binary64 *)
Module Drag64Props.
Import DragReorder64.
Local Open Scope Z_scope.

Lemma sameDouble_eq a b : sameDouble a b = true -> a = b.
Proof.
  destruct a as [s|s| |s m e], b as [s'|s'| |s' m' e']; simpl;
    try discriminate; try reflexivity.
  - intros H. apply Bool.eqb_prop in H. congruence.
  - intros H. apply Bool.eqb_prop in H. congruence.
  - intros H. apply andb_prop in H as [H He]. apply andb_prop in H as [Hs Hm].
    apply Bool.eqb_prop in Hs. apply Pos.eqb_eq in Hm. apply Z.eqb_eq in He.
    congruence.
Qed.

Lemma scoreGrid_spec k : 1 <= k <= 5050 -> In k scoreGrid.
Proof.
  intros H. unfold scoreGrid. apply in_map_iff.
  exists (Z.to_nat k). split; [lia|]. apply in_seq. lia.
Qed.

Lemma top_on_grid :
  forallb (fun k =>
             sameDouble
               (round2 (clampRicu
                          (Math_min (ofZ 50) (add (orOne (hundredths k)) half))))
               (hundredths (Z.min 5000 (k + 50))))
          scoreGrid = true.
Proof. vm_compute. reflexivity. Qed.

Lemma bottom_on_grid :
  forallb (fun k =>
             sameDouble
               (round2 (clampRicu
                          (Math_max (hundredths 51)
                             (sub (orOne (hundredths k)) half))))
               (hundredths (Z.max 51 (k - 50))))
          scoreGrid = true.
Proof. vm_compute. reflexivity. Qed.

Lemma checked_on_grid (check : Z -> bool) k :
  forallb check scoreGrid = true -> 1 <= k <= 5050 -> check k = true.
Proof.
  intros H Hk. rewrite forallb_forall in H. apply H, scoreGrid_spec, Hk.
Qed.

Local Open Scope Q_scope.

Lemma clampRicu_of_hundredths v (n : Z) :
  (51 <= n <= 5000)%Z -> v == inject_Z n / 100 ->
  DragReorder.round2 (DragReorder.clampRicu v) == inject_Z n / 100.
Proof.
  intros Hn Hv.
  assert (H1 : inject_Z 51 <= inject_Z n) by (rewrite <- Zle_Qle; lia).
  assert (H2 : inject_Z n <= inject_Z 5000) by (rewrite <- Zle_Qle; lia).
  change (inject_Z 51) with 51 in H1. change (inject_Z 5000) with 5000 in H2.
  assert (Hb : 0.51 <= v <= 50).
  { rewrite Hv. split.
    - apply Qle_shift_div_l; lra.
    - apply Qle_shift_div_r; lra. }
  rewrite (DragReorderProps.round2_comp _ _ (DragMoreProps.clampRicu_inside v Hb)).
  rewrite (DragReorderProps.round2_hundredths n v Hv). exact Hv.
Qed.

Lemma top_exact (k : Z) :
  (1 <= k)%Z ->
  DragReorder.round2
    (DragReorder.clampRicu
       (Qmin 50 (DragReorder.orOne (DragReorder.Num (inject_Z k / 100)) + 0.5)))
  == inject_Z (Z.min 5000 (k + 50)) / 100.
Proof.
  intros Hk.
  assert (H1 : inject_Z 1 <= inject_Z k) by (rewrite <- Zle_Qle; lia).
  change (inject_Z 1) with 1 in H1.
  assert (Hq : 0 < inject_Z k / 100) by (apply Qlt_shift_div_l; lra).
  rewrite (DragMoreProps.orOne_of_positive _ Hq).
  apply clampRicu_of_hundredths; [lia|].
  assert (E : inject_Z k / 100 + 0.5 == (inject_Z k + 50) / 100) by field.
  destruct (Z.min_spec 5000 (k + 50)) as [[Hlt ->] | [Hle ->]].
  - assert (H2 : inject_Z 5000 < inject_Z (k + 50))
      by (rewrite <- Zlt_Qlt; lia).
    rewrite inject_Z_plus in H2.
    change (inject_Z 5000) with 5000 in *. change (inject_Z 50) with 50 in H2.
    rewrite Q.min_l; [reflexivity|].
    rewrite E. apply Qle_shift_div_l; lra.
  - assert (H2 : inject_Z (k + 50) <= inject_Z 5000)
      by (rewrite <- Zle_Qle; lia).
    rewrite inject_Z_plus in *.
    change (inject_Z 5000) with 5000 in H2. change (inject_Z 50) with 50 in *.
    rewrite Q.min_r; [exact E|].
    rewrite E. apply Qle_shift_div_r; lra.
Qed.

Lemma bottom_exact (k : Z) :
  (1 <= k <= 5050)%Z ->
  DragReorder.round2
    (DragReorder.clampRicu
       (Qmax 0.51
          (DragReorder.orOne (DragReorder.Num (inject_Z k / 100)) - 0.5)))
  == inject_Z (Z.max 51 (k - 50)) / 100.
Proof.
  intros Hk.
  assert (H1 : inject_Z 1 <= inject_Z k) by (rewrite <- Zle_Qle; lia).
  change (inject_Z 1) with 1 in H1.
  assert (Hq : 0 < inject_Z k / 100) by (apply Qlt_shift_div_l; lra).
  rewrite (DragMoreProps.orOne_of_positive _ Hq).
  apply clampRicu_of_hundredths; [lia|].
  assert (E : inject_Z k / 100 - 0.5 == (inject_Z k - 50) / 100) by field.
  destruct (Z.max_spec 51 (k - 50)) as [[Hlt ->] | [Hle ->]].
  - assert (H2 : inject_Z 51 < inject_Z (k - 50))
      by (rewrite <- Zlt_Qlt; lia).
    unfold Z.sub in *. rewrite inject_Z_plus in *.
    change (inject_Z 51) with 51 in H2.
    change (inject_Z (- (50))) with (-50) in *.
    rewrite Q.max_r; [rewrite E; field|].
    rewrite E. apply Qle_shift_div_l; lra.
  - assert (H2 : inject_Z (k - 50) <= inject_Z 51)
      by (rewrite <- Zle_Qle; lia).
    unfold Z.sub in H2. rewrite inject_Z_plus in H2.
    change (inject_Z 51) with 51 in *.
    change (inject_Z (- (50))) with (-50) in H2.
    rewrite Q.max_l; [reflexivity|].
    rewrite E. apply Qle_shift_div_r; lra.
Qed.

Local Open Scope Z_scope.

(** The rows as doubles and as exact numbers, from their hundredths. *)
Lemma rowAt_hundredths (ks : list Z) (i : Z) k :
  0 <= i -> ks !! Z.to_nat i = Some k ->
  rowAt (hundredths <$> ks) i = Some (hundredths k) /\
  DragReorder.rowAt
    ((fun k => DragReorder.Num (inject_Z k / 100)) <$> ks) i
  = Some (DragReorder.Num (inject_Z k / 100)).
Proof.
  intros Hi Hk. unfold rowAt, DragReorder.rowAt.
  destruct (i <? 0) eqn:E; [lia|].
  rewrite !list_lookup_fmap, Hk. split; reflexivity.
Qed.

(** On rows that show whole hundredths, a task dropped at the top next to
    a score from 0.01 to 50.50 is saved with the same score by the binary64
    arithmetic as by the exact one: the hundredth min(5000, k + 50), as the
    double nearest to it. *)
Lemma drag_to_top_binary64 (ks : list Z) dragged64 dragged originalIndex k :
  ks !! 1%nat = Some k -> 1 <= k <= 5050 -> originalIndex <> 0 ->
  handleMouseUp (hundredths <$> ks) dragged64 originalIndex 0
    = NewRicu (hundredths (Z.min 5000 (k + 50))) /\
  exists q,
    DragReorder.handleMouseUp
      ((fun k => DragReorder.Num (inject_Z k / 100)) <$> ks) dragged
      originalIndex 0
    = DragReorder.NewRicu q /\
    (q == inject_Z (Z.min 5000 (k + 50)) / 100)%Q.
Proof.
  intros Hk Hr Ho.
  assert (Hlen : (2 <= length ks)%nat)
    by (apply lookup_lt_Some in Hk; lia).
  destruct (rowAt_hundredths ks 1 k) as [R64 RQ]; [lia | exact Hk |].
  unfold handleMouseUp, neighbourRicu, DragReorder.handleMouseUp,
    DragReorder.neighbourRicu.
  rewrite !length_fmap.
  destruct (0 =? originalIndex) eqn:E0; [lia|].
  destruct (Z.of_nat (length ks) =? 1) eqn:E1; [lia|].
  cbn [Z.eqb]. rewrite R64, RQ. cbn [mbind option_bind].
  split.
  - f_equal. apply sameDouble_eq.
    exact (checked_on_grid _ k top_on_grid Hr).
  - eexists. split; [reflexivity|]. apply top_exact. lia.
Qed.

(** The same for a task dropped at the bottom: the hundredth
    max(51, k - 50). *)
Lemma drag_to_bottom_binary64 (ks : list Z) dragged64 dragged originalIndex
    k :
  (2 <= length ks)%nat ->
  ks !! (length ks - 2)%nat = Some k -> 1 <= k <= 5050 ->
  originalIndex <> Z.of_nat (length ks) - 1 ->
  handleMouseUp (hundredths <$> ks) dragged64 originalIndex
      (Z.of_nat (length ks) - 1)
    = NewRicu (hundredths (Z.max 51 (k - 50))) /\
  exists q,
    DragReorder.handleMouseUp
      ((fun k => DragReorder.Num (inject_Z k / 100)) <$> ks) dragged
      originalIndex (Z.of_nat (length ks) - 1)
    = DragReorder.NewRicu q /\
    (q == inject_Z (Z.max 51 (k - 50)) / 100)%Q.
Proof.
  intros Hlen Hk Hr Ho.
  destruct (rowAt_hundredths ks (Z.of_nat (length ks) - 1 - 1) k)
    as [R64 RQ]; [lia | |].
  { replace (Z.to_nat (Z.of_nat (length ks) - 1 - 1))
      with (length ks - 2)%nat by lia. exact Hk. }
  unfold handleMouseUp, neighbourRicu, DragReorder.handleMouseUp,
    DragReorder.neighbourRicu.
  rewrite !length_fmap.
  destruct (Z.of_nat (length ks) - 1 =? originalIndex) eqn:E0; [lia|].
  destruct (Z.of_nat (length ks) =? 1) eqn:E1; [lia|].
  destruct (Z.of_nat (length ks) - 1 =? 0) eqn:E2; [lia|].
  rewrite Z.eqb_refl, R64, RQ. cbn [mbind option_bind].
  split.
  - f_equal. apply sameDouble_eq.
    exact (checked_on_grid _ k bottom_on_grid Hr).
  - eexists. split; [reflexivity|]. apply bottom_exact. lia.
Qed.

End Drag64Props.
